(** * lynx: the periodic-image repair pipeline of [lynx/generate.py]

    A shallow embedding of [load_morphology_xml], [zero_out_images],
    [get_bond_dict], [check_bonds], [move_bonded_atoms],
    [check_wrapped_positions], [write_morphology_xml] and [fix_images],
    followed by the properties of the repair pipeline.  Of the generator
    the file embeds what is the repository's own code: the argument
    types of [main], [create_output_file_name], and the loops of
    [m1_surface] over its calls into [mbuild].

    Modelling conventions.
    - Python exceptions are values of [exn]; a computation is a [result].
      The recursion of [move_bonded_atoms] and the [while] loops of
      [check_wrapped_positions], which Python does not bound, take a fuel
      argument and answer [OutOfFuel] when it is exhausted.  A function
      that mutates the dictionary in place returns the dictionary as it
      is when the function stops, next to its outcome ([effect]).
    - A Python [float] is an exact decimal number [pyfloat] (integer
      mantissa, decimal scale): [+], [-], [*] and [/ 2.0] are exact, so
      binary rounding, infinities and NaN are outside the model.
      [float()] and [int()] read plain decimal literals (sign, digits,
      and for [float] an optional fraction); exponents, underscores and
      the words [inf] and [nan] count as unreadable.  [str()] prints the
      shortest plain decimal literal, with at least one fractional digit
      for a float, never in exponent notation.
    - A numpy array is the list of its rows; arithmetic on two rows
      follows numpy's broadcasting of one-dimensional arrays.
    - The morphology dictionary is an insertion-ordered association list
      from keys to Python values.  An XML file is the element tree that
      [ElementTree] parses it to and writes it from (tag, attributes,
      text, children); tails, the XML declaration and character escaping
      belong to that library and are not modelled. *)

From Stdlib Require Import ZArith QArith Qabs Qround String Ascii Bool Lia Lqa List.
Import ListNotations.

Local Open Scope Z_scope.

(** ** Exceptions and results *)

Inductive exn := KeyError | IndexError | ValueError | TypeError.

Inductive result (A : Type) :=
| Ret (a : A)
| Raise (e : exn)
| OutOfFuel.

Arguments Ret {A} a.
Arguments Raise {A} e.
Arguments OutOfFuel {A}.

Definition bind {A B} (c : result A) (k : A -> result B) : result B :=
  match c with
  | Ret a => k a
  | Raise e => Raise e
  | OutOfFuel => OutOfFuel
  end.

Notation "x <- c ;; k" := (bind c (fun x => k))
  (at level 61, c at next level, right associativity).
Notation "' p <- c ;; k" := (bind c (fun p => k))
  (at level 61, p pattern, c at next level, right associativity).

Definition or_raise {A} (e : exn) (o : option A) : result A :=
  match o with Some a => Ret a | None => Raise e end.

(** [map f xs] where [f] may raise: the first failure wins. *)
Fixpoint mapM {A B} (f : A -> result B) (xs : list A) : result (list B) :=
  match xs with
  | [] => Ret []
  | x :: xs' => y <- f x ;; ys <- mapM f xs' ;; Ret (y :: ys)
  end.

(** ** Python strings *)

Module PyStr.

Local Open Scope string_scope.
Local Open Scope Z_scope.

Definition code (c : ascii) : Z := Z.of_N (N_of_ascii c).

(** [str.isspace] on one character (code points below 256). *)
Definition is_space (c : ascii) : bool :=
  let n := code c in
  ((9 <=? n) && (n <=? 13)) || ((28 <=? n) && (n <=? 32))
  || (n =? 133) || (n =? 160).

Definition is_empty (s : string) : bool :=
  match s with EmptyString => true | _ => false end.

Definition snoc (s : string) (c : ascii) : string := s ++ String c "".

(** [s.split()]: maximal runs of non-blank characters. *)
Fixpoint split_ws (cur : string) (s : string) : list string :=
  match s with
  | EmptyString => if is_empty cur then [] else [cur]
  | String c s' =>
      if is_space c
      then (if is_empty cur then split_ws "" s' else cur :: split_ws "" s')
      else split_ws (snoc cur c) s'
  end.

Definition split (s : string) : list string := split_ws "" s.

(** [s.split(sep)] for a one-character separator. *)
Fixpoint split_on_aux (sep : ascii) (cur : string) (s : string) : list string :=
  match s with
  | EmptyString => [cur]
  | String c s' =>
      if Ascii.eqb c sep then cur :: split_on_aux sep "" s'
      else split_on_aux sep (snoc cur c) s'
  end.

Definition split_on (sep : ascii) (s : string) : list string :=
  split_on_aux sep "" s.

(** [sep.join(parts)]. *)
Definition join (sep : string) (parts : list string) : string :=
  String.concat sep parts.

Definition lower_char (c : ascii) : ascii :=
  let n := code c in
  if ((65 <=? n) && (n <=? 90))
     || ((192 <=? n) && (n <=? 222) && negb (n =? 215))
  then ascii_of_N (Z.to_N (n + 32)) else c.

(** [s.lower()]. *)
Fixpoint lower (s : string) : string :=
  match s with
  | EmptyString => EmptyString
  | String c s' => String (lower_char c) (lower s')
  end.

Fixpoint all_chars (p : ascii -> bool) (s : string) : bool :=
  match s with
  | EmptyString => true
  | String c s' => p c && all_chars p s'
  end.

End PyStr.

(** ** Python numbers *)

Module PyNum.

Local Open Scope string_scope.
Local Open Scope Z_scope.

Definition pow10 (n : nat) : Z := 10 ^ Z.of_nat n.

Definition digit_of (c : ascii) : option Z :=
  let n := PyStr.code c in
  if (48 <=? n) && (n <=? 57) then Some (n - 48) else None.

Definition digit_char (d : Z) : ascii := ascii_of_N (Z.to_N (48 + d)).

Definition is_digit (c : ascii) : bool :=
  match digit_of c with Some _ => true | None => false end.

Fixpoint parse_digits (acc : Z) (s : string) : option Z :=
  match s with
  | EmptyString => Some acc
  | String c s' =>
      match digit_of c with
      | Some d => parse_digits (10 * acc + d) s'
      | None => None
      end
  end.

(** The last [w] decimal digits of [n], most significant first. *)
Fixpoint digits_fixed (w : nat) (n : Z) : string :=
  match w with
  | O => ""
  | S w' => PyStr.snoc (digits_fixed w' (n / 10)) (digit_char (n mod 10))
  end.

Fixpoint strip_zeros (s : string) : string :=
  match s with
  | String c s' =>
      if Ascii.eqb c "0" && negb (PyStr.is_empty s') then strip_zeros s' else s
  | EmptyString => EmptyString
  end.

(** The decimal digits of [n >= 0], without leading zeros. *)
Definition digits_int (n : Z) : string :=
  strip_zeros (digits_fixed (S (Z.to_nat (Z.log2 n))) n).

(** A leading sign, as [int()] and [float()] accept it. *)
Definition split_sign (s : string) : bool * string :=
  match s with
  | String c s' =>
      if Ascii.eqb c "-" then (true, s')
      else if Ascii.eqb c "+" then (false, s')
      else (false, s)
  | EmptyString => (false, s)
  end.

Definition apply_sign (neg : bool) (n : Z) : Z := if neg then - n else n.

(** [int(s)] on a token: [None] stands for [ValueError]. *)
Definition int_of_string (s : string) : option Z :=
  let (neg, body) := split_sign s in
  if PyStr.is_empty body then None
  else option_map (apply_sign neg) (parse_digits 0 body).

(** [str(i)]. *)
Definition str_of_int (z : Z) : string :=
  (if z <? 0 then "-" else "") ++ digits_int (Z.abs z).

(** Exact decimal numbers: [mant / 10 ^ scale]. *)
Record pyfloat := PyFloat { mant : Z; scale : nat }.

Definition Qof (x : pyfloat) : Q :=
  (inject_Z (mant x) / inject_Z (pow10 (scale x)))%Q.

Definition of_int (z : Z) : pyfloat := PyFloat z 0.

Definition fadd (x y : pyfloat) : pyfloat :=
  PyFloat (mant x * pow10 (scale y) + mant y * pow10 (scale x))
          (scale x + scale y).

Definition fneg (x : pyfloat) : pyfloat := PyFloat (- mant x) (scale x).

Definition fsub (x y : pyfloat) : pyfloat := fadd x (fneg y).

Definition fmul (x y : pyfloat) : pyfloat :=
  PyFloat (mant x * mant y) (scale x + scale y).

(** [x / 2.0]. *)
Definition fhalf (x : pyfloat) : pyfloat := PyFloat (mant x * 5) (S (scale x)).

Definition fabs (x : pyfloat) : pyfloat := PyFloat (Z.abs (mant x)) (scale x).

(** [x > y] and [x < y]. *)
Definition fgtb (x y : pyfloat) : bool :=
  mant y * pow10 (scale x) <? mant x * pow10 (scale y).

Definition fltb (x y : pyfloat) : bool := fgtb y x.

(** [float(s)] on a token: [None] stands for [ValueError]. *)
Definition float_of_string (s : string) : option pyfloat :=
  let (neg, body) := split_sign s in
  match PyStr.split_on "." body with
  | [a] =>
      if PyStr.is_empty a then None
      else option_map (fun n => PyFloat (apply_sign neg n) 0) (parse_digits 0 a)
  | [a; b] =>
      if PyStr.is_empty a && PyStr.is_empty b then None
      else
        match parse_digits 0 a, parse_digits 0 b with
        | Some na, Some nb =>
            Some (PyFloat (apply_sign neg (na * pow10 (String.length b) + nb))
                          (String.length b))
        | _, _ => None
        end
  | _ => None
  end.

(** Drop trailing zeros of the fraction, keeping one fractional digit. *)
Fixpoint strip_scale (m : Z) (s : nat) : Z * nat :=
  match s with
  | S (S _ as s') => if m mod 10 =? 0 then strip_scale (m / 10) s' else (m, s)
  | _ => (m, s)
  end.

Definition normalize (x : pyfloat) : pyfloat :=
  match scale x with
  | O => PyFloat (mant x * 10) 1
  | _ => let (m, s) := strip_scale (mant x) (scale x) in PyFloat m s
  end.

(** [str(x)]. *)
Definition str_of_float (x : pyfloat) : string :=
  let y := normalize x in
  let a := Z.abs (mant y) in
  (if mant y <? 0 then "-" else "")
    ++ digits_int (a / pow10 (scale y)) ++ "."
    ++ digits_fixed (scale y) (a mod pow10 (scale y)).

End PyNum.

Import PyNum.

(** ** Python containers *)

(** A list subscript [l[i]]: negative indices count from the end. *)
Definition py_norm_index (len : nat) (i : Z) : option nat :=
  if i <? 0
  then (if - i <=? Z.of_nat len then Some (Z.to_nat (Z.of_nat len + i)) else None)
  else (if i <? Z.of_nat len then Some (Z.to_nat i) else None).

Definition py_index {A} (l : list A) (i : Z) : option A :=
  match py_norm_index (length l) i with
  | Some n => nth_error l n
  | None => None
  end.

Fixpoint list_set {A} (l : list A) (n : nat) (v : A) : list A :=
  match l, n with
  | [], _ => []
  | _ :: l', O => v :: l'
  | x :: l', S n' => x :: list_set l' n' v
  end.

(** An insertion-ordered dictionary with string keys ([dict],
    [OrderedDict]): assigning an existing key keeps its place. *)
Module Dict.
Section WithValue.
Context {V : Type}.

Fixpoint get (k : string) (d : list (string * V)) : option V :=
  match d with
  | [] => None
  | (k', v) :: d' => if String.eqb k k' then Some v else get k d'
  end.

Fixpoint set (k : string) (v : V) (d : list (string * V)) : list (string * V) :=
  match d with
  | [] => [(k, v)]
  | (k', v') :: d' =>
      if String.eqb k k' then (k, v) :: d' else (k', v') :: set k v d'
  end.

Definition keys (d : list (string * V)) : list string := map fst d.
End WithValue.
End Dict.

(** A value that is used as a dictionary key or a list subscript:
    an [int] or a [str]. *)
Inductive pyobj := PInt (i : Z) | PStr (s : string).

Definition pyobj_eqb (a b : pyobj) : bool :=
  match a, b with
  | PInt i, PInt j => i =? j
  | PStr s, PStr t => String.eqb s t
  | _, _ => false
  end.

(** The bond graph: particle index to the list of its neighbours. *)
Definition bond_dict := list (pyobj * list Z).

Fixpoint bd_get (k : pyobj) (d : bond_dict) : option (list Z) :=
  match d with
  | [] => None
  | (k', v) :: d' => if pyobj_eqb k k' then Some v else bd_get k d'
  end.

Fixpoint bd_set (k : pyobj) (v : list Z) (d : bond_dict) : bond_dict :=
  match d with
  | [] => [(k, v)]
  | (k', v') :: d' =>
      if pyobj_eqb k k' then (k, v) :: d' else (k', v') :: bd_set k v d'
  end.

(** ** The morphology dictionary and the XML tree *)

Inductive value :=
| VStr (s : string)
| VNone
| VDict (d : list (string * string))
| VRows (rows : list (list string)).

Definition morphology := list (string * value).

#[local] Set Warnings "-register-all".
Inductive element :=
| Element (tag : string) (attrib : list (string * string))
          (text : option string) (children : list element).

Definition el_children (e : element) : list element :=
  let '(Element _ _ _ cs) := e in cs.

Local Open Scope string_scope.

Definition newline : ascii := "010"%char.
Definition nl : string := String newline "".
Definition tab : string := String "009"%char "".

(** [morphology[key]] for the entries that hold rows of tokens.  Every
    [*_text] entry of a child section is a row list as
    [load_morphology_xml] and [zero_out_images] build it; any other kind
    of value under such a key raises [TypeError] here. *)
Definition get_rows (key : string) (m : morphology) : result (list (list string)) :=
  v <- or_raise KeyError (Dict.get key m) ;;
  match v with VRows r => Ret r | _ => Raise TypeError end.

Definition get_dict (key : string) (m : morphology) : result (list (string * string)) :=
  v <- or_raise KeyError (Dict.get key m) ;;
  match v with VDict d => Ret d | _ => Raise TypeError end.

Definition to_float (tok : string) : result pyfloat :=
  or_raise ValueError (float_of_string tok).

Definition to_int (tok : string) : result Z :=
  or_raise ValueError (int_of_string tok).

(** [np.array(list(map(float, row)))] *)
Definition row_floats (row : list string) : result (list pyfloat) :=
  mapM to_float row.

Definition row_ints (row : list string) : result (list Z) :=
  mapM to_int row.

(** Elementwise arithmetic of two one-dimensional arrays with numpy's
    broadcasting: equal lengths, or one of them of length one. *)
Definition np_map2 (f : pyfloat -> pyfloat -> pyfloat) (a b : list pyfloat)
  : result (list pyfloat) :=
  if Nat.eqb (length a) (length b) then Ret (map (fun p => f (fst p) (snd p)) (combine a b))
  else match a, b with
       | [x], _ => Ret (map (f x) b)
       | _, [y] => Ret (map (fun x => f x y) a)
       | _, _ => Raise ValueError
       end.

(** [[float(morphology['box_attrib'][axis]) for axis in ['lx', 'ly', 'lz']]] *)
Definition read_box_dims (m : morphology) : result (list pyfloat) :=
  box <- get_dict "box_attrib" m ;;
  mapM (fun axis => tok <- or_raise KeyError (Dict.get axis box) ;; to_float tok)
       ["lx"; "ly"; "lz"].

(** *** [load_morphology_xml] *)

Definition text_value (t : option string) : value :=
  match t with Some s => VStr s | None => VNone end.

(** [{key.lower(): val for key, val in child.attrib.items()}] *)
Definition lower_keys (a : list (string * string)) : list (string * string) :=
  fold_left (fun d kv => Dict.set (PyStr.lower (fst kv)) (snd kv) d) a [].

(** [[x.split() for x in child.text.split('\n') if len(x) > 0]] *)
Definition rows_of_text (t : option string) : list (list string) :=
  match t with
  | Some s =>
      map PyStr.split
          (filter (fun x => negb (PyStr.is_empty x)) (PyStr.split_on newline s))
  | None => []
  end.

Definition load_child (m : morphology) (child : element) : morphology :=
  let '(Element tag attrib text _) := child in
  Dict.set (tag ++ "_text") (VRows (rows_of_text text))
    (Dict.set (tag ++ "_attrib") (VDict (lower_keys attrib)) m).

Definition load_config (m : morphology) (config : element) : morphology :=
  let '(Element tag attrib text children) := config in
  fold_left load_child children
    (Dict.set "config_text" (text_value text)
       (Dict.set "config_attrib" (VDict attrib)
          (Dict.set "config_tag" (VStr tag) m))).

Definition load_morphology_xml (root : element) : morphology :=
  let '(Element tag attrib text children) := root in
  fold_left load_config children
    [("root_tag", VStr tag); ("root_attrib", VDict attrib);
     ("root_text", text_value text)].

(** *** [zero_out_images] *)

Definition zero_out_images (m : morphology) : result morphology :=
  positions <- get_rows "position_text" m ;;
  let m1 := Dict.set "image_text"
              (VRows (repeat ["0"; "0"; "0"] (length positions))) m in
  pattrib <- get_dict "position_attrib" m1 ;;
  num <- or_raise KeyError (Dict.get "num" pattrib) ;;
  Ret (Dict.set "image_attrib" (VDict [("num", num)]) m1).

(** *** [get_bond_dict] *)

Definition add_bond (d : bond_dict) (bond : list string) : result bond_dict :=
  t1 <- or_raise IndexError (py_index bond 1) ;;
  i1 <- to_int t1 ;;
  l1 <- or_raise KeyError (bd_get (PInt i1) d) ;;
  t2 <- or_raise IndexError (py_index bond 2) ;;
  i2 <- to_int t2 ;;
  let d1 := bd_set (PInt i1) (l1 ++ [i2])%list d in
  l2 <- or_raise KeyError (bd_get (PInt i2) d1) ;;
  Ret (bd_set (PInt i2) (l2 ++ [i1])%list d1).

Fixpoint add_bonds (d : bond_dict) (bonds : list (list string)) : result bond_dict :=
  match bonds with
  | [] => Ret d
  | bond :: rest => d' <- add_bond d bond ;; add_bonds d' rest
  end.

Definition get_bond_dict (m : morphology) : result bond_dict :=
  types <- get_rows "type_text" m ;;
  let d0 := map (fun i => (PInt (Z.of_nat i), @nil Z)) (seq 0 (length types)) in
  bonds <- get_rows "bond_text" m ;;
  add_bonds d0 bonds.

(** *** [move_bonded_atoms] *)

(** A computation that mutates the morphology in place: the dictionary
    as it is when the computation stops, and how it stopped. *)
Definition effect (A : Type) : Type := morphology * result A.

(** [morphology['position_text'][central_atom]] read as floats; a [str]
    subscript of a list is a [TypeError]. *)
Definition position_of (m : morphology) (atom : pyobj) : result (list pyfloat) :=
  rows <- get_rows "position_text" m ;;
  match atom with
  | PStr _ => Raise TypeError
  | PInt i => row <- or_raise IndexError (py_index rows i) ;; row_floats row
  end.

(** [morphology['position_text'][bonded_atom][axis] = tok] *)
Definition set_position (m : morphology) (atom : Z) (axis : nat) (tok : string)
  : result morphology :=
  rows <- get_rows "position_text" m ;;
  n <- or_raise IndexError (py_norm_index (length rows) atom) ;;
  row <- or_raise IndexError (nth_error rows n) ;;
  if Nat.ltb axis (length row)
  then Ret (Dict.set "position_text" (VRows (list_set rows n (list_set row axis tok))) m)
  else Raise IndexError.

(** One of the two [if] statements of the axis loop: when [test] holds,
    the coordinate is overwritten with [str(posn2[axis] + shift)]. *)
Definition shift_if (test : bool) (m : morphology) (moved : bool)
           (posn2 : list pyfloat) (atom : Z) (axis : nat) (shift : pyfloat)
  : effect bool :=
  if test then
    match nth_error posn2 axis with
    | None => (m, Raise IndexError)
    | Some p =>
        match set_position m atom axis (str_of_float (fadd p shift)) with
        | Ret m' => (m', Ret true)
        | Raise e => (m, Raise e)
        | OutOfFuel => (m, OutOfFuel)
        end
    end
  else (m, Ret moved).

(** [for axis, value in enumerate(delta_position)], from [axis] on. *)
Fixpoint shift_axes (axis : nat) (delta : list pyfloat) (posn2 box : list pyfloat)
         (atom : Z) (m : morphology) (moved : bool) : effect bool :=
  match delta with
  | [] => (m, Ret moved)
  | value :: delta' =>
      match nth_error box axis with
      | None => (m, Raise IndexError)
      | Some L =>
          match shift_if (fgtb value (fhalf L)) m moved posn2 atom axis L with
          | (m1, Ret moved1) =>
              match shift_if (fltb value (fhalf (fneg L))) m1 moved1
                             posn2 atom axis (fneg L) with
              | (m2, Ret moved2) => shift_axes (S axis) delta' posn2 box atom m2 moved2
              | stop => stop
              end
          | stop => stop
          end
      end
  end.

(** The body of the neighbour loop up to the recursive call: compare
    [bonded_atom] with [central_atom] and shift it where needed. *)
Definition relocate_neighbor (central : pyobj) (bonded : Z) (m : morphology)
           (box : list pyfloat) : effect bool :=
  match
    (posn1 <- position_of m central ;;
     posn2 <- position_of m (PInt bonded) ;;
     delta <- np_map2 fsub posn1 posn2 ;;
     Ret (posn2, delta))
  with
  | Ret (posn2, delta) => shift_axes 0 delta posn2 box bonded m false
  | Raise e => (m, Raise e)
  | OutOfFuel => (m, OutOfFuel)
  end.

(** [for bonded_atom in bond_dict[central_atom]]: compare, shift, and
    where the neighbour moved go on from it with [recur]. *)
Fixpoint each_neighbor (recur : Z -> morphology -> effect unit)
         (central : pyobj) (box : list pyfloat)
         (bonded_atoms : list Z) (m : morphology) : effect unit :=
  match bonded_atoms with
  | [] => (m, Ret tt)
  | bonded :: rest =>
      match relocate_neighbor central bonded m box with
      | (m1, Ret true) =>
          match recur bonded m1 with
          | (m2, Ret _) => each_neighbor recur central box rest m2
          | stop => stop
          end
      | (m1, Ret false) => each_neighbor recur central box rest m1
      | (m1, Raise e) => (m1, Raise e)
      | (m1, OutOfFuel) => (m1, OutOfFuel)
      end
  end.

(** [fuel] bounds the depth of the recursion below the entry call. *)
Fixpoint move_bonded_atoms (fuel : nat) (central : pyobj) (m : morphology)
         (bd : bond_dict) (box : list pyfloat) {struct fuel} : effect unit :=
  match bd_get central bd with
  | None => (m, Raise KeyError)
  | Some neighbours =>
      each_neighbor
        (fun bonded m1 =>
           match fuel with
           | O => (m1, OutOfFuel)
           | S fuel' => move_bonded_atoms fuel' (PInt bonded) m1 bd box
           end)
        central box neighbours m
  end.

(** *** [check_bonds] *)

(** One endpoint of a bond as [check_bonds] computes it: the position row
    read as floats.  The line that follows in the source, beginning with
    [+ (np.array(... image_text ...) * box_dims)], is a statement of its
    own: it is evaluated (and may raise) but its value is dropped. *)
Definition bond_endpoint (m : morphology) (box : list pyfloat) (tok : option string)
  : result (list pyfloat) :=
  rows <- get_rows "position_text" m ;;
  t <- or_raise IndexError tok ;;
  i <- to_int t ;;
  row <- or_raise IndexError (py_index rows i) ;;
  posn <- row_floats row ;;
  images <- get_rows "image_text" m ;;
  irow <- or_raise IndexError (py_index images i) ;;
  img <- row_floats irow ;;
  _ <- np_map2 fmul img box ;;
  Ret posn.

(** [any(out_of_range)] for one bond. *)
Definition bond_out_of_range (m : morphology) (bond : list string)
           (box : list pyfloat) : result bool :=
  posn1 <- bond_endpoint m box (py_index bond 1) ;;
  posn2 <- bond_endpoint m box (py_index bond 2) ;;
  delta <- np_map2 fsub posn1 posn2 ;;
  flags <- mapM (fun axis =>
                   d <- or_raise IndexError (nth_error delta axis) ;;
                   L <- or_raise IndexError (nth_error box axis) ;;
                   Ret (fgtb (fabs d) (fhalf L)))
                [0; 1; 2]%nat ;;
  Ret (existsb (fun b => b) flags).

Fixpoint check_bonds_from (fuel : nat) (bonds : list (list string))
         (m : morphology) (bd : bond_dict) (box : list pyfloat) : effect unit :=
  match bonds with
  | [] => (m, Ret tt)
  | bond :: rest =>
      match bond_out_of_range m bond box with
      | Ret true =>
          match py_index bond 1 with
          | None => (m, Raise IndexError)
          | Some tok =>
              match move_bonded_atoms fuel (PStr tok) m bd box with
              | (m', Ret _) => check_bonds_from fuel rest m' bd box
              | stop => stop
              end
          end
      | Ret false => check_bonds_from fuel rest m bd box
      | Raise e => (m, Raise e)
      | OutOfFuel => (m, OutOfFuel)
      end
  end.

Definition check_bonds (fuel : nat) (m : morphology) (bd : bond_dict)
           (box : list pyfloat) : effect unit :=
  match get_rows "bond_text" m with
  | Ret bonds => check_bonds_from fuel bonds m bd box
  | Raise e => (m, Raise e)
  | OutOfFuel => (m, OutOfFuel)
  end.

(** *** [check_wrapped_positions] *)

(** [while p > hi: p -= L; image += 1].  The image cell is [None] when the
    image array has no such entry: the first pass through the body then
    raises [IndexError]. *)
Fixpoint while_above (fuel : nat) (L hi p : pyfloat) (i : option Z)
  : result (pyfloat * option Z) :=
  if fgtb p hi then
    match i with
    | None => Raise IndexError
    | Some iv =>
        match fuel with
        | O => OutOfFuel
        | S fuel' => while_above fuel' L hi (fsub p L) (Some (iv + 1))
        end
    end
  else Ret (p, i).

(** [while p < lo: p += L; image -= 1] *)
Fixpoint while_below (fuel : nat) (L lo p : pyfloat) (i : option Z)
  : result (pyfloat * option Z) :=
  if fltb p lo then
    match i with
    | None => Raise IndexError
    | Some iv =>
        match fuel with
        | O => OutOfFuel
        | S fuel' => while_below fuel' L lo (fadd p L) (Some (iv - 1))
        end
    end
  else Ret (p, i).

Definition wrap_axis (fuel : nat) (L p : pyfloat) (i : option Z)
  : result (pyfloat * option Z) :=
  '(p1, i1) <- while_above fuel L (fhalf L) p i ;;
  while_below fuel L (fhalf (fneg L)) p1 i1.

Definition set_cell {A} (row : list A) (axis : nat) (c : option A) : list A :=
  match c with Some v => list_set row axis v | None => row end.

(** The six loops of one particle, axes x, y, z in turn.  The arrays are
    taken row by row: a row too short for an axis raises [IndexError]
    when that axis is read. *)
Fixpoint wrap_atom (fuel : nat) (axes : list nat) (box : list pyfloat)
         (prow : list pyfloat) (irow : list Z) : result (list pyfloat * list Z) :=
  match axes with
  | [] => Ret (prow, irow)
  | axis :: axes' =>
      L <- or_raise IndexError (nth_error box axis) ;;
      p <- or_raise IndexError (nth_error prow axis) ;;
      '(p', i') <- wrap_axis fuel L p (nth_error irow axis) ;;
      wrap_atom fuel axes' box (list_set prow axis p') (set_cell irow axis i')
  end.

(** [for atom_ID in range(len(atom_positions))]: the image rows that
    exist are paired with the position rows; a particle without an image
    row has no image cells. *)
Fixpoint wrap_atoms (fuel : nat) (box : list pyfloat)
         (positions : list (list pyfloat)) (images : list (list Z))
  : result (list (list pyfloat) * list (list Z)) :=
  match positions with
  | [] => Ret ([], images)
  | prow :: positions' =>
      match images with
      | [] =>
          '(prow', _) <- wrap_atom fuel [0; 1; 2]%nat box prow [] ;;
          '(ps, _) <- wrap_atoms fuel box positions' [] ;;
          Ret (prow' :: ps, [])
      | irow :: images' =>
          '(prow', irow') <- wrap_atom fuel [0; 1; 2]%nat box prow irow ;;
          '(ps, imgs) <- wrap_atoms fuel box positions' images' ;;
          Ret (prow' :: ps, irow' :: imgs)
      end
  end.

Definition check_wrapped_positions (fuel : nat) (input_dictionary : morphology)
  : result morphology :=
  box_dims <- read_box_dims input_dictionary ;;
  ptext <- get_rows "position_text" input_dictionary ;;
  atom_positions <- mapM row_floats ptext ;;
  itext <- get_rows "image_text" input_dictionary ;;
  atom_images <- mapM row_ints itext ;;
  '(positions, images) <- wrap_atoms fuel box_dims atom_positions atom_images ;;
  let d1 := Dict.set "position_text"
              (VRows (map (map str_of_float) positions)) input_dictionary in
  Ret (Dict.set "image_text" (VRows (map (map str_of_int) images)) d1).

(** *** [write_morphology_xml] *)

(** ['_'.join(key.split('_')[:-1])] *)
Definition tag_of_key (key : string) : string :=
  PyStr.join "_" (removelast (PyStr.split_on "_" key)).

Definition in_strings (s : string) (l : list string) : bool :=
  existsb (String.eqb s) l.

(** The loop that builds [child_tags]: first occurrences, blanks skipped. *)
Fixpoint dedup_tags (seen : list string) (tags : list string) : list string :=
  match tags with
  | [] => seen
  | tag :: tags' =>
      if negb (in_strings tag seen) && negb (PyStr.is_empty tag)
      then dedup_tags (seen ++ [tag])%list tags'
      else dedup_tags seen tags'
  end.

Definition child_tags_of (m : morphology) : list string :=
  dedup_tags []
    (filter (fun tag => negb (in_strings tag ["root"; "config"]))
            (map tag_of_key (Dict.keys m))).

(** [ET.Element(tag, **attrib)]: the keyword arguments have to come
    from a dictionary, and the keyword [attrib] is taken by [Element]
    itself and has to be a dictionary too. *)
Definition element_attrib (attrib : value) : result (list (string * string)) :=
  match attrib with
  | VDict a =>
      match Dict.get "attrib" a with
      | Some _ => Raise TypeError
      | None => Ret a
      end
  | _ => Raise TypeError
  end.

(** What [tree.write] accepts as a tag: a string. *)
Definition element_tag (v : value) : result string :=
  match v with VStr t => Ret t | _ => Raise TypeError end.

(** What [tree.write] makes of the text of the root and configuration
    elements: an empty text leaves no trace in the file. *)
Definition element_text (v : value) : result (option string) :=
  match v with
  | VStr s => Ret (if PyStr.is_empty s then None else Some s)
  | VNone => Ret None
  | VRows [] => Ret None
  | VDict [] => Ret None
  | _ => Raise TypeError
  end.

Definition write_child (m : morphology) (child_tag : string) : result element :=
  attrib <- or_raise KeyError (Dict.get (child_tag ++ "_attrib") m) ;;
  a <- element_attrib attrib ;;
  rows <- get_rows (child_tag ++ "_text") m ;;
  let data_to_write := PyStr.join nl (map (PyStr.join tab) rows) in
  let text := if PyStr.is_empty data_to_write then None
              else Some (nl ++ data_to_write ++ nl) in
  Ret (Element child_tag a text []).

Definition write_morphology_xml (fuel : nat) (morphology_dictionary : morphology)
  : result element :=
  m <- check_wrapped_positions fuel morphology_dictionary ;;
  root_tag <- or_raise KeyError (Dict.get "root_tag" m) ;;
  root_attrib <- or_raise KeyError (Dict.get "root_attrib" m) ;;
  rattrib <- element_attrib root_attrib ;;
  root_text <- or_raise KeyError (Dict.get "root_text" m) ;;
  config_tag <- or_raise KeyError (Dict.get "config_tag" m) ;;
  config_attrib <- or_raise KeyError (Dict.get "config_attrib" m) ;;
  cattrib <- element_attrib config_attrib ;;
  config_text <- or_raise KeyError (Dict.get "config_text" m) ;;
  children <- mapM (write_child m) (child_tags_of m) ;;
  rtag <- element_tag root_tag ;;
  rtext <- element_text root_text ;;
  ctag <- element_tag config_tag ;;
  ctext <- element_text config_text ;;
  Ret (Element rtag rattrib rtext [Element ctag cattrib ctext children]).

(** *** [fix_images] *)

(** The document, bond graph and box that [fix_images] hands to
    [check_bonds]. *)
Definition fix_images_scan_input (file : element)
  : result (morphology * bond_dict * list pyfloat) :=
  m <- zero_out_images (load_morphology_xml file) ;;
  bd <- get_bond_dict m ;;
  box_dims <- read_box_dims m ;;
  Ret (m, bd, box_dims).

Definition fix_images (fuel : nat) (file : element) : result element :=
  '(m, bd, box_dims) <- fix_images_scan_input file ;;
  match check_bonds fuel m bd box_dims with
  | (m', Ret _) => write_morphology_xml fuel m'
  | (_, Raise e) => Raise e
  | (_, OutOfFuel) => OutOfFuel
  end.

(** ** Reading a document *)





(** [position + image * L], the reconstructed true position. *)
Definition true_position (L p : pyfloat) (i : Z) : Q :=
  (Qof p + inject_Z i * Qof L)%Q.

(** [-L/2 <= p <= L/2] *)
Definition in_box (L p : pyfloat) : Prop :=
  (- (Qof L / 2) <= Qof p /\ Qof p <= Qof L / 2)%Q.

(** ** Example documents *)

(** A dictionary with one particle outside the box on the x axis, and
    what the wrapper makes of it. *)
Definition wrap_example : morphology :=
  [("box_attrib", VDict [("lx", "10.0"); ("ly", "10.0"); ("lz", "10.0")]);
   ("position_text", VRows [["16"; "0"; "-5.5"]]);
   ("image_text", VRows [["0"; "0"; "0"]])].

Definition wrap_example_out : morphology :=
  [("box_attrib", VDict [("lx", "10.0"); ("ly", "10.0"); ("lz", "10.0")]);
   ("position_text", VRows [["-4.0"; "0.0"; "4.5"]]);
   ("image_text", VRows [["2"; "0"; "-1"]])].

(** A file as the generator leaves it: a box, [positions], one type row
    per particle and [bonds]. *)
Definition section_of (tag : string) (num : nat) (rows : list (list string))
  : element :=
  Element tag [("num", str_of_int (Z.of_nat num))]
          (match rows with
           | [] => None
           | _ => Some (nl ++ PyStr.join nl (map (PyStr.join " ") rows) ++ nl)
           end) [].

Definition hoomd_file (positions bonds : list (list string)) : element :=
  Element "hoomd_xml" [("version", "1.5")] (Some nl)
    [Element "configuration" [("time_step", "0")] (Some nl)
       [Element "box" [("Lx", "10.0"); ("Ly", "10.0"); ("Lz", "10.0")] None [];
        section_of "position" (length positions) positions;
        section_of "type" (length positions) (map (fun _ => ["C"]) positions);
        section_of "bond" (length bonds) bonds]].

(** The end-to-end scenario: two bonded particles at [x = 4.9] and
    [x = -4.9] in a box of length 10. *)
Definition two_particle_file : element :=
  hoomd_file [["4.9"; "0"; "0"]; ["-4.9"; "0"; "0"]] [["polymer"; "0"; "1"]].

Definition ten : pyfloat := PyFloat 100 1.

Definition two_particle_doc : morphology :=
  Eval vm_compute in
    match fix_images_scan_input two_particle_file with
    | Ret (m, _, _) => m
    | _ => []
    end.

Definition two_particle_bonds : bond_dict := [(PInt 0, [1]); (PInt 1, [0])].

(** ** The scan as the specification words it *)




(** Particle 0 at [x = 4.9] bonded to particles 1 and 2, both on the
    other side of the boundary. *)
Definition star_file : element :=
  hoomd_file [["4.9"; "0"; "0"]; ["-4.9"; "0"; "0"]; ["-4.5"; "0"; "0"]]
             [["polymer"; "0"; "1"]; ["polymer"; "0"; "2"]].

Definition star_doc : morphology :=
  Eval vm_compute in
    match fix_images_scan_input star_file with
    | Ret (m, _, _) => m
    | _ => []
    end.


(** A bonded ring of four particles that closes through the periodic
    boundary: neighbours are 2.5 apart in a box of length 10, and the
    bond from particle 3 back to particle 0 spans the boundary. *)
Definition ring_file : element :=
  hoomd_file
    [["-3.75"; "0"; "0"]; ["-1.25"; "0"; "0"]; ["1.25"; "0"; "0"]; ["3.75"; "0"; "0"]]
    [["b"; "0"; "1"]; ["b"; "1"; "2"]; ["b"; "2"; "3"]; ["b"; "3"; "0"]].

Definition ring_doc : morphology :=
  Eval vm_compute in
    match fix_images_scan_input ring_file with
    | Ret (m, _, _) => m
    | _ => []
    end.

Definition ring_bonds : bond_dict :=
  Eval vm_compute in
    match fix_images_scan_input ring_file with
    | Ret (_, bd, _) => bd
    | _ => []
    end.


Definition no_file : element := Element "" [] None [].




(** Two bonded particles at [x = 4] and [x = 6] in a box of length 10:
    the second one lies outside the box as the file is read. *)
Definition straddling_file : element :=
  hoomd_file [["4"; "0"; "0"]; ["6"; "0"; "0"]] [["polymer"; "0"; "1"]].

Definition straddling_out : element :=
  Eval vm_compute in
    match fix_images 5 straddling_file with
    | Ret out => out
    | _ => no_file
    end.

Definition two_particle_out : element :=
  Eval vm_compute in
    match write_morphology_xml 5 two_particle_doc with
    | Ret out => out
    | _ => no_file
    end.

(** ** Predicates used in the statements and proofs *)

(** What a loop does to the image cell next to the coordinate. *)
Definition image_kept (L p : pyfloat) (i : option Z) (p' : pyfloat) (i' : option Z)
  : Prop :=
  match i with
  | Some iv => exists iv', i' = Some iv' /\ (true_position L p' iv' == true_position L p iv)%Q
  | None => i' = None /\ p' = p
  end.

(** A coordinate on which both loops of the wrapper stop at once. *)
Definition settled (L p : pyfloat) : Prop :=
  fgtb p (fhalf L) = false /\ fltb p (fhalf (fneg L)) = false.


(** A row whose three coordinates are inside the box. *)
Definition row_settled (box prow : list pyfloat) : Prop :=
  forall a, In a [0; 1; 2]%nat ->
    exists L p, nth_error box a = Some L /\ nth_error prow a = Some p /\ settled L p.

(** Two dictionaries that differ at most in their position rows. *)
Definition same_but_positions (m m' : morphology) : Prop :=
  Dict.keys m' = Dict.keys m
  /\ forall key, key <> "position_text"%string -> Dict.get key m' = Dict.get key m.

(** A bond graph all of whose keys are integers. *)
Definition int_keyed (bd : bond_dict) : Prop :=
  forall k v, In (k, v) bd -> exists i, k = PInt i.

(** A computation that does not depend on fuel. *)
Definition fuel_free {A} (r : result A) : Prop := r <> OutOfFuel.

(** What the two [if] statements of one axis leave in the row of the
    bonded particle: [d] is the anchor-minus-neighbour delta, [p] the
    neighbour's coordinate. *)
Definition row_step (L d p : pyfloat) (row : list string) (axis : nat)
  : list string :=
  let row1 := if fgtb d (fhalf L)
              then list_set row axis (str_of_float (fadd p L)) else row in
  if fltb d (fhalf (fneg L))
  then list_set row1 axis (str_of_float (fadd p (fneg L))) else row1.

Fixpoint shifted_row (axis : nat) (delta posn2 box : list pyfloat)
         (row : list string) : list string :=
  match delta with
  | [] => row
  | d :: delta' =>
      match nth_error box axis, nth_error posn2 axis with
      | Some L, Some p =>
          shifted_row (S axis) delta' posn2 box (row_step L d p row axis)
      | _, _ => row
      end
  end.

Fixpoint any_shift (axis : nat) (delta box : list pyfloat) : bool :=
  match delta with
  | [] => false
  | d :: delta' =>
      match nth_error box axis with
      | Some L =>
          fgtb d (fhalf L) || fltb d (fhalf (fneg L)) || any_shift (S axis) delta' box
      | None => false
      end
  end.


(** The dictionary with row [n] of the positions replaced. *)
Definition with_row (m : morphology) (rows : list (list string)) (n : nat)
           (row : list string) : morphology :=
  Dict.set "position_text" (VRows (list_set rows n row)) m.

(** Four particles on the x axis. *)
Definition ring_rows (t0 t1 t2 t3 : string) : list (list string) :=
  [[t0; "0"; "0"]; [t1; "0"; "0"]; [t2; "0"; "0"]; [t3; "0"; "0"]]%string.

(** Seen from the anchor [a]: the next particle of the ring is 7.5 behind
    (its bond spans the boundary), the one after it 5 behind, the
    previous one 2.5 behind. *)
Definition ring_gaps (a b c d : pyfloat) : Prop :=
  (Qof b == Qof a - (75 # 10) /\ Qof c == Qof a - 5 /\ Qof d == Qof a - (25 # 10))%Q.

(** The states of the ring the recursion passes through, the anchor being
    particle [anchor]. *)
Definition ring_state (anchor : nat) (m : morphology) : Prop :=
  exists t0 t1 t2 t3 x0 x1 x2 x3,
    get_rows "position_text" m = Ret (ring_rows t0 t1 t2 t3)
    /\ float_of_string t0 = Some x0 /\ float_of_string t1 = Some x1
    /\ float_of_string t2 = Some x2 /\ float_of_string t3 = Some x3
    /\ match anchor with
       | 0%nat => ring_gaps x0 x1 x2 x3
       | 1%nat => ring_gaps x1 x2 x3 x0
       | 2%nat => ring_gaps x2 x3 x0 x1
       | 3%nat => ring_gaps x3 x0 x1 x2
       | _ => False
       end.

(** A token as [str.split] produces it: not empty, no blank character. *)
Definition clean_token (t : string) : Prop :=
  PyStr.is_empty t = false
  /\ PyStr.all_chars (fun c => negb (PyStr.is_space c)) t = true.




(** The six entries the root and the configuration element are kept in. *)
Definition base_keys : list string :=
  ["root_tag"; "root_attrib"; "root_text";
   "config_tag"; "config_attrib"; "config_text"]%string.




Definition el_tag (e : element) : string :=
  let '(Element tag _ _ _) := e in tag.

Definition good_tag (t : string) : Prop :=
  t <> "root"%string /\ t <> "config"%string /\ t <> ""%string.

(** Attribute keys as the reader leaves them: distinct and lower-case. *)
Definition lowered (d : list (string * string)) : Prop :=
  NoDup (Dict.keys d) /\ Forall (fun k => PyStr.lower k = k) (Dict.keys d).

(** The text the writer gives a section with these rows. *)
Definition written_text (rows : list (list string)) : option string :=
  let data := PyStr.join nl (map (PyStr.join tab) rows) in
  if PyStr.is_empty data then None else Some (nl ++ data ++ nl)%string.

(** A section element as [write_child] builds it from the entries of
    [m]. *)
Definition written_child (m : morphology) (t : string) (child : element) : Prop :=
  exists a rows,
    Dict.get (t ++ "_attrib")%string m = Some (VDict a)
    /\ Dict.get (t ++ "_text")%string m = Some (VRows rows)
    /\ child = Element t a (written_text rows) [].


(** ** Proof support *)

(** [lra] reads [x / 2] as [x * (1 # 2)]. *)
Ltac qlra := unfold Qdiv in *; change (/ 2)%Q with (1 # 2)%Q in *; lra.

(** Rewriting with an equation whose indices are written [Z.of_nat n]. *)
Ltac rewrite_comparison H :=
  let Hr := fresh "Hr" in
  pose proof H as Hr;
  cbn [Z.of_nat Pos.of_succ_nat Pos.succ] in Hr;
  cbn [Z.of_nat Pos.of_succ_nat Pos.succ];
  rewrite Hr; clear Hr.

(** Closing a goal on the pair a recursive call returns. *)
Ltac finish_with_recursion Hrec Hst :=
  let Hr := fresh "Hr" in
  pose proof (Hrec _ _ Hst) as Hr;
  cbn [Z.of_nat Pos.of_succ_nat Pos.succ] in Hr;
  match type of Hr with
  | snd ?r = _ => destruct r as [? [?|?|]]; cbn [snd] in Hr; try discriminate
  end;
  reflexivity.

(** ** Vocabulary of the further properties

    What the statements about [get_bond_dict], [check_bonds],
    [move_bonded_atoms], [check_wrapped_positions],
    [load_morphology_xml] and [write_morphology_xml] are worded in. *)

(** *** The bond graph *)

(** The two particle indices a bond row names: [int(bond[1])] and
    [int(bond[2])]. *)
Definition bond_ends (bond : list string) : result (Z * Z) :=
  t1 <- or_raise IndexError (py_index bond 1) ;;
  i1 <- to_int t1 ;;
  t2 <- or_raise IndexError (py_index bond 2) ;;
  i2 <- to_int t2 ;;
  Ret (i1, i2).

(** What one bond between [a] and [b] appends to the list of particle
    [i], and the list the bonds leave for [i], in bond order. *)
Definition partners (i : Z) (ab : Z * Z) : list Z :=
  ((if (fst ab =? i)%Z then [snd ab] else [])
     ++ (if (snd ab =? i)%Z then [fst ab] else []))%list.

Definition neighbours_of (i : Z) (ends : list (Z * Z)) : list Z :=
  flat_map (partners i) ends.

(** Both indices of a bond are particle indices: [0 <= i < n]. *)
Definition ends_known (n : nat) (ab : Z * Z) : Prop :=
  (0 <= fst ab < Z.of_nat n)%Z /\ (0 <= snd ab < Z.of_nat n)%Z.

(** The graph after the bonds [ends]: every list grown by the partners
    the bonds name, no key added. *)
Definition grown (ends : list (Z * Z)) (d d' : bond_dict) : Prop :=
  forall k, bd_get k d'
            = match bd_get k d, k with
              | Some l, PInt i => Some (l ++ neighbours_of i ends)%list
              | other, _ => other
              end.

(** *** The scan *)

(** Two float arrays that are each other's negative, entry by entry. *)
Definition negated (d d' : list pyfloat) : Prop :=
  Forall2 (fun x x' => (Qof x' == - Qof x)%Q) d d'.

(** The three flags of a bond, from the delta of its endpoints. *)
Definition axis_flags (delta box : list pyfloat) : result (list bool) :=
  mapM (fun axis =>
          d <- or_raise IndexError (nth_error delta axis) ;;
          L <- or_raise IndexError (nth_error box axis) ;;
          Ret (fgtb (fabs d) (fhalf L)))
       [0; 1; 2]%nat.

(** *** The wrapper *)

(** Two arrays with as many rows, and as many cells in each row. *)
Definition same_shape {A B} (rows : list (list A)) (rows' : list (list B)) : Prop :=
  Forall2 (fun r r' => length r' = length r) rows rows'.

(** *** A relocation step *)



(** *** The file a dictionary is read from *)

Definition el_attrib (e : element) : list (string * string) :=
  let '(Element _ a _ _) := e in a.

Definition el_text (e : element) : option string :=
  let '(Element _ _ t _) := e in t.

(** The section elements of a file: the children of the children of the
    root, in document order. *)
Definition sections (file : element) : list element :=
  flat_map el_children (el_children file).

(** The last of the elements that carry the tag. *)
Definition last_section (tag : string) (children : list element) : option element :=
  find (fun c => String.eqb (el_tag c) tag) (rev children).

(** The value of the last attribute whose name is [k] in lower case. *)
Definition last_attribute (k : string) (a : list (string * string)) : option string :=
  option_map snd (find (fun kv => String.eqb (PyStr.lower (fst kv)) k) (rev a)).

(** *** The writer *)

(** The entries [write_morphology_xml] reads whatever the sections are. *)
Definition written_keys : list string :=
  (base_keys ++ ["box_attrib"; "box_text"; "position_attrib"; "position_text";
                 "image_attrib"; "image_text"])%list.

(** ** The argument types of the command line ([main]) *)

(** [s[:-1]] and [s[1:-1]]. *)
Fixpoint drop_last (s : string) : string :=
  match s with
  | EmptyString => EmptyString
  | String c EmptyString => EmptyString
  | String c rest => String c (drop_last rest)
  end.

Definition slice_inner (s : string) : string :=
  match s with
  | EmptyString => EmptyString
  | String _ rest => drop_last rest
  end.

(** [s.strip()], which [float()] and [int()] apply to their argument. *)
Fixpoint lstrip (s : string) : string :=
  match s with
  | EmptyString => EmptyString
  | String c rest => if PyStr.is_space c then lstrip rest else s
  end.

Fixpoint rstrip (s : string) : string :=
  match s with
  | EmptyString => EmptyString
  | String c rest =>
      let rest' := rstrip rest in
      if PyStr.is_space c && PyStr.is_empty rest' then EmptyString else String c rest'
  end.

Definition strip (s : string) : string := rstrip (lstrip s).

(** [float(s)] and [int(s)] on a string that may carry blanks around the
    literal. *)
Definition py_float (s : string) : result pyfloat :=
  or_raise ValueError (float_of_string (strip s)).

Definition py_int (s : string) : result Z :=
  or_raise ValueError (int_of_string (strip s)).

Definition nonempty (s : string) : bool := negb (PyStr.is_empty s).

(** [s.split(sep)[0]] for a separator of any length: the text before the
    first occurrence of [sep]. *)
Fixpoint before_first (sep s : string) : string :=
  if String.prefix sep s then EmptyString
  else match s with
       | EmptyString => EmptyString
       | String c rest => String c (before_first sep rest)
       end.

(** One item of the dictionary comprehension of [--stoichiometry]:
    [for [key, val] in ...] unpacks a list of exactly two strings, the
    item is [str(key[1:-1]): float(val)]. *)
Definition stoichiometry_item (d : list (string * pyfloat)) (splitChar : list string)
  : result (list (string * pyfloat)) :=
  match splitChar with
  | [key; val] => v <- py_float val ;; Ret (Dict.set (slice_inner key) v d)
  | _ => Raise ValueError
  end.

(** The [type] of [--stoichiometry]. *)
Definition stoichiometry_type (s : string) : result (list (string * pyfloat)) :=
  let cells := filter nonempty (PyStr.split_on "," (slice_inner s)) in
  let split_cells :=
    filter (fun splitChar => Nat.ltb 0 (length splitChar))
           (map (PyStr.split_on ":") cells) in
  fold_left (fun acc splitChar => d <- acc ;; stoichiometry_item d splitChar)
            split_cells (Ret []).

(** The [type] of [--dimensions]:
    [[int(dim) for dim in d.split('x') if len(dim) > 0]]. *)
Definition dimensions_type (d : string) : result (list Z) :=
  mapM py_int (filter nonempty (PyStr.split_on "x" d)).

(** The [type] of [--forcefield]: [f.split('.xml')[0]]. *)
Definition forcefield_type (f : string) : string := before_first ".xml" f.

(** A string without comma and colon. *)
Definition plain (s : string) : Prop :=
  PyStr.all_chars (fun c => negb (Ascii.eqb c ",")) s = true
  /\ PyStr.all_chars (fun c => negb (Ascii.eqb c ":")) s = true.

(** A stoichiometry written without blanks, [{'Mo':1,'V':0.3}], and with
    the blanks of the help text, [{'Mo': 1, 'V': 0.3}]. *)
Definition compact_cell (kv : string * string) : string :=
  "'" ++ fst kv ++ "':" ++ snd kv.

Definition spaced_cell (kv : string * string) : string :=
  "'" ++ fst kv ++ "': " ++ snd kv.

Definition written_compact (entries : list (string * string)) : string :=
  "{" ++ PyStr.join "," (map compact_cell entries) ++ "}".

Definition written_spaced (entries : list (string * string)) : string :=
  "{" ++ PyStr.join ", " (map spaced_cell entries) ++ "}".

(** The dictionary with these items, assigned in turn. *)
Definition dict_of {V} (items : list (string * V)) : list (string * V) :=
  fold_left (fun d kv => Dict.set (fst kv) (snd kv) d) items [].

(** The keys the spaced form is read with: the first as written, the
    others with the quote that opens them. *)
Definition spaced_keys (keys : list string) : list string :=
  match keys with
  | [] => []
  | k :: rest => k :: map (fun k' => "'" ++ k') rest
  end.

(** The text of one cell: the key text, a colon, the value text. *)
Definition cell_text (item : string * string * pyfloat) : string :=
  fst (fst item) ++ ":" ++ snd (fst item).

(** *** The stoichiometry *)

Definition good_item (item : string * string * pyfloat) : Prop :=
  plain (fst (fst item)) /\ plain (snd (fst item))
  /\ py_float (snd (fst item)) = Ret (snd item).

(** ** [create_output_file_name] *)

(** The values an argument of the command line can hold: what the
    [type] functions and the defaults of the parser produce, and the
    values of [defaults_dict]. *)
Inductive number := NInt (z : Z) | NFloat (x : pyfloat).

Inductive argval :=
| ANone
| ABool (b : bool)
| ANum (n : number)
| AStr (s : string)
| AInts (l : list Z)
| ADict (d : list (string * number)).

(** The exceptions of this part, and a computation that may raise one. *)
Inductive cli_exn := CliKeyError | CliAttributeError | CliTypeError | CliIndexError.

Inductive outcome (A : Type) :=
| Done (a : A)
| Fails (e : cli_exn).

Arguments Done {A} a.
Arguments Fails {A} e.

Definition number_value (n : number) : pyfloat :=
  match n with NInt z => of_int z | NFloat x => x end.

Definition str_of_number (n : number) : string :=
  match n with NInt z => str_of_int z | NFloat x => str_of_float x end.

(** [x == y] on numbers: an [int] and a [float] of the same value are
    equal. *)
Definition feqb (x y : pyfloat) : bool := negb (fgtb x y) && negb (fltb x y).

Definition number_eqb (a b : number) : bool := feqb (number_value a) (number_value b).

Fixpoint ints_eqb (a b : list Z) : bool :=
  match a, b with
  | [], [] => true
  | x :: a', y :: b' => (x =? y)%Z && ints_eqb a' b'
  | _, _ => false
  end.

(** Two dictionaries are equal when they hold the same keys with equal
    values, in any order. *)
Definition dict_eqb (a b : list (string * number)) : bool :=
  Nat.eqb (length a) (length b)
  && forallb (fun kv => match Dict.get (fst kv) b with
                        | Some v => number_eqb (snd kv) v
                        | None => false
                        end) a.

(** A [bool] counts as the number 0 or 1. *)
Definition as_number (v : argval) : option number :=
  match v with
  | ABool b => Some (NInt (if b then 1 else 0))
  | ANum n => Some n
  | _ => None
  end.

(** [a == b] *)
Definition py_eq (a b : argval) : bool :=
  match as_number a, as_number b with
  | Some x, Some y => number_eqb x y
  | Some _, None | None, Some _ => false
  | None, None =>
      match a, b with
      | ANone, ANone => true
      | AStr s, AStr t => String.eqb s t
      | AInts l, AInts l' => ints_eqb l l'
      | ADict d, ADict d' => dict_eqb d d'
      | _, _ => false
      end
  end.

Definition defaults_dict : list (string * argval) :=
  [("stoichiometry",
    ADict [("Mo", NInt 1); ("V", NFloat (PyFloat 3 1));
           ("Nb", NFloat (PyFloat 15 2)); ("Te", NFloat (PyFloat 15 2))]);
   ("dimensions", AInts [1; 1; 1]%Z);
   ("template", AStr "templateM1.pdb");
   ("organic", AStr "ethane.pdb");
   ("crystal_separation", ANum (NFloat (PyFloat 250 1)));
   ("z_box_size", ANum (NFloat (PyFloat 200 1)));
   ("bonds_periodic", ABool true);
   ("number_of_organic_mols", ANum (NInt 200));
   ("forcefield", ANone)].

(** [repr(s)] of a string, for the text of a dictionary: single quotes
    unless the string holds one and no double quote; the quote and the
    backslash escaped, control characters and the unprintable ones
    written as escapes. *)
Definition double_quote : ascii := "034"%char.

Definition hex_digit (n : Z) : ascii :=
  if (n <? 10)%Z then digit_char n else ascii_of_N (Z.to_N (87 + n)).

Definition has_char (c : ascii) (s : string) : bool :=
  negb (PyStr.all_chars (fun x => negb (Ascii.eqb x c)) s).

Definition repr_char (quote c : ascii) : string :=
  let n := PyStr.code c in
  if Ascii.eqb c quote || Ascii.eqb c "\"%char then String "\"%char (String c "")
  else if (n =? 9)%Z then "\t"
  else if (n =? 10)%Z then "\n"
  else if (n =? 13)%Z then "\r"
  else if (n <? 32)%Z || ((127 <=? n)%Z && (n <=? 160)%Z) || (n =? 173)%Z
       then "\x" ++ String (hex_digit (n / 16)) (String (hex_digit (n mod 16)) "")
  else String c "".

Fixpoint repr_chars (quote : ascii) (s : string) : string :=
  match s with
  | EmptyString => EmptyString
  | String c rest => repr_char quote c ++ repr_chars quote rest
  end.

Definition repr_str (s : string) : string :=
  let quote := if has_char "'" s && negb (has_char double_quote s)
               then double_quote else "'"%char in
  String quote (repr_chars quote s ++ String quote "").

(** [str(arg_val)] *)
Definition py_str (v : argval) : string :=
  match v with
  | ANone => "None"
  | ABool true => "True"
  | ABool false => "False"
  | ANum n => str_of_number n
  | AStr s => s
  | AInts l => "[" ++ PyStr.join ", " (map str_of_int l) ++ "]"
  | ADict d =>
      "{" ++ PyStr.join ", "
               (map (fun kv => repr_str (fst kv) ++ ": " ++ str_of_number (snd kv)) d)
          ++ "}"
  end.

(** [c.upper()] for the letters a to z; the names that reach
    [arg_name[0].upper()] are keys of [defaults_dict]. *)
Definition upper_char (c : ascii) : ascii :=
  let n := PyStr.code c in
  if (97 <=? n)%Z && (n <=? 122)%Z then ascii_of_N (Z.to_N (n - 32)) else c.

(** [arg_name[0].upper()] *)
Definition upper_initial (arg_name : string) : outcome string :=
  match arg_name with
  | EmptyString => Fails CliIndexError
  | String c _ => Done (String (upper_char c) "")
  end.

(** The characters of a string, as [map(str, s)] walks them. *)
Fixpoint chars (s : string) : list string :=
  match s with
  | EmptyString => []
  | String c rest => String c "" :: chars rest
  end.

(** [template.split('/')[-1].split('.')[0]] *)
Definition template_stem (template : string) : string :=
  hd "" (PyStr.split_on "." (last (PyStr.split_on "/" template) "")).

(** One turn of the loop: the name after this argument. *)
Definition add_argument (output_file : string) (arg : string * argval) : outcome string :=
  let (arg_name, arg_val) := arg in
  match Dict.get arg_name defaults_dict with
  | None => Fails CliKeyError
  | Some default =>
      if py_eq arg_val default then Done output_file
      else
        let output_file := output_file ++ "_" in
        if String.eqb arg_name "stoichiometry" then
          match arg_val with
          | ADict d =>
              Done (fold_left (fun out kv => out ++ fst kv ++ str_of_number (snd kv))
                              d (output_file ++ "S"))
          | _ => Fails CliAttributeError
          end
        else if String.eqb arg_name "dimensions" then
          match arg_val with
          | AInts l => Done (output_file ++ "D" ++ PyStr.join "x" (map str_of_int l))
          | AStr s => Done (output_file ++ "D" ++ PyStr.join "x" (chars s))
          | ADict d => Done (output_file ++ "D" ++ PyStr.join "x" (map fst d))
          | _ => Fails CliTypeError
          end
        else if String.eqb arg_name "template" then
          match arg_val with
          | AStr s => Done (output_file ++ "T" ++ template_stem s)
          | _ => Fails CliAttributeError
          end
        else
          match upper_initial arg_name with
          | Fails e => Fails e
          | Done initial =>
              match arg_val with
              | ABool false => Done (output_file ++ initial ++ "Off")
              | ABool true => Done (output_file ++ initial ++ "On")
              | _ => Done (output_file ++ initial ++ py_str arg_val)
              end
          end
  end.

(** [sorted(args._get_kwargs())]: the pairs in ascending order of their
    names.  The names are the attributes of one namespace, hence
    distinct, and the values are never compared. *)
Fixpoint insert_arg (a : string * argval) (l : list (string * argval))
  : list (string * argval) :=
  match l with
  | [] => [a]
  | b :: l' => if String.leb (fst a) (fst b) then a :: l else b :: insert_arg a l'
  end.

Definition sorted_args (l : list (string * argval)) : list (string * argval) :=
  fold_right insert_arg [] l.

Fixpoint add_arguments (output_file : string) (args : list (string * argval))
  : outcome string :=
  match args with
  | [] => Done output_file
  | arg :: rest =>
      match add_argument output_file arg with
      | Done output_file' => add_arguments output_file' rest
      | Fails e => Fails e
      end
  end.

Definition create_output_file_name (args : list (string * argval)) (file_type : string)
  : outcome string :=
  match add_arguments "out" (sorted_args args) with
  | Done output_file => Done (output_file ++ "." ++ file_type)
  | Fails e => Fails e
  end.

(** The namespace [main] hands over when no option is given. *)
Definition parser_defaults : list (string * argval) :=
  [("stoichiometry",
    ADict [("Mo", NInt 1); ("V", NFloat (PyFloat 3 1));
           ("Nb", NFloat (PyFloat 15 2)); ("Te", NFloat (PyFloat 15 2))]);
   ("dimensions", AInts [1; 1; 1]%Z);
   ("template", AStr "M1UnitCell.pdb");
   ("crystal_separation", ANum (NFloat (PyFloat 250 1)));
   ("z_box_size", ANum (NFloat (PyFloat 200 1)));
   ("organic", AStr "ethane.pdb");
   ("number_of_organic_mols", ANum (NInt 200));
   ("forcefield", ANone)].

(** An argument that holds its default. *)
Definition is_default (arg : string * argval) : Prop :=
  exists default, Dict.get (fst arg) defaults_dict = Some default
                  /\ py_eq (snd arg) default = true.

(** The arguments with another template. *)
Definition with_template (template : string) (args : list (string * argval))
  : list (string * argval) :=
  map (fun arg => if String.eqb (fst arg) "template" then (fst arg, AStr template) else arg)
      args.

Definition without (c : ascii) (s : string) : Prop :=
  PyStr.all_chars (fun x => negb (Ascii.eqb x c)) s = true.

(** ** [m1_surface]

    The surface is assembled by calls into the [mbuild] library, which
    is outside this development: the model records the calls in the
    order the constructor makes them and takes each of them to return.
    A unit cell is named by the three repeat counters it is created
    at. *)

Definition x_extent : pyfloat := PyFloat 2148490 6.
Definition y_extent : pyfloat := PyFloat 2664721 6.
Definition z_extent : pyfloat := PyFloat 400321 6.

Definition unit_cell : Type := (Z * Z * Z)%type.

Inductive call :=
| NewCell (c : unit_cell)
| Translate (c : unit_cell) (shift : list pyfloat)
| AddCell (c : unit_cell)
| AddBond (cell1 : unit_cell) (atom1 : Z) (cell2 : unit_cell) (atom2 : Z).

(** A stretch of the constructor: the calls it made, and how it ended. *)
Definition built (A : Type) : Type := (list call * result A)%type.

Definition and_then {A B} (c : built A) (k : A -> built B) : built B :=
  match c with
  | (calls, Ret a) => let (calls', r) := k a in ((calls ++ calls')%list, r)
  | (calls, Raise e) => (calls, Raise e)
  | (calls, OutOfFuel) => (calls, OutOfFuel)
  end.

(** A [for] loop whose body reads and updates the local variables [s]. *)
Fixpoint for_each {S A} (body : S -> A -> built S) (s : S) (l : list A) : built S :=
  match l with
  | [] => ([], Ret s)
  | a :: l' => and_then (body s a) (fun s' => for_each body s' l')
  end.

(** [range(n)] and [enumerate(l)]. *)
Definition py_range (n : Z) : list Z := map Z.of_nat (seq 0 (Z.to_nat n)).

Definition enumerate {A} (l : list A) : list (Z * A) :=
  combine (map Z.of_nat (seq 0 (length l))) l.

(** [surface_dimensions[k]] *)
Definition dimension (surface_dimensions : list Z) (k : Z) : built Z :=
  ([], or_raise IndexError (py_index surface_dimensions k)).

Definition add_x_connecting_bonds (cell1 cell2 : unit_cell) : list call :=
  [AddBond cell1 60 cell2 21; AddBond cell1 137 cell2 13; AddBond cell1 134 cell2 16;
   AddBond cell1 122 cell2 16; AddBond cell1 19 cell2 119; AddBond cell1 66 cell2 33;
   AddBond cell1 18 cell2 65].

Definition add_y_connecting_bonds (cell1 cell2 : unit_cell) : list call :=
  [AddBond cell1 72 cell2 27; AddBond cell1 1 cell2 58; AddBond cell1 1 cell2 73;
   AddBond cell1 4 cell2 123; AddBond cell1 4 cell2 141; AddBond cell1 6 cell2 141;
   AddBond cell1 6 cell2 156; AddBond cell1 114 cell2 12; AddBond cell1 159 cell2 12].

Definition add_diagonal_connecting_bonds (cell1 cell2 : unit_cell) : list call :=
  [AddBond cell1 61 cell2 21].

(** The inner loop: one cell of the row. *)
Definition add_cell (y_repeat z_repeat : Z) (state : list unit_cell * option unit_cell)
           (x_repeat : Z) : built (list unit_cell * option unit_cell) :=
  let (current_row, previous_cell) := state in
  let current_cell : unit_cell := (x_repeat, y_repeat, z_repeat) in
  (([NewCell current_cell;
     Translate current_cell [fmul (of_int x_repeat) x_extent;
                             fmul (of_int y_repeat) y_extent;
                             fmul (of_int z_repeat) z_extent];
     AddCell current_cell]
      ++ match previous_cell with
         | Some previous => add_x_connecting_bonds previous current_cell
         | None => []
         end)%list,
   Ret ((current_row ++ [current_cell])%list, Some current_cell)).

(** [for cell_ID, current_cell_y in enumerate(current_row)] *)
Definition join_to_previous_row (previous_row : list unit_cell) (_ : unit)
           (item : Z * unit_cell) : built unit :=
  let (cell_ID, current_cell_y) := item in
  match py_index previous_row cell_ID with
  | Some previous_cell_y =>
      (add_y_connecting_bonds previous_cell_y current_cell_y, Ret tt)
  | None => ([], Raise IndexError)
  end.

(** The middle loop: one row of the layer. *)
Definition add_row (surface_dimensions : list Z) (z_repeat : Z)
           (state : list (list unit_cell) * option (list unit_cell)) (y_repeat : Z)
  : built (list (list unit_cell) * option (list unit_cell)) :=
  let (complete_cell_matrix, previous_row) := state in
  and_then (dimension surface_dimensions 0) (fun dim0 =>
  and_then (for_each (add_cell y_repeat z_repeat) ([], None) (py_range dim0))
           (fun row_state =>
  let current_row := fst row_state in
  and_then (match previous_row with
            | Some previous =>
                for_each (join_to_previous_row previous) tt (enumerate current_row)
            | None => ([], Ret tt)
            end) (fun _ =>
  ([], Ret ((complete_cell_matrix ++ [current_row])%list, Some current_row))))).

(** The body of the two loops over [y_coord] and [x_coord]. *)
Definition add_diagonal (surface_dimensions : list Z)
           (complete_cell_matrix : list (list unit_cell)) (y_coord : Z) (_ : unit)
           (x_coord : Z) : built unit :=
  and_then (dimension surface_dimensions 0) (fun dim0 =>
  if negb (x_coord + 1 <? dim0)%Z then ([], Ret tt) else
  and_then (dimension surface_dimensions 1) (fun dim1 =>
  if negb (y_coord + 1 <? dim1)%Z then ([], Ret tt) else
  match
    (row1 <- or_raise IndexError (py_index complete_cell_matrix x_coord) ;;
     first_cell <- or_raise IndexError (py_index row1 y_coord) ;;
     row2 <- or_raise IndexError (py_index complete_cell_matrix (x_coord + 1)%Z) ;;
     second_cell <- or_raise IndexError (py_index row2 (y_coord + 1)%Z) ;;
     Ret (first_cell, second_cell))
  with
  | Ret (first_cell, second_cell) =>
      (add_diagonal_connecting_bonds first_cell second_cell, Ret tt)
  | Raise e => ([], Raise e)
  | OutOfFuel => ([], OutOfFuel)
  end)).

Definition add_diagonals (surface_dimensions : list Z)
           (complete_cell_matrix : list (list unit_cell)) (_ : unit) (y_coord : Z)
  : built unit :=
  and_then (dimension surface_dimensions 0) (fun dim0 =>
  for_each (add_diagonal surface_dimensions complete_cell_matrix y_coord) tt
           (py_range dim0)).

(** The outer loop: one layer. *)
Definition add_layer (surface_dimensions : list Z) (_ : unit) (z_repeat : Z)
  : built unit :=
  and_then (dimension surface_dimensions 1) (fun dim1 =>
  and_then (for_each (add_row surface_dimensions z_repeat) ([], None) (py_range dim1))
           (fun layer_state =>
  let complete_cell_matrix := fst layer_state in
  and_then (dimension surface_dimensions 1) (fun dim1' =>
  for_each (add_diagonals surface_dimensions complete_cell_matrix) tt
           (py_range dim1')))).

(** [m1_surface.__init__] *)
Definition m1_surface (surface_dimensions : list Z) : built unit :=
  and_then (dimension surface_dimensions 2) (fun dim2 =>
  for_each (add_layer surface_dimensions) tt (py_range dim2)).

(** The layer of a cell, and a call that joins no cells of two layers. *)
Definition layer (c : unit_cell) : Z := snd c.

Definition within_a_layer (c : call) : Prop :=
  match c with
  | AddBond cell1 _ cell2 _ => layer cell1 = layer cell2
  | _ => True
  end.

(** The row and the matrix of cells the loops build. *)
Definition row_of (dim0 y z : Z) : list unit_cell := map (fun x => (x, y, z)) (py_range dim0).

Definition matrix_of (dim0 dim1 z : Z) : list (list unit_cell) :=
  map (fun y => row_of dim0 y z) (py_range dim1).

(** *** Bonds stay inside a layer *)

Definition in_layer (z : Z) (cells : list unit_cell) : Prop :=
  Forall (fun c => layer c = z) cells.


(** * Properties *)

(** ** Exact decimal arithmetic *)

Module PyNumFacts.

Local Open Scope Q_scope.

Lemma pow10_pos n : (0 < pow10 n)%Z.
Proof. unfold pow10. apply Z.pow_pos_nonneg; lia. Qed.

Lemma pow10_add a b : pow10 (a + b) = (pow10 a * pow10 b)%Z.
Proof. unfold pow10. rewrite Nat2Z.inj_add, Z.pow_add_r; lia. Qed.

Lemma pow10_S n : pow10 (S n) = (10 * pow10 n)%Z.
Proof. unfold pow10. rewrite Nat2Z.inj_succ, Z.pow_succ_r; lia. Qed.

Lemma Qof_num_den x :
  Qof x == inject_Z (mant x) / inject_Z (pow10 (scale x)).
Proof. reflexivity. Qed.

Lemma inject_pow10_nonzero n : ~ inject_Z (pow10 n) == 0.
Proof.
  intro H. pose proof (pow10_pos n) as Hp.
  unfold Qeq in H. simpl in H. lia.
Qed.

Lemma Qof_fadd x y : Qof (fadd x y) == Qof x + Qof y.
Proof.
  unfold Qof, fadd; simpl.
  rewrite pow10_add, inject_Z_plus, !inject_Z_mult.
  field. split; apply inject_pow10_nonzero.
Qed.

Lemma Qof_fneg x : Qof (fneg x) == - Qof x.
Proof.
  unfold Qof, fneg; simpl. rewrite inject_Z_opp.
  field. apply inject_pow10_nonzero.
Qed.

Lemma Qof_fsub x y : Qof (fsub x y) == Qof x - Qof y.
Proof. unfold fsub. rewrite Qof_fadd, Qof_fneg. ring. Qed.

Lemma Qof_fhalf x : Qof (fhalf x) == Qof x / 2.
Proof.
  unfold Qof, fhalf; simpl. rewrite pow10_S, !inject_Z_mult.
  field. apply inject_pow10_nonzero.
Qed.

Lemma Qof_make x : Qof x == Qmake (mant x) (Z.to_pos (pow10 (scale x))).
Proof.
  unfold Qof. rewrite (Qmake_Qdiv (mant x)).
  rewrite Z2Pos.id by apply pow10_pos. reflexivity.
Qed.

Lemma Qof_fabs x : Qof (fabs x) == Qabs (Qof x).
Proof. rewrite !Qof_make. reflexivity. Qed.

Lemma fgtb_spec x y : fgtb x y = true <-> Qof y < Qof x.
Proof.
  rewrite !Qof_make. unfold fgtb, Qlt; simpl.
  rewrite !Z2Pos.id by apply pow10_pos.
  apply Z.ltb_lt.
Qed.

Lemma fgtb_false x y : fgtb x y = false <-> Qof x <= Qof y.
Proof.
  rewrite <- Bool.not_true_iff_false, fgtb_spec.
  split; [apply Qnot_lt_le | apply Qle_not_lt].
Qed.

Lemma fltb_spec x y : fltb x y = true <-> Qof x < Qof y.
Proof. apply fgtb_spec. Qed.

Lemma fltb_false x y : fltb x y = false <-> Qof y <= Qof x.
Proof. apply fgtb_false. Qed.

End PyNumFacts.

(** ** Strings: [split] and [join] *)

Module PyStrFacts.

Import PyStr.
Local Open Scope string_scope.

Lemma app_nil_r s : s ++ "" = s.
Proof. induction s; simpl; congruence. Qed.

Lemma app_assoc s t u : (s ++ t) ++ u = s ++ (t ++ u).
Proof. induction s; simpl; congruence. Qed.

Lemma length_app s t : String.length (s ++ t) = (String.length s + String.length t)%nat.
Proof. induction s; simpl; congruence. Qed.

Lemma snoc_app cur c s : snoc cur c ++ s = cur ++ String c s.
Proof. unfold snoc. now rewrite app_assoc. Qed.

Lemma is_empty_true s : is_empty s = true <-> s = "".
Proof. destruct s; simpl; split; congruence. Qed.

Lemma is_empty_app s t : is_empty (s ++ t) = is_empty s && is_empty t.
Proof. destruct s; reflexivity. Qed.

Lemma all_chars_app p s t : all_chars p (s ++ t) = all_chars p s && all_chars p t.
Proof.
  induction s as [|c s IH]; simpl; [reflexivity|].
  now rewrite IH, andb_assoc.
Qed.

Lemma all_chars_impl (p q : ascii -> bool) s :
  (forall c, p c = true -> q c = true) -> all_chars p s = true -> all_chars q s = true.
Proof.
  intros Hpq. induction s as [|c s IH]; simpl; [reflexivity|].
  rewrite !andb_true_iff. intros [Hc Hs]. auto.
Qed.

(** A string without the separator is one field. *)
Lemma split_on_aux_nosep sep cur s :
  all_chars (fun c => negb (Ascii.eqb c sep)) s = true ->
  split_on_aux sep cur s = [cur ++ s].
Proof.
  revert cur. induction s as [|c s IH]; simpl; intros cur H.
  - now rewrite app_nil_r.
  - apply andb_true_iff in H as [Hc Hs].
    apply negb_true_iff in Hc. rewrite Hc.
    rewrite IH by assumption. now rewrite snoc_app.
Qed.

Lemma split_on_aux_app sep cur a b :
  all_chars (fun c => negb (Ascii.eqb c sep)) a = true ->
  split_on_aux sep cur (a ++ String sep b) = (cur ++ a) :: split_on_aux sep "" b.
Proof.
  revert cur. induction a as [|c a IH]; simpl; intros cur H.
  - now rewrite Ascii.eqb_refl, app_nil_r.
  - apply andb_true_iff in H as [Hc Hs].
    apply negb_true_iff in Hc. rewrite Hc.
    rewrite IH by assumption. now rewrite snoc_app.
Qed.

Lemma split_on_aux_nonnil sep cur s : split_on_aux sep cur s <> [].
Proof.
  revert cur. induction s as [|c s IH]; simpl; intros cur; [discriminate|].
  destruct (Ascii.eqb c sep); [discriminate | apply IH].
Qed.

(** [sep.join(s.split(sep)) == s] *)
Lemma join_split_on_aux sep cur s :
  join (String sep "") (split_on_aux sep cur s) = cur ++ s.
Proof.
  revert cur. induction s as [|c s IH]; simpl; intros cur.
  - now rewrite app_nil_r.
  - destruct (Ascii.eqb_spec c sep) as [->|Hne].
    + specialize (IH ""). simpl in IH.
      unfold join in *. simpl.
      destruct (split_on_aux sep "" s) eqn:E.
      * now apply split_on_aux_nonnil in E.
      * rewrite IH. reflexivity.
    + rewrite IH. now rewrite snoc_app.
Qed.


End PyStrFacts.

(** ** [str] and [float]/[int] are inverse on what [str] prints *)

Module PyPrintFacts.

Import PyStr PyStrFacts PyNumFacts.
Local Open Scope string_scope.
Local Open Scope Z_scope.

Lemma digit_cases d : 0 <= d < 10 ->
  d = 0 \/ d = 1 \/ d = 2 \/ d = 3 \/ d = 4 \/ d = 5 \/ d = 6 \/ d = 7 \/ d = 8 \/ d = 9.
Proof. lia. Qed.

Lemma digit_of_digit_char d : 0 <= d < 10 -> digit_of (digit_char d) = Some d.
Proof.
  intros H. destruct (digit_cases d H) as [->|[->|[->|[->|[->|[->|[->|[->|[->| ->]]]]]]]]];
    reflexivity.
Qed.

Lemma is_digit_digit_char d : 0 <= d < 10 -> is_digit (digit_char d) = true.
Proof. intros H. unfold is_digit. now rewrite digit_of_digit_char. Qed.

Lemma parse_digits_app a s t :
  parse_digits a (s ++ t) =
  match parse_digits a s with Some b => parse_digits b t | None => None end.
Proof.
  revert a. induction s as [|c s IH]; simpl; intros a; [reflexivity|].
  destruct (digit_of c); [apply IH | reflexivity].
Qed.

Lemma mod10_range n : 0 <= n mod 10 < 10.
Proof. apply Z.mod_pos_bound. lia. Qed.

Lemma parse_digits_fixed w : forall a n,
  parse_digits a (digits_fixed w n) = Some (a * pow10 w + n mod pow10 w).
Proof.
  induction w as [|w IH]; intros a n.
  - simpl. unfold pow10. simpl. rewrite Z.mod_1_r. f_equal. lia.
  - cbn [digits_fixed]. unfold snoc. rewrite parse_digits_app, IH.
    cbn [parse_digits]. rewrite digit_of_digit_char by apply mod10_range.
    f_equal. rewrite pow10_S.
    pose proof (pow10_pos w) as Hp.
    rewrite (Z.rem_mul_r n 10 (pow10 w)) by lia. lia.
Qed.

Lemma length_digits_fixed w n : String.length (digits_fixed w n) = w.
Proof.
  revert n. induction w as [|w IH]; intros n; [reflexivity|].
  cbn [digits_fixed]. unfold snoc. rewrite length_app, IH. simpl. lia.
Qed.

Lemma all_digits_fixed w n : all_chars is_digit (digits_fixed w n) = true.
Proof.
  revert n. induction w as [|w IH]; intros n; [reflexivity|].
  cbn [digits_fixed]. unfold snoc. rewrite all_chars_app, IH. simpl.
  now rewrite is_digit_digit_char by apply mod10_range.
Qed.

Lemma parse_strip_zeros s : parse_digits 0 (strip_zeros s) = parse_digits 0 s.
Proof.
  induction s as [|c s IH]; [reflexivity|].
  cbn [strip_zeros].
  destruct (Ascii.eqb_spec c "0") as [->|Hne]; [|reflexivity].
  destruct s as [|c' s']; [reflexivity|].
  cbn [is_empty negb andb]. rewrite IH. reflexivity.
Qed.

Lemma all_digits_strip_zeros s :
  all_chars is_digit s = true -> all_chars is_digit (strip_zeros s) = true.
Proof.
  induction s as [|c s IH]; [reflexivity|].
  cbn [strip_zeros]. intros H.
  destruct (Ascii.eqb c "0" && negb (is_empty s)); [|assumption].
  apply IH. simpl in H. now apply andb_true_iff in H.
Qed.

Lemma strip_zeros_nonempty s : is_empty s = false -> is_empty (strip_zeros s) = false.
Proof.
  induction s as [|c s IH]; [discriminate|].
  intros _. cbn [strip_zeros].
  destruct (Ascii.eqb c "0"); [|reflexivity].
  destruct s as [|c' s']; [reflexivity|].
  cbn [is_empty negb andb]. apply IH. reflexivity.
Qed.

Lemma digits_fixed_nonempty w n : is_empty (digits_fixed (S w) n) = false.
Proof.
  cbn [digits_fixed]. unfold snoc. rewrite is_empty_app. simpl.
  now rewrite andb_false_r.
Qed.

Lemma lt_pow10_log2 n : 0 <= n -> n < pow10 (S (Z.to_nat (Z.log2 n))).
Proof.
  intros Hn. unfold pow10.
  rewrite Nat2Z.inj_succ, Z2Nat.id by apply Z.log2_nonneg.
  destruct (Z.eq_dec n 0) as [->|Hnz]; [reflexivity|].
  pose proof (Z.log2_spec n ltac:(lia)) as [_ Hlt].
  pose proof (Z.log2_nonneg n) as Hl.
  eapply Z.lt_le_trans; [exact Hlt|].
  apply Z.pow_le_mono_l. lia.
Qed.

Lemma parse_digits_int n : 0 <= n -> parse_digits 0 (digits_int n) = Some n.
Proof.
  intros Hn. unfold digits_int.
  rewrite parse_strip_zeros, parse_digits_fixed.
  rewrite Z.mod_small by (split; [lia | now apply lt_pow10_log2]).
  reflexivity.
Qed.

Lemma all_digits_int n : all_chars is_digit (digits_int n) = true.
Proof. apply all_digits_strip_zeros, all_digits_fixed. Qed.

Lemma digits_int_nonempty n : is_empty (digits_int n) = false.
Proof. apply strip_zeros_nonempty, digits_fixed_nonempty. Qed.

(** A string that starts with a digit carries no sign. *)
Lemma split_sign_digits s :
  all_chars is_digit s = true -> split_sign s = (false, s).
Proof.
  destruct s as [|c s]; [reflexivity|]. simpl.
  intros H. apply andb_true_iff in H as [Hc _].
  destruct (Ascii.eqb_spec c "-") as [->|_]; [discriminate|].
  destruct (Ascii.eqb_spec c "+") as [->|_]; [discriminate|].
  reflexivity.
Qed.

Lemma split_sign_app_digits s t :
  all_chars is_digit s = true -> is_empty s = false ->
  split_sign (s ++ t) = (false, s ++ t).
Proof.
  destruct s as [|c s]; [discriminate|]. simpl.
  intros H _. apply andb_true_iff in H as [Hc _].
  destruct (Ascii.eqb_spec c "-") as [->|_]; [discriminate|].
  destruct (Ascii.eqb_spec c "+") as [->|_]; [discriminate|].
  reflexivity.
Qed.

(** [int(str(i)) == i] *)
Lemma int_of_str_of_int z : int_of_string (str_of_int z) = Some z.
Proof.
  unfold str_of_int, int_of_string.
  destruct (Z.ltb_spec z 0) as [Hneg|Hpos].
  - simpl. rewrite digits_int_nonempty, parse_digits_int by lia.
    simpl. f_equal. lia.
  - cbn [append]. rewrite split_sign_digits by apply all_digits_int.
    rewrite digits_int_nonempty, parse_digits_int by lia.
    simpl. f_equal. lia.
Qed.

Lemma digit_not_dot s :
  all_chars is_digit s = true ->
  all_chars (fun c => negb (Ascii.eqb c ".")) s = true.
Proof.
  apply all_chars_impl. intros c Hc.
  destruct (Ascii.eqb_spec c ".") as [->|_]; [discriminate | reflexivity].
Qed.

(** The canonical form a float is printed from. *)
Lemma strip_scale_SS m s :
  strip_scale m (S (S s)) =
  if m mod 10 =? 0 then strip_scale (m / 10) (S s) else (m, S (S s)).
Proof. reflexivity. Qed.

Lemma strip_scale_spec s : forall m,
  let r := strip_scale m s in
  strip_scale (fst r) (snd r) = r
  /\ (1 <= s -> 1 <= snd r)%nat
  /\ m * pow10 (snd r) = fst r * pow10 s.
Proof.
  induction s as [|s IH]; intros m; [simpl; repeat split; lia|].
  destruct s as [|s'].
  - simpl. repeat split; lia.
  - cbv zeta. rewrite strip_scale_SS.
    destruct (Z.eqb_spec (m mod 10) 0) as [H0|Hn0].
    + specialize (IH (m / 10)). cbv zeta in IH.
      destruct IH as (Hfix & Hge & Hval).
      repeat split; [exact Hfix | intros _; apply Hge; lia |].
      rewrite (pow10_S (S s')).
      assert (Hm : m = 10 * (m / 10)) by (pose proof (Z.div_mod m 10); lia).
      set (q := m / 10) in *. rewrite Hm.
      replace (10 * q * pow10 (snd (strip_scale q (S s'))))
        with (10 * (q * pow10 (snd (strip_scale q (S s'))))) by ring.
      rewrite Hval. ring.
    + cbn [fst snd]. repeat split; [|lia].
      rewrite strip_scale_SS.
      destruct (Z.eqb_spec (m mod 10) 0); [contradiction | reflexivity].
Qed.

Lemma normalize_scale x : (1 <= scale (normalize x))%nat.
Proof.
  unfold normalize. destruct (scale x) as [|s] eqn:E; [simpl; lia|].
  pose proof (strip_scale_spec (S s) (mant x)) as (_ & Hge & _).
  destruct (strip_scale (mant x) (S s)); simpl in *. lia.
Qed.

Lemma normalize_fixed m s :
  strip_scale m s = (m, s) -> (1 <= s)%nat ->
  normalize (PyFloat m s) = PyFloat m s.
Proof.
  intros Hfix Hs. unfold normalize. cbn [mant scale].
  destruct s as [|s']; [lia|]. now rewrite Hfix.
Qed.

Lemma normalize_idem x : normalize (normalize x) = normalize x.
Proof.
  unfold normalize. destruct (scale x) as [|s] eqn:E.
  - reflexivity.
  - pose proof (strip_scale_spec (S s) (mant x)) as (Hfix & Hge & _).
    destruct (strip_scale (mant x) (S s)) as [m' s'] eqn:Es; cbn [fst snd] in *.
    apply normalize_fixed; [assumption | lia].
Qed.

Lemma Qof_normalize x : (Qof (normalize x) == Qof x)%Q.
Proof.
  rewrite !Qof_make. unfold Qeq; simpl.
  rewrite !Z2Pos.id by apply pow10_pos.
  unfold normalize. destruct (scale x) as [|s] eqn:E.
  - simpl. rewrite pow10_S. unfold pow10. simpl. lia.
  - pose proof (strip_scale_spec (S s) (mant x)) as (_ & _ & Hval).
    destruct (strip_scale (mant x) (S s)) as [m' s']; simpl in *. lia.
Qed.

Lemma str_of_float_normalize x : str_of_float (normalize x) = str_of_float x.
Proof. unfold str_of_float. now rewrite normalize_idem. Qed.

(** [float(str(x)) == x] *)
Lemma float_of_str_of_float x :
  float_of_string (str_of_float x) = Some (normalize x).
Proof.
  unfold str_of_float.
  pose proof (normalize_scale x) as Hs.
  destruct (normalize x) as [m s]; cbn [mant scale] in *.
  pose proof (pow10_pos s) as Hp.
  set (a := Z.abs m).
  assert (Ha : 0 <= a) by (unfold a; lia).
  assert (Hsplit : split_on "."
            (digits_int (a / pow10 s) ++ "." ++ digits_fixed s (a mod pow10 s))
          = [digits_int (a / pow10 s); digits_fixed s (a mod pow10 s)]).
  { unfold split_on. cbn [append].
    rewrite split_on_aux_app by apply digit_not_dot, all_digits_int.
    rewrite split_on_aux_nosep by apply digit_not_dot, all_digits_fixed.
    reflexivity. }
  assert (Hq : 0 <= a / pow10 s) by (apply Z.div_pos; lia).
  assert (Hr : 0 <= a mod pow10 s < pow10 s) by (apply Z.mod_pos_bound; lia).
  assert (Hbody : forall neg,
    match split_on "."
            (digits_int (a / pow10 s) ++ "." ++ digits_fixed s (a mod pow10 s)) with
    | [a0] =>
        if is_empty a0 then None
        else option_map (fun n => PyFloat (apply_sign neg n) 0) (parse_digits 0 a0)
    | [a0; b] =>
        if is_empty a0 && is_empty b then None
        else
          match parse_digits 0 a0, parse_digits 0 b with
          | Some na, Some nb =>
              Some (PyFloat (apply_sign neg (na * pow10 (String.length b) + nb))
                            (String.length b))
          | _, _ => None
          end
    | _ => None
    end = Some (PyFloat (apply_sign neg a) s)).
  { intros neg. rewrite Hsplit, digits_int_nonempty. cbn [andb].
    rewrite parse_digits_int by assumption.
    rewrite parse_digits_fixed, length_digits_fixed.
    rewrite Z.mod_mod by lia.
    do 3 f_equal. pose proof (Z.div_mod a (pow10 s)). lia. }
  unfold float_of_string.
  destruct (Z.ltb_spec m 0) as [Hneg|Hpos].
  - cbn [append split_sign]. rewrite Ascii.eqb_refl.
    rewrite Hbody. unfold a; simpl. do 2 f_equal. lia.
  - cbn [append].
    rewrite split_sign_app_digits
      by (apply all_digits_int || apply digits_int_nonempty).
    rewrite Hbody. unfold a; simpl. do 2 f_equal. lia.
Qed.

End PyPrintFacts.

(** ** Dictionaries, lists and [mapM] *)

Module DictFacts.

Section WithValue.
Context {V : Type}.
Implicit Types (d : list (string * V)) (k : string) (v : V).

Lemma get_set_eq k v d : Dict.get k (Dict.set k v d) = Some v.
Proof.
  induction d as [|[k' v'] d IH]; simpl.
  - now rewrite String.eqb_refl.
  - destruct (String.eqb k k') eqn:E; simpl; rewrite ?String.eqb_refl, ?E; auto.
Qed.

Lemma get_set_neq k k' v d : k <> k' -> Dict.get k (Dict.set k' v d) = Dict.get k d.
Proof.
  intros Hne. induction d as [|[k0 v0] d IH]; simpl.
  - apply String.eqb_neq in Hne. now rewrite Hne.
  - destruct (String.eqb_spec k' k0) as [->|Hk]; simpl.
    + apply String.eqb_neq in Hne. now rewrite Hne.
    + now rewrite IH.
Qed.

Lemma set_same k v d : Dict.get k d = Some v -> Dict.set k v d = d.
Proof.
  induction d as [|[k0 v0] d IH]; simpl; [discriminate|].
  destruct (String.eqb_spec k k0) as [->|Hk].
  - now intros [= ->].
  - intros H. now rewrite IH.
Qed.

Lemma keys_set_present k v v0 d :
  Dict.get k d = Some v0 -> Dict.keys (Dict.set k v d) = Dict.keys d.
Proof.
  unfold Dict.keys.
  induction d as [|[k0 v1] d IH]; simpl; [discriminate|].
  destruct (String.eqb_spec k k0) as [->|Hk]; simpl.
  - reflexivity.
  - intros H. now rewrite IH.
Qed.

Lemma keys_set_absent k v d :
  Dict.get k d = None -> Dict.keys (Dict.set k v d) = (Dict.keys d ++ [k])%list.
Proof.
  unfold Dict.keys.
  induction d as [|[k0 v1] d IH]; simpl; [reflexivity|].
  destruct (String.eqb_spec k k0) as [->|Hk]; simpl.
  - discriminate.
  - intros H. now rewrite IH.
Qed.

Lemma get_in_keys k v d : Dict.get k d = Some v -> In k (Dict.keys d).
Proof.
  unfold Dict.keys.
  induction d as [|[k0 v1] d IH]; simpl; [discriminate|].
  destruct (String.eqb_spec k k0) as [->|Hk]; auto.
Qed.

Lemma get_none_not_in k d : Dict.get k d = None <-> ~ In k (Dict.keys d).
Proof.
  unfold Dict.keys.
  induction d as [|[k0 v1] d IH]; simpl; [tauto|].
  destruct (String.eqb_spec k k0) as [->|Hk].
  - split; [discriminate | intros H; exfalso; auto].
  - rewrite IH. split; intros H; [intros [E|E]; [congruence | auto] | auto].
Qed.
End WithValue.

End DictFacts.

Module ListFacts.

Section WithType.
Context {A : Type}.
Implicit Types (l : list A) (n : nat) (v : A).

Lemma length_list_set l n v : length (list_set l n v) = length l.
Proof.
  revert n. induction l as [|x l IH]; intros [|n]; simpl; auto.
Qed.

Lemma nth_list_set_eq l n v :
  (n < length l)%nat -> nth_error (list_set l n v) n = Some v.
Proof.
  revert n. induction l as [|x l IH]; intros [|n]; simpl; intros H; try lia; auto.
  apply IH. lia.
Qed.

Lemma nth_list_set_neq l n n' v :
  n <> n' -> nth_error (list_set l n v) n' = nth_error l n'.
Proof.
  revert n n'. induction l as [|x l IH]; intros [|n] [|n'] H; simpl; auto;
    try congruence.
Qed.

Lemma list_set_same l n v : nth_error l n = Some v -> list_set l n v = l.
Proof.
  revert n. induction l as [|x l IH]; intros [|n]; simpl; intros H; auto.
  - congruence.
  - f_equal. auto.
Qed.

Lemma nth_error_lt l n v : nth_error l n = Some v -> (n < length l)%nat.
Proof. intros H. apply nth_error_Some. congruence. Qed.
End WithType.

Lemma mapM_length {A B} (f : A -> result B) xs ys :
mapM f xs = Ret ys -> length ys = length xs.
Proof.
revert ys. induction xs as [|x xs IH]; simpl; intros ys H.
- now inversion H.
- destruct (f x); try discriminate. simpl in H.
  destruct (mapM f xs); try discriminate. simpl in H.
  inversion H; subst. simpl. f_equal. auto.
Qed.

Lemma mapM_nth {A B} (f : A -> result B) xs ys n :
mapM f xs = Ret ys ->
match nth_error xs n with
| Some x => exists y, nth_error ys n = Some y /\ f x = Ret y
| None => nth_error ys n = None
end.
Proof.
revert ys n. induction xs as [|x xs IH]; simpl; intros ys n H.
- inversion H; subst. now destruct n.
- destruct (f x) eqn:Ex; try discriminate. simpl in H.
  destruct (mapM f xs) eqn:Em; try discriminate. simpl in H.
  inversion H; subst.
  destruct n as [|n]; simpl; [eauto|].
  now apply IH.
Qed.

Lemma mapM_map {A B C} (f : B -> result C) (g : A -> B) (h : A -> C) xs :
(forall x, In x xs -> f (g x) = Ret (h x)) ->
mapM f (map g xs) = Ret (map h xs).
Proof.
induction xs as [|x xs IH]; simpl; intros H; [reflexivity|].
rewrite H by auto. simpl. rewrite IH by auto. reflexivity.
Qed.

End ListFacts.

(** ** The Image Wrapper *)

Module WrapFacts.

Import PyNumFacts PyPrintFacts DictFacts ListFacts.
Local Open Scope Q_scope.

Lemma image_kept_refl L p i : image_kept L p i p i.
Proof. destruct i; simpl; [eexists; split; reflexivity | auto]. Qed.

Lemma image_kept_trans L p i p1 i1 p2 i2 :
  image_kept L p i p1 i1 -> image_kept L p1 i1 p2 i2 -> image_kept L p i p2 i2.
Proof.
  unfold image_kept. destruct i as [iv|].
  - intros (iv1 & -> & H1) (iv2 & -> & H2). exists iv2. split; [reflexivity|].
    now rewrite H2.
  - intros (-> & ->) H. exact H.
Qed.

Lemma inject_Z_succ z : inject_Z (z + 1) == inject_Z z + 1.
Proof. rewrite inject_Z_plus. reflexivity. Qed.

Lemma inject_Z_pred z : inject_Z (z - 1) == inject_Z z - 1.
Proof. unfold Z.sub. rewrite inject_Z_plus. reflexivity. Qed.

Lemma while_above_spec fuel L hi : forall p i p' i',
  while_above fuel L hi p i = Ret (p', i') ->
  fgtb p' hi = false /\ image_kept L p i p' i'.
Proof.
  induction fuel as [|fuel IH]; intros p i p' i' H; simpl in H;
    destruct (fgtb p hi) eqn:E.
  - destruct i; discriminate.
  - inversion H; subst. split; [assumption | apply image_kept_refl].
  - destruct i as [iv|]; [|discriminate].
    apply IH in H as [Hb (iv' & -> & Hq)]. split; [assumption|].
    exists iv'. split; [reflexivity|].
    rewrite Hq. unfold true_position. rewrite Qof_fsub, inject_Z_succ. ring.
  - inversion H; subst. split; [assumption | apply image_kept_refl].
Qed.

Lemma while_below_spec fuel L : forall p i p' i',
  while_below fuel L (fhalf (fneg L)) p i = Ret (p', i') ->
  fltb p' (fhalf (fneg L)) = false
  /\ (Qof p <= Qof L / 2 -> Qof p' <= Qof L / 2)
  /\ image_kept L p i p' i'.
Proof.
  induction fuel as [|fuel IH]; intros p i p' i' H; simpl in H;
    destruct (fltb p (fhalf (fneg L))) eqn:E.
  - destruct i; discriminate.
  - inversion H; subst. repeat split; [assumption | auto | apply image_kept_refl].
  - destruct i as [iv|]; [|discriminate].
    apply IH in H as (Hb & Hup & iv' & -> & Hq).
    apply fltb_spec in E. rewrite Qof_fhalf, Qof_fneg in E.
    repeat split; [assumption | |].
    + intros _. apply Hup. rewrite Qof_fadd. clear - E. qlra.
    + exists iv'. split; [reflexivity|].
      rewrite Hq. unfold true_position. rewrite Qof_fadd, inject_Z_pred. ring.
  - inversion H; subst. repeat split; [assumption | auto | apply image_kept_refl].
Qed.

Lemma wrap_axis_spec fuel L p i p' i' :
  wrap_axis fuel L p i = Ret (p', i') ->
  in_box L p' /\ image_kept L p i p' i'.
Proof.
  unfold wrap_axis. intros H.
  destruct (while_above fuel L (fhalf L) p i) as [[p1 i1]| |] eqn:Ea;
    try discriminate.
  simpl in H.
  apply while_above_spec in Ea as [Hhi Hk1].
  apply while_below_spec in H as (Hlo & Hup & Hk2).
  apply fgtb_false in Hhi. rewrite Qof_fhalf in Hhi.
  apply fltb_false in Hlo. rewrite Qof_fhalf, Qof_fneg in Hlo.
  split; [split; [clear - Hlo; qlra | now apply Hup] | eapply image_kept_trans; eauto].
Qed.

Lemma settled_in_box L p : settled L p <-> in_box L p.
Proof.
  unfold settled, in_box.
  rewrite fgtb_false, fltb_false, !Qof_fhalf, Qof_fneg.
  split; intros [H1 H2]; split; qlra.
Qed.

Lemma wrap_axis_settled fuel L p i : settled L p -> wrap_axis fuel L p i = Ret (p, i).
Proof.
  intros [Hhi Hlo]. unfold wrap_axis.
  assert (Ha : while_above fuel L (fhalf L) p i = Ret (p, i))
    by (destruct fuel; simpl; now rewrite Hhi).
  rewrite Ha. simpl. destruct fuel; simpl; now rewrite Hlo.
Qed.

Lemma settled_normalize L p : settled L p -> settled L (normalize p).
Proof. rewrite !settled_in_box. unfold in_box. now rewrite Qof_normalize. Qed.

Lemma image_kept_shape L p i p' i' :
  image_kept L p i p' i' -> (i = None <-> i' = None).
Proof.
  unfold image_kept. destruct i as [iv|].
  - intros (iv' & -> & _). split; discriminate.
  - intros [-> _]. tauto.
Qed.

Lemma nth_set_cell {A} (row : list A) axis (c : option A) :
  (nth_error row axis = None <-> c = None) ->
  nth_error (set_cell row axis c) axis = c.
Proof.
  intros H. destruct c as [v|]; simpl.
  - apply nth_list_set_eq. apply nth_error_Some. intros E. apply H in E. discriminate.
  - now apply H.
Qed.

Lemma nth_set_cell_neq {A} (row : list A) axis axis' (c : option A) :
  axis <> axis' -> nth_error (set_cell row axis c) axis' = nth_error row axis'.
Proof. intros H. destruct c; simpl; [now apply nth_list_set_neq | reflexivity]. Qed.

Lemma length_set_cell {A} (row : list A) axis (c : option A) :
  length (set_cell row axis c) = length row.
Proof. destruct c; simpl; [apply length_list_set | reflexivity]. Qed.

(** One particle: every listed axis is wrapped, the other columns stay. *)
Lemma wrap_atom_spec fuel box axes : forall prow irow prow' irow',
  NoDup axes ->
  wrap_atom fuel axes box prow irow = Ret (prow', irow') ->
  length prow' = length prow /\ length irow' = length irow
  /\ (forall a, In a axes ->
        exists L p p',
          nth_error box a = Some L /\ nth_error prow a = Some p
          /\ nth_error prow' a = Some p'
          /\ wrap_axis fuel L p (nth_error irow a) = Ret (p', nth_error irow' a))
  /\ (forall a, ~ In a axes ->
        nth_error prow' a = nth_error prow a /\ nth_error irow' a = nth_error irow a).
Proof.
  induction axes as [|axis axes IH]; intros prow irow prow' irow' Hnd H; simpl in H.
  - inversion H; subst. repeat split; auto. intros a [].
  - inversion Hnd as [|? ? Hnotin Hnd']; subst.
    destruct (nth_error box axis) as [L|] eqn:EL; [|discriminate]. simpl in H.
    destruct (nth_error prow axis) as [p|] eqn:Ep; [|discriminate]. simpl in H.
    destruct (wrap_axis fuel L p (nth_error irow axis)) as [[p1 i1]| |] eqn:Ew;
      try discriminate.
    simpl in H.
    apply IH in H as (Hlp & Hli & Hin & Hout); [|assumption].
    rewrite length_list_set in Hlp. rewrite length_set_cell in Hli.
    pose proof (wrap_axis_spec _ _ _ _ _ _ Ew) as [_ Hk].
    apply image_kept_shape in Hk.
    repeat split; try assumption.
    + intros a [<-|Ha].
      * destruct (Hout axis Hnotin) as [Hp Hi].
        exists L, p, p1. repeat split; try assumption.
        -- rewrite Hp. apply nth_list_set_eq. eapply nth_error_lt; eauto.
        -- rewrite Hi, nth_set_cell by assumption. exact Ew.
      * assert (Hne : axis <> a) by (intros ->; contradiction).
        destruct (Hin a Ha) as (L' & p' & p'' & HL & Hp & Hp' & Hw).
        rewrite nth_list_set_neq in Hp by assumption.
        rewrite nth_set_cell_neq in Hw by assumption.
        exists L', p', p''. auto.
    + destruct (Hout a) as [Hp _]; [simpl in *; tauto|].
      rewrite Hp. apply nth_list_set_neq. simpl in *. intros ->. tauto.
    + destruct (Hout a) as [_ Hi]; [simpl in *; tauto|].
      rewrite Hi. apply nth_set_cell_neq. simpl in *. intros ->. tauto.
Qed.

Lemma NoDup_axes : NoDup [0; 1; 2]%nat.
Proof. repeat constructor; simpl; intuition discriminate. Qed.

Lemma axis_in a : (a < 3)%nat <-> In a [0; 1; 2]%nat.
Proof. simpl. lia. Qed.

(** All particles: row [n] of the result is row [n] wrapped against the
    image row [n], an absent image row counting as an empty one. *)
Lemma wrap_atoms_spec fuel box : forall positions images positions' images',
  wrap_atoms fuel box positions images = Ret (positions', images') ->
  length positions' = length positions /\ length images' = length images
  /\ forall n prow, nth_error positions n = Some prow ->
       exists prow' irow',
         nth_error positions' n = Some prow'
         /\ wrap_atom fuel [0; 1; 2]%nat box prow (nth n images []) = Ret (prow', irow')
         /\ (forall irow, nth_error images n = Some irow ->
               nth_error images' n = Some irow').
Proof.
  induction positions as [|prow0 positions IH];
    intros images positions' images' H; cbn [wrap_atoms bind] in H.
  - inversion H; subst. repeat split; auto. intros [|n] prow; discriminate.
  - destruct images as [|irow0 images].
    + destruct (wrap_atom fuel [0; 1; 2]%nat box prow0 []) as [[pr ir]| |] eqn:E0;
        try discriminate.
      cbn [wrap_atoms bind] in H.
      destruct (wrap_atoms fuel box positions []) as [[ps imgs]| |] eqn:Es;
        try discriminate.
      cbn [wrap_atoms bind] in H. inversion H; subst.
      apply IH in Es as (Hlp & Hli & Hn).
      split; [simpl; congruence|]. split; [reflexivity|].
      intros [|n] prow Hp; simpl in Hp.
      * inversion Hp; subst. exists pr, ir. repeat split; auto. discriminate.
      * destruct (Hn n prow Hp) as (prow' & irow' & H1 & H2 & H3).
        exists prow', irow'. repeat split; auto.
        -- destruct n; exact H2.
        -- intros irow HI. destruct n; discriminate.
    + destruct (wrap_atom fuel [0; 1; 2]%nat box prow0 irow0) as [[pr ir]| |] eqn:E0;
        try discriminate.
      cbn [wrap_atoms bind] in H.
      destruct (wrap_atoms fuel box positions images) as [[ps imgs]| |] eqn:Es;
        try discriminate.
      cbn [wrap_atoms bind] in H. inversion H; subst.
      apply IH in Es as (Hlp & Hli & Hn).
      split; [simpl; congruence|]. split; [simpl; congruence|].
      intros [|n] prow Hp; simpl in Hp.
      * inversion Hp; subst. exists pr, ir. repeat split; auto.
      * destruct (Hn n prow Hp) as (prow' & irow' & H1 & H2 & H3).
        exists prow', irow'. repeat split; auto.
Qed.

End WrapFacts.

(** ** The wrapper on a document *)

Module WrapDocFacts.

Import PyNumFacts PyPrintFacts DictFacts ListFacts WrapFacts.
Local Open Scope Q_scope.

Lemma get_rows_ret key m rows :
  get_rows key m = Ret rows <-> Dict.get key m = Some (VRows rows).
Proof.
  unfold get_rows. destruct (Dict.get key m) as [[]|]; simpl;
    split; intros H; inversion H; subst; reflexivity.
Qed.









(** What a successful run of the wrapper consists of. *)
Lemma check_wrapped_positions_inv fuel m m' :
  check_wrapped_positions fuel m = Ret m' ->
  exists box ptext P itext I P' I',
    read_box_dims m = Ret box
    /\ get_rows "position_text" m = Ret ptext
    /\ mapM row_floats ptext = Ret P
    /\ get_rows "image_text" m = Ret itext
    /\ mapM row_ints itext = Ret I
    /\ wrap_atoms fuel box P I = Ret (P', I')
    /\ m' = Dict.set "image_text" (VRows (map (map str_of_int) I'))
              (Dict.set "position_text" (VRows (map (map str_of_float) P')) m).
Proof.
  unfold check_wrapped_positions. intros H.
  destruct (read_box_dims m) as [box| |] eqn:E1; try discriminate. cbn [bind] in H.
  destruct (get_rows "position_text" m) as [ptext| |] eqn:E2; try discriminate.
  cbn [bind] in H.
  destruct (mapM row_floats ptext) as [P| |] eqn:E3; try discriminate. cbn [bind] in H.
  destruct (get_rows "image_text" m) as [itext| |] eqn:E4; try discriminate.
  cbn [bind] in H.
  destruct (mapM row_ints itext) as [I| |] eqn:E5; try discriminate. cbn [bind] in H.
  destruct (wrap_atoms fuel box P I) as [[P' I']| |] eqn:E6; try discriminate.
  cbn [bind] in H. inversion H; subst.
  exists box, ptext, P, itext, I, P', I'. repeat split; assumption || reflexivity.
Qed.




End WrapDocFacts.

(** ** The wrapper returns when the box is positive *)

Module WrapTotalFacts.

Import PyNumFacts PyPrintFacts DictFacts ListFacts WrapFacts WrapDocFacts.
Local Open Scope Q_scope.











End WrapTotalFacts.

(** ** Wrap bound, true position, idempotence *)

Section WrapperProperties.

Import PyNumFacts PyPrintFacts DictFacts ListFacts WrapFacts WrapDocFacts.
Local Open Scope Q_scope.










Lemma set_cell_same {A} (row : list A) a : set_cell row a (nth_error row a) = row.
Proof.
  destruct (nth_error row a) eqn:E; simpl; [now apply list_set_same | reflexivity].
Qed.

Lemma wrap_atom_settled fuel box prow irow : forall axes,
  (forall a, In a axes ->
     exists L p, nth_error box a = Some L /\ nth_error prow a = Some p /\ settled L p) ->
  wrap_atom fuel axes box prow irow = Ret (prow, irow).
Proof.
  induction axes as [|a axes IH]; intros H; [reflexivity|].
  destruct (H a (or_introl eq_refl)) as (L & p & HL & Hp & Hs).
  cbn [wrap_atom]. rewrite HL, Hp. cbn [or_raise bind].
  rewrite (wrap_axis_settled _ _ _ _ Hs). cbn [bind].
  rewrite (list_set_same _ _ _ Hp), set_cell_same.
  apply IH. intros a' Ha'. apply H. now right.
Qed.

Lemma wrap_atoms_settled fuel box : forall P I,
  Forall (row_settled box) P -> wrap_atoms fuel box P I = Ret (P, I).
Proof.
  induction P as [|prow P IH]; intros I HP; [reflexivity|].
  inversion HP as [|? ? Hrow HP']; subst.
  cbn [wrap_atoms]. destruct I as [|irow I].
  - rewrite (wrap_atom_settled _ _ _ _ _ Hrow). cbn [bind].
    rewrite (IH [] HP'). reflexivity.
  - rewrite (wrap_atom_settled _ _ _ _ _ Hrow). cbn [bind].
    rewrite (IH I HP'). reflexivity.
Qed.

Lemma wrapped_rows_settled fuel box P I P' I' :
  wrap_atoms fuel box P I = Ret (P', I') ->
  Forall (row_settled box) (map (map normalize) P').
Proof.
  intros Hw. apply Forall_forall. intros nrow Hin.
  apply In_nth_error in Hin as [a Ha].
  rewrite nth_error_map in Ha.
  destruct (nth_error P' a) as [prow'|] eqn:Ea; [|discriminate].
  simpl in Ha. inversion Ha; subst nrow.
  intros x Hx. apply axis_in in Hx.
  pose proof (wrap_atoms_spec _ _ _ _ _ _ Hw) as (Hlp & _ & Hn).
  destruct (nth_error P a) as [prow|] eqn:Ep.
  - destruct (Hn a prow Ep) as (prow1 & irow' & Hp1 & Hatom & _).
    rewrite Ea in Hp1. inversion Hp1; subst prow1.
    pose proof (wrap_atom_spec _ _ _ _ _ _ _ NoDup_axes Hatom) as (_ & _ & Hall & _).
    destruct (Hall x (proj1 (axis_in x) Hx)) as (L & p & p' & HL & _ & Hp' & Hax).
    exists L, (normalize p'). split; [assumption|].
    split; [rewrite nth_error_map, Hp'; reflexivity|].
    apply settled_normalize, settled_in_box.
    now apply wrap_axis_spec in Hax.
  - apply nth_error_None in Ep. apply nth_error_lt in Ea. lia.
Qed.

(** C10.  Wrap idempotence: the wrapper applied to its own result gives
    that result back, position tokens and image tokens included, and
    needs no loop iteration to do so. *)
Theorem C10_wrap_idempotent fuel fuel' m m1 :
  check_wrapped_positions fuel m = Ret m1 ->
  check_wrapped_positions fuel' m1 = Ret m1.
Proof.
  intros Hrun.
  apply check_wrapped_positions_inv in Hrun
    as (box & ptext & P & itext & I & P' & I' & Hbox & Hpt & _ & Hit & _ & Hw & ->).
  set (pv := VRows (map (map str_of_float) P')).
  set (iv := VRows (map (map str_of_int) I')).
  set (m1 := Dict.set "image_text" iv (Dict.set "position_text" pv m)).
  assert (Hgp : Dict.get "position_text" m1 = Some pv).
  { unfold m1. rewrite get_set_neq by discriminate. apply get_set_eq. }
  assert (Hgi : Dict.get "image_text" m1 = Some iv) by apply get_set_eq.
  unfold check_wrapped_positions.
  assert (Hbox1 : read_box_dims m1 = Ret box).
  { rewrite <- Hbox. unfold read_box_dims, get_dict, m1.
    now rewrite !get_set_neq by discriminate. }
  rewrite Hbox1. cbn [bind].
  rewrite (proj2 (get_rows_ret _ _ _) Hgp). cbn [bind].
  assert (HP1 : mapM row_floats (map (map str_of_float) P')
                = Ret (map (map normalize) P')).
  { apply mapM_map. intros row _. unfold row_floats. apply mapM_map.
    intros x _. unfold to_float. now rewrite float_of_str_of_float. }
  rewrite HP1. cbn [bind].
  rewrite (proj2 (get_rows_ret _ _ _) Hgi). cbn [bind].
  assert (HI1 : mapM row_ints (map (map str_of_int) I') = Ret I').
  { rewrite <- (map_id I') at 2. apply mapM_map. intros row _.
    rewrite <- (map_id row) at 2. unfold row_ints. apply mapM_map.
    intros x _. unfold to_int. now rewrite int_of_str_of_int. }
  rewrite HI1. cbn [bind].
  rewrite (wrap_atoms_settled _ _ _ _ (wrapped_rows_settled _ _ _ _ _ _ Hw)).
  cbn [bind]. f_equal.
  assert (Hstr : map (map str_of_float) (map (map normalize) P')
                 = map (map str_of_float) P').
  { rewrite map_map. apply map_ext. intros row. rewrite map_map.
    apply map_ext. apply str_of_float_normalize. }
  rewrite Hstr. fold pv iv.
  rewrite (set_same _ _ _ Hgp). now apply set_same.
Qed.

Lemma C10_wrap_idempotent_witness :
  check_wrapped_positions 0 wrap_example_out = Ret wrap_example_out.
Proof.
  apply (C10_wrap_idempotent 5 0 wrap_example). reflexivity.
Defined.

End WrapperProperties.

(** ** The Cluster Relocator *)

Module RelocFacts.

Import DictFacts ListFacts WrapDocFacts.

Lemma same_but_positions_refl m : same_but_positions m m.
Proof. split; auto. Qed.

Lemma same_but_positions_trans m1 m2 m3 :
  same_but_positions m1 m2 -> same_but_positions m2 m3 -> same_but_positions m1 m3.
Proof.
  intros [K1 G1] [K2 G2]. split; [congruence|].
  intros key Hk. now rewrite G2, G1.
Qed.

Lemma set_position_frame m atom axis tok m' :
  set_position m atom axis tok = Ret m' -> same_but_positions m m'.
Proof.
  unfold set_position. intros H.
  destruct (get_rows "position_text" m) as [rows| |] eqn:Er; try discriminate.
  cbn [bind] in H.
  destruct (py_norm_index (length rows) atom) as [n|]; try discriminate.
  cbn [or_raise bind] in H.
  destruct (nth_error rows n) as [row|]; try discriminate.
  cbn [or_raise bind] in H.
  destruct (Nat.ltb axis (length row)); try discriminate.
  inversion H; subst. apply get_rows_ret in Er. split.
  - eapply keys_set_present; eauto.
  - intros key Hk. now apply get_set_neq.
Qed.

Lemma shift_if_frame test m moved posn2 atom axis shift :
  same_but_positions m (fst (shift_if test m moved posn2 atom axis shift)).
Proof.
  unfold shift_if. destruct test; [|apply same_but_positions_refl].
  destruct (nth_error posn2 axis); [|apply same_but_positions_refl].
  destruct (set_position m atom axis _) eqn:E; simpl;
    [eapply set_position_frame; eauto | apply same_but_positions_refl ..].
Qed.

Lemma shift_axes_frame posn2 box atom : forall delta axis m moved,
  same_but_positions m (fst (shift_axes axis delta posn2 box atom m moved)).
Proof.
  induction delta as [|value delta IH]; intros axis m moved;
    cbn [shift_axes]; [apply same_but_positions_refl|].
  destruct (nth_error box axis) as [L|]; [|apply same_but_positions_refl].
  pose proof (shift_if_frame (fgtb value (fhalf L)) m moved posn2 atom axis L) as H1.
  destruct (shift_if (fgtb value (fhalf L)) m moved posn2 atom axis L) as [m1 [moved1|e|]];
    cbn [fst] in *; try assumption.
  pose proof (shift_if_frame (fltb value (fhalf (fneg L))) m1 moved1 posn2 atom axis
                             (fneg L)) as H2.
  destruct (shift_if (fltb value (fhalf (fneg L))) m1 moved1 posn2 atom axis (fneg L))
    as [m2 [moved2|e|]]; cbn [fst] in *;
    try (eapply same_but_positions_trans; eassumption).
  eapply same_but_positions_trans; [eassumption|].
  eapply same_but_positions_trans; [eassumption | apply IH].
Qed.

Lemma relocate_neighbor_frame central bonded m box :
  same_but_positions m (fst (relocate_neighbor central bonded m box)).
Proof.
  unfold relocate_neighbor.
  destruct (posn1 <- position_of m central;; _) as [[posn2 delta]|e|];
    [apply shift_axes_frame | apply same_but_positions_refl ..].
Qed.

Lemma each_neighbor_frame recur central box :
  (forall b m, same_but_positions m (fst (recur b m))) ->
  forall bonded_atoms m,
    same_but_positions m (fst (each_neighbor recur central box bonded_atoms m)).
Proof.
  intros Hrec. induction bonded_atoms as [|b rest IH]; intros m;
    cbn [each_neighbor]; [apply same_but_positions_refl|].
  pose proof (relocate_neighbor_frame central b m box) as H1.
  destruct (relocate_neighbor central b m box) as [m1 [[|]|e|]]; cbn [fst] in *;
    try assumption.
  - pose proof (Hrec b m1) as H2.
    destruct (recur b m1) as [m2 [u|e|]]; cbn [fst] in *;
      try (eapply same_but_positions_trans; eassumption).
    eapply same_but_positions_trans; [eassumption|].
    eapply same_but_positions_trans; [eassumption | apply IH].
  - eapply same_but_positions_trans; [eassumption | apply IH].
Qed.

Lemma move_bonded_atoms_frame fuel : forall central m bd box,
  same_but_positions m (fst (move_bonded_atoms fuel central m bd box)).
Proof.
  induction fuel as [|fuel IH]; intros central m bd box; cbn [move_bonded_atoms];
    (destruct (bd_get central bd) as [nbrs|]; [|apply same_but_positions_refl]);
    apply each_neighbor_frame; intros b m1.
  - apply same_but_positions_refl.
  - apply IH.
Qed.

(** *** An integer-keyed graph has no entry for a string *)

Lemma bd_get_in k v bd : bd_get k bd = Some v -> exists k', In (k', v) bd /\ pyobj_eqb k k' = true.
Proof.
  induction bd as [|[k0 v0] bd IH]; simpl; [discriminate|].
  destruct (pyobj_eqb k k0) eqn:E.
  - intros [= <-]. exists k0. auto.
  - intros H. destruct (IH H) as (k' & Hin & Hk). eauto.
Qed.

Lemma bd_get_str tok bd : int_keyed bd -> bd_get (PStr tok) bd = None.
Proof.
  intros Hint. destruct (bd_get (PStr tok) bd) as [v|] eqn:E; [|reflexivity].
  apply bd_get_in in E as (k' & Hin & Hk).
  destruct (Hint _ _ Hin) as [i ->]. discriminate.
Qed.

Lemma bd_set_int_keyed i v bd : int_keyed bd -> int_keyed (bd_set (PInt i) v bd).
Proof.
  unfold int_keyed. induction bd as [|[k0 v0] bd IH]; cbn [bd_set]; intros H k w.
  - intros [[= <- <-]|[]]. eauto.
  - destruct (pyobj_eqb (PInt i) k0); cbn [In].
    + intros [[= <- <-]|Hin]; [eauto | eapply H; right; eauto].
    + intros [[= <- <-]|Hin]; [eapply H; left; eauto|].
      eapply IH; eauto. intros k' v' H'. eapply H. right; eauto.
Qed.

Lemma add_bond_int_keyed d bond d' :
  int_keyed d -> add_bond d bond = Ret d' -> int_keyed d'.
Proof.
  unfold add_bond. intros Hd H.
  destruct (py_index bond 1); try discriminate. cbn [or_raise bind] in H.
  destruct (to_int s) as [i1| |]; try discriminate. cbn [bind] in H.
  destruct (bd_get (PInt i1) d); try discriminate. cbn [or_raise bind] in H.
  destruct (py_index bond 2); try discriminate. cbn [or_raise bind] in H.
  destruct (to_int s0) as [i2| |]; try discriminate. cbn [bind] in H.
  destruct (bd_get (PInt i2) _); try discriminate. cbn [or_raise bind] in H.
  inversion H; subst. now do 2 apply bd_set_int_keyed.
Qed.

Lemma add_bonds_int_keyed bonds : forall d d',
  int_keyed d -> add_bonds d bonds = Ret d' -> int_keyed d'.
Proof.
  induction bonds as [|bond bonds IH]; intros d d' Hd H; cbn [add_bonds] in H.
  - now inversion H; subst.
  - destruct (add_bond d bond) as [d1| |] eqn:E; try discriminate.
    cbn [bind] in H. eapply IH; [|eassumption]. eapply add_bond_int_keyed; eauto.
Qed.

Lemma get_bond_dict_int_keyed m bd : get_bond_dict m = Ret bd -> int_keyed bd.
Proof.
  unfold get_bond_dict. intros H.
  destruct (get_rows "type_text" m) as [types| |]; try discriminate.
  cbn [bind] in H.
  destruct (get_rows "bond_text" m) as [bonds| |]; try discriminate.
  cbn [bind] in H.
  eapply add_bonds_int_keyed; [|eassumption].
  intros k v Hin. apply in_map_iff in Hin as (i & [= <- <-] & _). eauto.
Qed.

(** The relocation entered with a string: the first lookup fails. *)
Lemma move_bonded_atoms_str fuel tok m bd box :
  int_keyed bd -> move_bonded_atoms fuel (PStr tok) m bd box = (m, Raise KeyError).
Proof.
  intros Hint. destruct fuel; cbn [move_bonded_atoms];
    now rewrite bd_get_str.
Qed.

(** *** The scan does not depend on fuel *)

Lemma fuel_free_bind {A B} (c : result A) (k : A -> result B) :
  fuel_free c -> (forall a, fuel_free (k a)) -> fuel_free (bind c k).
Proof.
  unfold fuel_free. intros Hc Hk.
  destruct c; simpl; [apply Hk | discriminate | congruence].
Qed.

Lemma fuel_free_or_raise {A} e (o : option A) : fuel_free (or_raise e o).
Proof. destruct o; discriminate. Qed.

Lemma fuel_free_ret {A} (a : A) : fuel_free (Ret a).
Proof. discriminate. Qed.

Lemma fuel_free_mapM {A B} (f : A -> result B) xs :
  (forall x, fuel_free (f x)) -> fuel_free (mapM f xs).
Proof.
  intros Hf. induction xs as [|x xs IH]; cbn [mapM]; [apply fuel_free_ret|].
  apply fuel_free_bind; [apply Hf|]. intros y.
  apply fuel_free_bind; [apply IH|]. intros ys. apply fuel_free_ret.
Qed.

Lemma fuel_free_get_rows key m : fuel_free (get_rows key m).
Proof.
  unfold get_rows. apply fuel_free_bind; [apply fuel_free_or_raise|].
  intros []; discriminate.
Qed.

Lemma fuel_free_row_floats row : fuel_free (row_floats row).
Proof. apply fuel_free_mapM. intros x. apply fuel_free_or_raise. Qed.

Lemma fuel_free_np_map2 f a b : fuel_free (np_map2 f a b).
Proof.
  unfold np_map2. destruct (Nat.eqb _ _); [discriminate|].
  destruct a as [|x [|x' a]]; destruct b as [|y [|y' b]]; discriminate.
Qed.

Lemma fuel_free_bond_endpoint m box tok : fuel_free (bond_endpoint m box tok).
Proof.
  unfold bond_endpoint.
  repeat (apply fuel_free_bind;
          [first [apply fuel_free_get_rows | apply fuel_free_or_raise
                 | apply fuel_free_row_floats | apply fuel_free_np_map2] | intros ?]).
  apply fuel_free_ret.
Qed.

Lemma fuel_free_bond_out_of_range m bond box :
  fuel_free (bond_out_of_range m bond box).
Proof.
  unfold bond_out_of_range.
  apply fuel_free_bind; [apply fuel_free_bond_endpoint | intros posn1].
  apply fuel_free_bind; [apply fuel_free_bond_endpoint | intros posn2].
  apply fuel_free_bind; [apply fuel_free_np_map2 | intros delta].
  apply fuel_free_bind; [|intros flags; apply fuel_free_ret].
  apply fuel_free_mapM. intros axis.
  apply fuel_free_bind; [apply fuel_free_or_raise | intros d].
  apply fuel_free_bind; [apply fuel_free_or_raise | intros L].
  apply fuel_free_ret.
Qed.

(** The scan over an integer-keyed graph: nothing moves; it ends normally
    only if no bond is flagged, and a flagged bond ends it with an
    exception. *)
Lemma check_bonds_from_int_keyed fuel m bd box :
  int_keyed bd ->
  forall bonds,
    fst (check_bonds_from fuel bonds m bd box) = m
    /\ (forall u, snd (check_bonds_from fuel bonds m bd box) = Ret u ->
          forall bond, In bond bonds -> bond_out_of_range m bond box = Ret false)
    /\ (forall bond, In bond bonds -> bond_out_of_range m bond box = Ret true ->
          exists e, snd (check_bonds_from fuel bonds m bd box) = Raise e).
Proof.
  intros Hint. induction bonds as [|bond bonds IH]; cbn [check_bonds_from].
  - repeat split; [intros u _ bond [] | intros bond []].
  - pose proof (fuel_free_bond_out_of_range m bond box) as Hff.
    destruct (bond_out_of_range m bond box) as [[|]|e|] eqn:Eb.
    + destruct (py_index bond 1) as [tok|].
      * rewrite move_bonded_atoms_str by assumption. cbn [fst snd].
        repeat split; [discriminate | eauto].
      * cbn [fst snd]. repeat split; [discriminate | eauto].
    + destruct IH as (Hfst & Hret & Hflag).
      repeat split; [assumption | |].
      * intros u Hu b [<-|Hin]; [assumption | eapply Hret; eauto].
      * intros b [<-|Hin] Hb; [congruence | eauto].
    + cbn [fst snd]. repeat split; [discriminate | eauto].
    + now elim Hff.
Qed.

End RelocFacts.

(** ** Frame of the relocation, and the scan that feeds it *)

Section RelocatorProperties.

Import DictFacts ListFacts WrapDocFacts RelocFacts.

(** C7.  The Cluster Relocator mutates only the position section:
    whatever the outcome of the call, the dictionary has the same keys
    afterwards, and every entry other than the position rows (image
    offsets, box attributes, every other section's rows and attributes)
    is what it was. *)
Theorem C7_relocation_changes_positions_only fuel central m bd box key :
  key <> "position_text"%string ->
  Dict.keys (fst (move_bonded_atoms fuel central m bd box)) = Dict.keys m
  /\ Dict.get key (fst (move_bonded_atoms fuel central m bd box)) = Dict.get key m.
Proof.
  intros Hkey.
  destruct (move_bonded_atoms_frame fuel central m bd box) as [Hkeys Hget].
  split; [exact Hkeys | now apply Hget].
Qed.

Lemma C7_relocation_changes_positions_only_witness :
  Dict.keys (fst (move_bonded_atoms 5 (PInt 0) two_particle_doc two_particle_bonds
                                    [ten; ten; ten]))
  = Dict.keys two_particle_doc
  /\ Dict.get "image_text"
       (fst (move_bonded_atoms 5 (PInt 0) two_particle_doc two_particle_bonds
                               [ten; ten; ten]))
     = Dict.get "image_text" two_particle_doc.
Proof.
  apply (C7_relocation_changes_positions_only 5 (PInt 0) two_particle_doc
           two_particle_bonds [ten; ten; ten] "image_text").
  discriminate.
Defined.

Lemma fix_images_scan_input_inv file m bd box :
  fix_images_scan_input file = Ret (m, bd, box) ->
  zero_out_images (load_morphology_xml file) = Ret m
  /\ get_bond_dict m = Ret bd /\ read_box_dims m = Ret box.
Proof.
  unfold fix_images_scan_input. intros H.
  destruct (zero_out_images (load_morphology_xml file)) as [m0| |]; try discriminate.
  cbn [bind] in H.
  destruct (get_bond_dict m0) as [bd0| |] eqn:Ebd; try discriminate.
  cbn [bind] in H.
  destruct (read_box_dims m0) as [box0| |] eqn:Ebox; try discriminate.
  cbn [bind] in H.
  inversion H; subst. auto.
Qed.

Lemma check_bonds_int_keyed fuel m bd box :
  int_keyed bd ->
  fst (check_bonds fuel m bd box) = m
  /\ (forall u, snd (check_bonds fuel m bd box) = Ret u ->
        forall bonds bond, get_rows "bond_text" m = Ret bonds -> In bond bonds ->
          bond_out_of_range m bond box = Ret false)
  /\ (forall bonds bond, get_rows "bond_text" m = Ret bonds -> In bond bonds ->
        bond_out_of_range m bond box = Ret true ->
        exists e, snd (check_bonds fuel m bd box) = Raise e).
Proof.
  intros Hint. unfold check_bonds.
  destruct (get_rows "bond_text" m) as [bonds|e|] eqn:Eb.
  - destruct (check_bonds_from_int_keyed fuel m bd box Hint bonds)
      as (Hfst & Hret & Hflag).
    repeat split; [assumption | |].
    + intros u Hu bs b [= <-]. eauto.
    + intros bs b [= <-]. eauto.
  - repeat split; cbn [snd]; discriminate.
  - now elim (fuel_free_get_rows "bond_text" m).
Qed.

(** C3.  In the repair pipeline the relocation is entered with the raw
    string token of the flagged bond while the bond graph is keyed by
    integers: the first neighbour lookup fails with [KeyError], so the
    scan never changes the document, and a document with at least one
    flagged bond makes the pipeline raise instead of writing a file. *)
Theorem C3_flagged_bond_raises_before_any_move fuel file m bd box :
  fix_images_scan_input file = Ret (m, bd, box) ->
  (forall tok, move_bonded_atoms fuel (PStr tok) m bd box = (m, Raise KeyError))
  /\ fst (check_bonds fuel m bd box) = m
  /\ (forall bonds bond,
        get_rows "bond_text" m = Ret bonds -> In bond bonds ->
        bond_out_of_range m bond box = Ret true ->
        exists e, snd (check_bonds fuel m bd box) = Raise e
                  /\ fix_images fuel file = Raise e).
Proof.
  intros Hscan.
  pose proof (fix_images_scan_input_inv _ _ _ _ Hscan) as (_ & Hbd & _).
  apply get_bond_dict_int_keyed in Hbd.
  destruct (check_bonds_int_keyed fuel m bd box Hbd) as (Hfst & _ & Hflag).
  split; [intros tok; now apply move_bonded_atoms_str|].
  split; [assumption|].
  intros bonds bond Hb Hin Hout.
  destruct (Hflag bonds bond Hb Hin Hout) as [e He].
  exists e. split; [assumption|].
  unfold fix_images. rewrite Hscan. cbn [bind].
  destruct (check_bonds fuel m bd box) as [m' st]. cbn [snd] in He. now subst st.
Qed.

Lemma C3_flagged_bond_raises_before_any_move_witness :
  (forall tok, move_bonded_atoms 5 (PStr tok) two_particle_doc two_particle_bonds
                                 [ten; ten; ten]
               = (two_particle_doc, Raise KeyError))
  /\ fst (check_bonds 5 two_particle_doc two_particle_bonds [ten; ten; ten])
     = two_particle_doc
  /\ (forall bonds bond,
        get_rows "bond_text" two_particle_doc = Ret bonds -> In bond bonds ->
        bond_out_of_range two_particle_doc bond [ten; ten; ten] = Ret true ->
        exists e, snd (check_bonds 5 two_particle_doc two_particle_bonds
                                   [ten; ten; ten]) = Raise e
                  /\ fix_images 5 two_particle_file = Raise e).
Proof.
  apply (C3_flagged_bond_raises_before_any_move 5 two_particle_file).
  vm_compute. reflexivity.
Defined.

End RelocatorProperties.

(** ** One comparison of the relocation *)

Module ShiftFacts.

Import DictFacts ListFacts WrapDocFacts RelocFacts.

Lemma set_set {V} k (v w : V) d : Dict.set k v (Dict.set k w d) = Dict.set k v d.
Proof.
  induction d as [|[k0 v0] d IH]; simpl.
  - now rewrite String.eqb_refl.
  - destruct (String.eqb k k0) eqn:E; simpl; rewrite ?String.eqb_refl, ?E; congruence.
Qed.

Lemma list_set_twice {A} (l : list A) n a b :
  list_set (list_set l n a) n b = list_set l n b.
Proof.
  revert n. induction l as [|x l IH]; intros [|n]; simpl; congruence.
Qed.

Lemma with_row_same m rows n row :
  get_rows "position_text" m = Ret rows -> nth_error rows n = Some row ->
  with_row m rows n row = m.
Proof.
  intros Hg Hn. unfold with_row. rewrite (list_set_same _ _ _ Hn).
  apply set_same. now apply get_rows_ret.
Qed.

Lemma get_rows_with_row m rows n row :
  get_rows "position_text" (with_row m rows n row) = Ret (list_set rows n row).
Proof. apply get_rows_ret. apply get_set_eq. Qed.

Lemma with_row_twice m rows n row row' :
  with_row (with_row m rows n row) (list_set rows n row) n row'
  = with_row m rows n row'.
Proof. unfold with_row. now rewrite set_set, list_set_twice. Qed.

Lemma set_position_with_row m rows n row atom axis tok :
  get_rows "position_text" m = Ret rows ->
  py_norm_index (length rows) atom = Some n ->
  nth_error rows n = Some row ->
  (axis < length row)%nat ->
  set_position m atom axis tok = Ret (with_row m rows n (list_set row axis tok)).
Proof.
  intros Hg Hi Hn Hax. unfold set_position.
  rewrite Hg. cbn [bind]. rewrite Hi. cbn [or_raise bind].
  rewrite Hn. cbn [or_raise bind].
  apply Nat.ltb_lt in Hax. now rewrite Hax.
Qed.

Lemma shift_axes_spec posn2 box atom n rows m0 :
  py_norm_index (length rows) atom = Some n ->
  (n < length rows)%nat ->
  forall delta axis row moved,
    get_rows "position_text" m0 = Ret rows ->
    length row = length posn2 ->
    (axis + length delta <= length posn2)%nat ->
    (axis + length delta <= length box)%nat ->
    shift_axes axis delta posn2 box atom (with_row m0 rows n row) moved
    = (with_row m0 rows n (shifted_row axis delta posn2 box row),
       Ret (moved || any_shift axis delta box)).
Proof.
  intros Hi Hn. induction delta as [|d delta IH]; intros axis row moved Hg Hlen Hp Hb.
  - cbn [shift_axes shifted_row any_shift]. now rewrite orb_false_r.
  - cbn [shift_axes shifted_row any_shift]. cbn [length] in Hp, Hb.
    destruct (nth_error box axis) as [L|] eqn:EL;
      [|apply nth_error_None in EL; lia].
    destruct (nth_error posn2 axis) as [p|] eqn:Ep;
      [|apply nth_error_None in Ep; lia].
    assert (Hstate : forall r, length r = length posn2 ->
              get_rows "position_text" (with_row m0 rows n r) = Ret (list_set rows n r)
              /\ py_norm_index (length (list_set rows n r)) atom = Some n
              /\ nth_error (list_set rows n r) n = Some r
              /\ (axis < length r)%nat).
    { intros r Hr. split; [apply get_rows_with_row|].
      rewrite length_list_set. split; [assumption|].
      split; [now apply nth_list_set_eq | lia]. }
    set (row1 := if fgtb d (fhalf L)
                 then list_set row axis (str_of_float (fadd p L)) else row).
    assert (Hlen1 : length row1 = length posn2)
      by (unfold row1; destruct (fgtb d (fhalf L)); rewrite ?length_list_set; assumption).
    assert (H1 : shift_if (fgtb d (fhalf L)) (with_row m0 rows n row) moved
                          posn2 atom axis L
                 = (with_row m0 rows n row1, Ret (moved || fgtb d (fhalf L)))).
    { unfold shift_if, row1. destruct (fgtb d (fhalf L)).
      - rewrite Ep. destruct (Hstate row Hlen) as (Hg1 & Hi1 & Hn1 & Hax1).
        rewrite (set_position_with_row _ _ _ _ _ _ _ Hg1 Hi1 Hn1 Hax1).
        rewrite with_row_twice. now rewrite orb_true_r.
      - now rewrite orb_false_r. }
    rewrite H1.
    set (row2 := row_step L d p row axis).
    assert (Hlen2 : length row2 = length posn2).
    { unfold row2, row_step. fold row1.
      destruct (fltb d (fhalf (fneg L))); rewrite ?length_list_set; assumption. }
    assert (H2 : shift_if (fltb d (fhalf (fneg L))) (with_row m0 rows n row1)
                          (moved || fgtb d (fhalf L)) posn2 atom axis (fneg L)
                 = (with_row m0 rows n row2,
                    Ret (moved || fgtb d (fhalf L) || fltb d (fhalf (fneg L))))).
    { unfold shift_if, row2, row_step. fold row1.
      destruct (fltb d (fhalf (fneg L))).
      - rewrite Ep. destruct (Hstate row1 Hlen1) as (Hg1 & Hi1 & Hn1 & Hax1).
        rewrite (set_position_with_row _ _ _ _ _ _ _ Hg1 Hi1 Hn1 Hax1).
        rewrite with_row_twice. now rewrite orb_true_r.
      - now rewrite orb_false_r. }
    rewrite H2.
    rewrite (IH (S axis) row2) by (assumption || lia).
    fold row2. f_equal. f_equal.
    now rewrite <- !orb_assoc.
Qed.

End ShiftFacts.

(** ** The scan flag and the relocation rule *)

Section ScanAndRuleProperties.

Import PyNumFacts DictFacts ListFacts WrapDocFacts RelocFacts ShiftFacts.









End ScanAndRuleProperties.

(** ** A ring that closes through the boundary *)

Module RingFacts.

Import PyNumFacts PyPrintFacts DictFacts ListFacts WrapDocFacts RelocFacts ShiftFacts.
Local Open Scope string_scope.

Lemma Qof_ten : (Qof ten == 10)%Q.
Proof. vm_compute. reflexivity. Qed.

Lemma py_index_of_nat {A} (l : list A) n x :
  nth_error l n = Some x ->
  py_norm_index (length l) (Z.of_nat n) = Some n /\ py_index l (Z.of_nat n) = Some x.
Proof.
  intros H. pose proof (nth_error_lt _ _ _ H) as Hlt.
  assert (Hi : py_norm_index (length l) (Z.of_nat n) = Some n).
  { unfold py_norm_index.
    destruct (Z.ltb_spec (Z.of_nat n) 0); [lia|].
    destruct (Z.ltb_spec (Z.of_nat n) (Z.of_nat (length l))); [|lia].
    now rewrite Nat2Z.id. }
  split; [assumption|]. unfold py_index. now rewrite Hi.
Qed.

Lemma float_zero : float_of_string "0" = Some (PyFloat 0 0).
Proof. reflexivity. Qed.

Lemma row_floats_x t x :
  float_of_string t = Some x ->
  row_floats [t; "0"; "0"] = Ret [x; PyFloat 0 0; PyFloat 0 0].
Proof.
  intros H. unfold row_floats. cbn [mapM]. unfold to_float.
  now rewrite H, float_zero.
Qed.

Lemma position_of_x m rows c t x :
  get_rows "position_text" m = Ret rows ->
  nth_error rows c = Some [t; "0"; "0"] ->
  float_of_string t = Some x ->
  position_of m (PInt (Z.of_nat c)) = Ret [x; PyFloat 0 0; PyFloat 0 0].
Proof.
  intros Hg Hn Hf. unfold position_of. rewrite Hg. cbn [bind].
  destruct (py_index_of_nat _ _ _ Hn) as [_ ->]. cbn [or_raise bind].
  now apply row_floats_x.
Qed.

Lemma row_step_zero row axis :
  row_step ten (fsub (PyFloat 0 0) (PyFloat 0 0)) (PyFloat 0 0) row axis = row.
Proof. reflexivity. Qed.

(** A comparison of two particles that differ on the x axis only. *)
Lemma relocate_on_x m rows c b tc tb xc xb :
  get_rows "position_text" m = Ret rows ->
  nth_error rows c = Some [tc; "0"; "0"] ->
  nth_error rows b = Some [tb; "0"; "0"] ->
  float_of_string tc = Some xc ->
  float_of_string tb = Some xb ->
  relocate_neighbor (PInt (Z.of_nat c)) (Z.of_nat b) m [ten; ten; ten]
  = (with_row m rows b (row_step ten (fsub xc xb) xb [tb; "0"; "0"] 0),
     Ret (fgtb (fsub xc xb) (fhalf ten) || fltb (fsub xc xb) (fhalf (fneg ten)))).
Proof.
  intros Hg Hc Hb Hfc Hfb. unfold relocate_neighbor.
  rewrite (position_of_x _ _ _ _ _ Hg Hc Hfc), (position_of_x _ _ _ _ _ Hg Hb Hfb).
  cbn [bind np_map2 length Nat.eqb combine map fst snd].
  rewrite <- (with_row_same m rows b _ Hg Hb) at 1.
  destruct (py_index_of_nat _ _ _ Hb) as [Hi _].
  rewrite (shift_axes_spec _ _ _ b rows m Hi (nth_error_lt _ _ _ Hb))
    by (assumption || reflexivity || (cbn [length]; lia)).
  cbn [shifted_row any_shift nth_error].
  rewrite !row_step_zero. f_equal. f_equal.
  cbn [orb]. now rewrite !orb_false_r.
Qed.

(** The neighbour is 7.5 behind the anchor: it is moved up by one box. *)
Lemma relocate_moves m rows c b tc tb xc xb :
  get_rows "position_text" m = Ret rows ->
  nth_error rows c = Some [tc; "0"; "0"] ->
  nth_error rows b = Some [tb; "0"; "0"] ->
  float_of_string tc = Some xc ->
  float_of_string tb = Some xb ->
  (Qof xb == Qof xc - (75 # 10))%Q ->
  relocate_neighbor (PInt (Z.of_nat c)) (Z.of_nat b) m [ten; ten; ten]
  = (with_row m rows b [str_of_float (fadd xb ten); "0"; "0"], Ret true).
Proof.
  intros Hg Hc Hb Hfc Hfb Hgap.
  rewrite (relocate_on_x _ _ _ _ _ _ _ _ Hg Hc Hb Hfc Hfb).
  assert (Hgt : fgtb (fsub xc xb) (fhalf ten) = true).
  { apply fgtb_spec. rewrite Qof_fhalf, Qof_fsub, Qof_ten, Hgap. qlra. }
  assert (Hlt : fltb (fsub xc xb) (fhalf (fneg ten)) = false).
  { apply fltb_false. rewrite Qof_fhalf, Qof_fneg, Qof_fsub, Qof_ten, Hgap. qlra. }
  unfold row_step. now rewrite Hgt, Hlt.
Qed.

(** The neighbour is 2.5 behind the anchor: nothing happens. *)
Lemma relocate_stays m rows c b tc tb xc xb :
  get_rows "position_text" m = Ret rows ->
  nth_error rows c = Some [tc; "0"; "0"] ->
  nth_error rows b = Some [tb; "0"; "0"] ->
  float_of_string tc = Some xc ->
  float_of_string tb = Some xb ->
  (Qof xb == Qof xc - (25 # 10))%Q ->
  relocate_neighbor (PInt (Z.of_nat c)) (Z.of_nat b) m [ten; ten; ten]
  = (m, Ret false).
Proof.
  intros Hg Hc Hb Hfc Hfb Hgap.
  rewrite (relocate_on_x _ _ _ _ _ _ _ _ Hg Hc Hb Hfc Hfb).
  assert (Hgt : fgtb (fsub xc xb) (fhalf ten) = false).
  { apply fgtb_false. rewrite Qof_fhalf, Qof_fsub, Qof_ten, Hgap. qlra. }
  assert (Hlt : fltb (fsub xc xb) (fhalf (fneg ten)) = false).
  { apply fltb_false. rewrite Qof_fhalf, Qof_fneg, Qof_fsub, Qof_ten, Hgap. qlra. }
  unfold row_step. rewrite Hgt, Hlt. cbn [orb].
  now rewrite (with_row_same _ _ _ _ Hg Hb).
Qed.

Lemma moved_value x :
  float_of_string (str_of_float (fadd x ten)) = Some (normalize (fadd x ten))
  /\ (Qof (normalize (fadd x ten)) == Qof x + 10)%Q.
Proof.
  split; [apply float_of_str_of_float|].
  now rewrite Qof_normalize, Qof_fadd, Qof_ten.
Qed.

Lemma stop_out_of_fuel (r : effect unit) (k : morphology -> effect unit) :
  snd r = OutOfFuel ->
  snd (match r with (m2, Ret _) => k m2 | stop => stop end) = OutOfFuel.
Proof. destruct r as [m2 [u|e|]]; simpl; congruence. Qed.

(** One level of the recursion: from every state of the ring the loop
    over the anchor's neighbours reaches the recursive call on the next
    particle, in the next state of the ring. *)
Lemma ring_step recur anchor m neighbours :
  (forall b m1, ring_state b m1 -> snd (recur (Z.of_nat b) m1) = OutOfFuel) ->
  ring_state anchor m ->
  bd_get (PInt (Z.of_nat anchor)) ring_bonds = Some neighbours ->
  snd (each_neighbor recur (PInt (Z.of_nat anchor)) [ten; ten; ten] neighbours m)
  = OutOfFuel.
Proof.
  intros Hrec (t0 & t1 & t2 & t3 & x0 & x1 & x2 & x3 & Hg & H0 & H1 & H2 & H3 & Hgaps) Hn.
  destruct anchor as [|[|[|[|anchor]]]]; try contradiction;
    destruct Hgaps as (Hnext & Hopp & Hprev);
    cbn in Hn; inversion Hn; subst neighbours; clear Hn.
  - (* anchor 0: neighbours 1, 3 *)
    cbn [each_neighbor].
    rewrite_comparison (relocate_moves m _ 0 1 t0 t1 x0 x1 Hg eq_refl eq_refl H0 H1 Hnext).
    match goal with
    | |- context [recur _ ?m1] => assert (Hst : ring_state 1 m1)
    end.
    { destruct (moved_value x1) as [Hf Hq].
      exists t0, (str_of_float (fadd x1 ten)), t2, t3,
             x0, (normalize (fadd x1 ten)), x2, x3.
      split; [apply get_rows_with_row|]. repeat split; try assumption;
        rewrite Hq; try rewrite Hnext; try rewrite Hopp; try rewrite Hprev; lra. }
    finish_with_recursion Hrec Hst.
  - (* anchor 1: neighbours 0, 2 *)
    cbn [each_neighbor].
    rewrite_comparison (relocate_stays m _ 1 0 t1 t0 x1 x0 Hg eq_refl eq_refl H1 H0 Hprev).
    rewrite_comparison (relocate_moves m _ 1 2 t1 t2 x1 x2 Hg eq_refl eq_refl H1 H2 Hnext).
    match goal with
    | |- context [recur _ ?m1] => assert (Hst : ring_state 2 m1)
    end.
    { destruct (moved_value x2) as [Hf Hq].
      exists t0, t1, (str_of_float (fadd x2 ten)), t3,
             x0, x1, (normalize (fadd x2 ten)), x3.
      split; [apply get_rows_with_row|]. repeat split; try assumption;
        rewrite Hq; try rewrite Hnext; try rewrite Hopp; try rewrite Hprev; lra. }
    finish_with_recursion Hrec Hst.
  - (* anchor 2: neighbours 1, 3 *)
    cbn [each_neighbor].
    rewrite_comparison (relocate_stays m _ 2 1 t2 t1 x2 x1 Hg eq_refl eq_refl H2 H1 Hprev).
    rewrite_comparison (relocate_moves m _ 2 3 t2 t3 x2 x3 Hg eq_refl eq_refl H2 H3 Hnext).
    match goal with
    | |- context [recur _ ?m1] => assert (Hst : ring_state 3 m1)
    end.
    { destruct (moved_value x3) as [Hf Hq].
      exists t0, t1, t2, (str_of_float (fadd x3 ten)),
             x0, x1, x2, (normalize (fadd x3 ten)).
      split; [apply get_rows_with_row|]. repeat split; try assumption;
        rewrite Hq; try rewrite Hnext; try rewrite Hopp; try rewrite Hprev; lra. }
    finish_with_recursion Hrec Hst.
  - (* anchor 3: neighbours 2, 0 *)
    cbn [each_neighbor].
    rewrite_comparison (relocate_stays m _ 3 2 t3 t2 x3 x2 Hg eq_refl eq_refl H3 H2 Hprev).
    rewrite_comparison (relocate_moves m _ 3 0 t3 t0 x3 x0 Hg eq_refl eq_refl H3 H0 Hnext).
    match goal with
    | |- context [recur _ ?m1] => assert (Hst : ring_state 0 m1)
    end.
    { destruct (moved_value x0) as [Hf Hq].
      exists (str_of_float (fadd x0 ten)), t1, t2, t3,
             (normalize (fadd x0 ten)), x1, x2, x3.
      split; [apply get_rows_with_row|]. repeat split; try assumption;
        rewrite Hq; try rewrite Hnext; try rewrite Hopp; try rewrite Hprev; lra. }
    finish_with_recursion Hrec Hst.
Qed.

Lemma ring_state_anchor anchor m : ring_state anchor m -> (anchor < 4)%nat.
Proof.
  intros (t0 & t1 & t2 & t3 & x0 & x1 & x2 & x3 & _ & _ & _ & _ & _ & H).
  destruct anchor as [|[|[|[|anchor]]]]; first [lia | contradiction].
Qed.

Lemma ring_neighbours anchor :
  (anchor < 4)%nat -> exists nbrs, bd_get (PInt (Z.of_nat anchor)) ring_bonds = Some nbrs.
Proof.
  intros H. destruct anchor as [|[|[|[|anchor]]]]; try lia; cbn; eauto.
Qed.

(** The recursion from a state of the ring never returns. *)
Lemma ring_never_returns fuel : forall anchor m,
  ring_state anchor m ->
  snd (move_bonded_atoms fuel (PInt (Z.of_nat anchor)) m ring_bonds [ten; ten; ten])
  = OutOfFuel.
Proof.
  induction fuel as [|fuel IH]; intros anchor m Hstate;
    destruct (ring_neighbours anchor (ring_state_anchor _ _ Hstate)) as [nbrs Hn];
    cbn [move_bonded_atoms]; rewrite Hn;
    apply ring_step; auto.
Qed.

Lemma ring_doc_state : ring_state 3 ring_doc.
Proof.
  exists "-3.75", "-1.25", "1.25", "3.75",
         (PyFloat (-375) 2), (PyFloat (-125) 2), (PyFloat 125 2), (PyFloat 375 2).
  repeat split; vm_compute; reflexivity.
Qed.

End RingFacts.

(** ** Termination of the relocation *)

Section TerminationProperties.

Import RingFacts.
Local Open Scope string_scope.

(** C4 (as amended).  The Cluster Relocator keeps no visited set and no
    iteration budget: a call returns only when the chain of moves dies
    out.  On a bonded ring of four particles that closes through the
    periodic boundary it never does: whichever particle is the anchor and
    however many laps have been made, every level of the recursion moves
    the next particle by one box length and recurses on it, so no depth
    is enough for the call to return. *)
Theorem C4_ring_recursion_never_returns fuel anchor m :
  ring_state anchor m ->
  snd (move_bonded_atoms fuel (PInt (Z.of_nat anchor)) m ring_bonds [ten; ten; ten])
  = OutOfFuel.
Proof. apply ring_never_returns. Qed.

Lemma C4_ring_recursion_never_returns_witness :
  snd (move_bonded_atoms 1000 (PInt (Z.of_nat 3)) ring_doc ring_bonds [ten; ten; ten])
  = OutOfFuel.
Proof.
  apply (C4_ring_recursion_never_returns 1000 3 ring_doc).
  exists "-3.75", "-1.25", "1.25", "3.75",
         (PyFloat (-375) 2), (PyFloat (-125) 2), (PyFloat 125 2), (PyFloat 375 2).
  repeat split; vm_compute; reflexivity.
Defined.

(** C4 as stated fails on the ring: entered with the integer index of
    particle 3, the relocator has not returned or raised at any depth;
    and the pipeline run on the same file stops with [KeyError] at the
    first neighbour lookup, not with a non-convergence error. *)
Lemma C4_counterexample :
  ~ (exists fuel,
        snd (move_bonded_atoms fuel (PInt 3) ring_doc ring_bonds [ten; ten; ten])
        <> OutOfFuel)
  /\ (forall fuel, fix_images fuel ring_file = Raise KeyError).
Proof.
  split.
  - intros [fuel H]. apply H. apply (ring_never_returns fuel 3 ring_doc ring_doc_state).
  - intros fuel. destruct fuel; vm_compute; reflexivity.
Qed.

End TerminationProperties.

(** ** Rows written and read back *)

Module RowFacts.

Import PyStr PyStrFacts.
Local Open Scope string_scope.

Lemma join_cons sep x y ys :
  join sep (x :: y :: ys) = x ++ sep ++ join sep (y :: ys).
Proof. reflexivity. Qed.


Lemma newline_is_space : is_space newline = true.
Proof. reflexivity. Qed.











(** The key of a section entry names its section. *)
Lemma split_on_aux_suffix sep suf : 
  all_chars (fun c => negb (Ascii.eqb c sep)) suf = true ->
  forall s cur,
    split_on_aux sep cur (s ++ String sep suf) = (split_on_aux sep cur s ++ [suf])%list.
Proof.
  intros Hsuf. induction s as [|c s IH]; intros cur; cbn [append split_on_aux].
  - rewrite Ascii.eqb_refl. now rewrite split_on_aux_nosep.
  - destruct (Ascii.eqb c sep); [cbn [app]; f_equal|]; apply IH.
Qed.

Lemma tag_of_key_suffix t suf :
  all_chars (fun c => negb (Ascii.eqb c "_")) suf = true ->
  tag_of_key (t ++ String "_" suf) = t
  /\ last (split_on "_" (t ++ String "_" suf)) "" = suf.
Proof.
  intros Hsuf. unfold tag_of_key, split_on.
  rewrite (split_on_aux_suffix _ _ Hsuf). split.
  - rewrite removelast_last. apply (join_split_on_aux "_" "" t).
  - apply last_last.
Qed.

Lemma tag_of_attrib_key t : tag_of_key (t ++ "_attrib") = t.
Proof. now apply (tag_of_key_suffix t "attrib"). Qed.

Lemma tag_of_text_key t : tag_of_key (t ++ "_text") = t.
Proof. now apply (tag_of_key_suffix t "text"). Qed.

Lemma key_suffix_attrib t : last (split_on "_" (t ++ "_attrib")) "" = "attrib".
Proof. now apply (tag_of_key_suffix t "attrib"). Qed.

Lemma key_suffix_text t : last (split_on "_" (t ++ "_text")) "" = "text".
Proof. now apply (tag_of_key_suffix t "text"). Qed.

Lemma lower_char_idem c : lower_char (lower_char c) = lower_char c.
Proof.
  destruct c as [[] [] [] [] [] [] [] []]; reflexivity.
Qed.

Lemma lower_idem s : lower (lower s) = lower s.
Proof.
  induction s as [|c s IH]; [reflexivity|].
  cbn [lower]. now rewrite lower_char_idem, IH.
Qed.

End RowFacts.

(** ** The shape of a parsed document *)

Module ShapeFacts.

Import PyStr PyStrFacts PyNumFacts PyPrintFacts DictFacts ListFacts
       WrapDocFacts RowFacts.
Local Open Scope string_scope.









(** Printed numbers are clean tokens. *)
Lemma digit_not_space c : is_digit c = true -> negb (is_space c) = true.
Proof.
  destruct c as [[] [] [] [] [] [] [] []]; intros H; try reflexivity; discriminate.
Qed.

Lemma digits_no_space s :
  all_chars is_digit s = true -> all_chars (fun c => negb (is_space c)) s = true.
Proof. apply all_chars_impl. apply digit_not_space. Qed.

Lemma clean_str_of_int z : clean_token (str_of_int z).
Proof.
  unfold str_of_int, clean_token.
  destruct (z <? 0)%Z; cbn [append is_empty].
  - split; [reflexivity|]. cbn [all_chars].
    rewrite digits_no_space by apply all_digits_int. reflexivity.
  - split; [apply digits_int_nonempty | apply digits_no_space, all_digits_int].
Qed.




(** The wrapper keeps the keys and every entry but the two it rewrites. *)
Lemma wrapped_frame fuel m wrapped :
  check_wrapped_positions fuel m = Ret wrapped ->
  Dict.keys wrapped = Dict.keys m
  /\ forall k, k <> "position_text" -> k <> "image_text" ->
       Dict.get k wrapped = Dict.get k m.
Proof.
  intros H.
  apply check_wrapped_positions_inv in H
    as (box & ptext & P & itext & I & P' & I' & _ & Hp & _ & Hi & _ & _ & ->).
  apply get_rows_ret in Hp, Hi. split.
  - rewrite (keys_set_present _ _ (VRows itext)).
    + eapply keys_set_present; eauto.
    + now rewrite get_set_neq by discriminate.
  - intros k Hk1 Hk2. now rewrite !get_set_neq by assumption.
Qed.



Lemma lowered_set k v d : lowered d -> lower k = k -> lowered (Dict.set k v d).
Proof.
  intros [Hnd Hlow] Hk. unfold lowered.
  destruct (Dict.get k d) as [v0|] eqn:E.
  - rewrite (keys_set_present _ _ _ _ E). auto.
  - rewrite (keys_set_absent _ _ _ E). split.
    + apply NoDup_app; [assumption | repeat constructor; intros [] |].
      intros x Hx [<-|[]]. apply get_none_not_in in E. contradiction.
    + apply Forall_app. auto.
Qed.

Lemma lowered_lower_keys a : lowered (lower_keys a).
Proof.
  unfold lower_keys.
  assert (H : forall acc, lowered acc ->
            lowered (fold_left (fun (d : list (string * string)) (kv : string * string) =>
                                 Dict.set (lower (fst kv)) (snd kv) d) a acc)).
  { induction a as [|[k v] a IH]; intros acc Hacc; [assumption|].
    cbn [fold_left fst snd]. apply IH. apply lowered_set; [assumption | apply lower_idem]. }
  apply H. split; constructor.
Qed.



End ShapeFacts.

(** ** Writing a document and reading it back *)

Module RoundTripFacts.

Import PyStr PyStrFacts DictFacts ListFacts WrapDocFacts RowFacts ShapeFacts.
Local Open Scope string_scope.

Lemma in_strings_iff s l : in_strings s l = true <-> In s l.
Proof.
  unfold in_strings. rewrite existsb_exists. split.
  - intros (x & Hin & Heq). apply String.eqb_eq in Heq. now subst.
  - intros H. exists s. split; [assumption | apply String.eqb_refl].
Qed.

Lemma in_strings_false s l : in_strings s l = false <-> ~ In s l.
Proof. rewrite <- in_strings_iff. destruct (in_strings s l); split; congruence. Qed.

(** *** The section tags the writer derives from the keys *)

Lemma dedup_tags_spec tags : forall seen,
  NoDup seen -> Forall (fun t => t <> "") seen ->
  NoDup (dedup_tags seen tags)
  /\ Forall (fun t => t <> "") (dedup_tags seen tags)
  /\ (forall t, In t (dedup_tags seen tags) <-> In t seen \/ (In t tags /\ t <> "")).
Proof.
  induction tags as [|tag tags IH]; intros seen Hnd Hne; cbn [dedup_tags].
  - split; [assumption|]. split; [assumption|]. intros t. cbn [In]. tauto.
  - destruct (in_strings tag seen) eqn:Ein; cbn [negb andb].
    + destruct (IH seen Hnd Hne) as (H1 & H2 & H3).
      split; [assumption|]. split; [assumption|].
      intros t. rewrite H3. cbn [In]. apply in_strings_iff in Ein.
      split; [tauto|]. intros [Ht|[[<-|Ht] Hn]]; auto.
    + destruct (is_empty tag) eqn:Ee; cbn [negb].
      * apply is_empty_true in Ee. subst tag.
        destruct (IH seen Hnd Hne) as (H1 & H2 & H3).
        split; [assumption|]. split; [assumption|].
        intros t. rewrite H3. cbn [In].
        split; [tauto|]. intros [Ht|[[<-|Ht] Hn]]; auto. congruence.
      * assert (Htag : tag <> "") by (intros ->; discriminate).
        apply in_strings_false in Ein.
        destruct (IH (seen ++ [tag])%list) as (H1 & H2 & H3).
        { apply NoDup_app; [assumption | repeat constructor; intros [] |].
          intros x Hx [<-|[]]. contradiction. }
        { apply Forall_app. auto. }
        split; [assumption|]. split; [assumption|].
        intros t. rewrite H3, in_app_iff. cbn [In].
        split.
        -- intros [[Ht|[<-|[]]]|[Ht Hn]]; auto.
        -- intros [Ht|[[<-|Ht] Hn]]; auto.
Qed.



Lemma child_tags_of_key m k t :
  In k (Dict.keys m) -> tag_of_key k = t -> good_tag t -> In t (child_tags_of m).
Proof.
  intros Hk Ht (Hr & Hc & Hne). unfold child_tags_of.
  destruct (dedup_tags_spec
              (filter (fun tag => negb (in_strings tag ["root"; "config"]))
                      (map tag_of_key (Dict.keys m))) [] (NoDup_nil _) (Forall_nil _))
    as (_ & _ & Hin).
  apply Hin. right. split; [|assumption].
  apply filter_In. split.
  - apply in_map_iff. eauto.
  - apply negb_true_iff, in_strings_false. cbn [In]. intuition congruence.
Qed.



(** *** Keys of section entries *)

Lemma key_attrib_inj t t' : t ++ "_attrib" = t' ++ "_attrib" -> t = t'.
Proof.
  intros H. apply (f_equal tag_of_key) in H. now rewrite !tag_of_attrib_key in H.
Qed.

Lemma key_text_inj t t' : t ++ "_text" = t' ++ "_text" -> t = t'.
Proof.
  intros H. apply (f_equal tag_of_key) in H. now rewrite !tag_of_text_key in H.
Qed.

Lemma key_attrib_text t t' : t ++ "_attrib" <> t' ++ "_text".
Proof.
  intros H. apply (f_equal (fun k => last (split_on "_" k) "")) in H.
  cbv beta in H. rewrite key_suffix_attrib, key_suffix_text in H. discriminate.
Qed.

Lemma key_attrib_not_base t : good_tag t -> ~ In (t ++ "_attrib") base_keys.
Proof.
  intros (Hr & Hc & _) Hin. cbn [base_keys In] in Hin.
  repeat (destruct Hin as [Hin|Hin]); try contradiction;
    pose proof (f_equal tag_of_key Hin) as Ht;
    pose proof (f_equal (fun k => last (split_on "_" k) "") Hin) as Hs;
    cbv beta in Hs;
    rewrite tag_of_attrib_key in Ht; rewrite key_suffix_attrib in Hs;
    vm_compute in Ht, Hs; congruence.
Qed.

Lemma key_text_not_base t : good_tag t -> ~ In (t ++ "_text") base_keys.
Proof.
  intros (Hr & Hc & _) Hin. cbn [base_keys In] in Hin.
  repeat (destruct Hin as [Hin|Hin]); try contradiction;
    pose proof (f_equal tag_of_key Hin) as Ht;
    pose proof (f_equal (fun k => last (split_on "_" k) "") Hin) as Hs;
    cbv beta in Hs;
    rewrite tag_of_text_key in Ht; rewrite key_suffix_text in Hs;
    vm_compute in Ht, Hs; congruence.
Qed.

(** *** The reader on the elements the writer built *)






End RoundTripFacts.

Module WriteFacts.

Import PyStr PyStrFacts DictFacts ListFacts WrapDocFacts RowFacts ShapeFacts
       RoundTripFacts.
Local Open Scope string_scope.

Lemma write_child_inv m t child : write_child m t = Ret child -> written_child m t child.
Proof.
  unfold write_child. intros H.
  destruct (Dict.get (t ++ "_attrib") m) as [attrib|] eqn:Ea; [|discriminate].
  cbn [or_raise bind] in H.
  destruct attrib as [s| |a|r]; try discriminate.
  cbn [element_attrib] in H.
  destruct (Dict.get "attrib" a); [discriminate|]. cbn [bind] in H.
  destruct (get_rows (t ++ "_text") m) as [rows| |] eqn:Er; try discriminate.
  cbn [bind] in H. inversion H; subst.
  exists a, rows. split; [assumption|]. split; [now apply get_rows_ret | reflexivity].
Qed.











End WriteFacts.

(** ** Round trip and order of the pipeline *)

Section PipelineProperties.

Import PyNumFacts DictFacts ListFacts WrapDocFacts RelocFacts RowFacts ShapeFacts
       RoundTripFacts WriteFacts.
Local Open Scope string_scope.










End PipelineProperties.

(** ** The bond graph of [get_bond_dict] *)

Module BondGraphFacts.
Import DictFacts ListFacts WrapDocFacts RelocFacts.
Local Open Scope Z_scope.

Lemma pyobj_eqb_int i j : pyobj_eqb (PInt i) (PInt j) = (i =? j).
Proof. reflexivity. Qed.

Lemma pyobj_eqb_refl k : pyobj_eqb k k = true.
Proof. destruct k; simpl; [apply Z.eqb_refl | apply String.eqb_refl]. Qed.

Lemma bd_get_set k k' v d :
  bd_get k (bd_set k' v d) = if pyobj_eqb k k' then Some v else bd_get k d.
Proof.
  induction d as [|[k0 v0] d IH]; cbn [bd_set bd_get].
  - reflexivity.
  - destruct (pyobj_eqb k' k0) eqn:E0; cbn [bd_get].
    + destruct (pyobj_eqb k k') eqn:E; [reflexivity|].
      destruct (pyobj_eqb k k0) eqn:E1; [|reflexivity].
      exfalso. destruct k, k', k0; simpl in *; try discriminate.
      * apply Z.eqb_eq in E0, E1. subst. now rewrite Z.eqb_refl in E.
      * apply String.eqb_eq in E0, E1. subst. now rewrite String.eqb_refl in E.
    + destruct (pyobj_eqb k k0) eqn:E1.
      * destruct (pyobj_eqb k k') eqn:E; [|reflexivity].
        exfalso. destruct k, k', k0; simpl in *; try discriminate.
        -- apply Z.eqb_eq in E, E1. subst. now rewrite Z.eqb_refl in E0.
        -- apply String.eqb_eq in E, E1. subst. now rewrite String.eqb_refl in E0.
      * exact IH.
Qed.

(** The dictionary [{atom_id: [] for atom_id in range(n)}]. *)
Lemma bd_get_initial n k :
  bd_get k (map (fun i => (PInt (Z.of_nat i), @nil Z)) (seq 0 n))
  = match k with
    | PInt i => if (0 <=? i) && (i <? Z.of_nat n) then Some [] else None
    | PStr _ => None
    end.
Proof.
  assert (H : forall s, bd_get k (map (fun i => (PInt (Z.of_nat i), @nil Z)) (seq s n))
            = match k with
              | PInt i => if (Z.of_nat s <=? i) && (i <? Z.of_nat (s + n)) then Some [] else None
              | PStr _ => None
              end).
  { induction n as [|n IH]; intros s; cbn [seq map bd_get].
    - destruct k as [i|]; [|reflexivity].
      destruct (Z.leb_spec (Z.of_nat s) i); destruct (Z.ltb_spec i (Z.of_nat (s + 0)));
        try reflexivity; lia.
    - rewrite IH. destruct k as [i|]; cbn [pyobj_eqb]; [|reflexivity].
      destruct (Z.eqb_spec i (Z.of_nat s)).
      + subst. destruct (Z.leb_spec (Z.of_nat s) (Z.of_nat s));
          destruct (Z.ltb_spec (Z.of_nat s) (Z.of_nat (s + S n))); try reflexivity; lia.
      + destruct (Z.leb_spec (Z.of_nat (S s)) i); destruct (Z.ltb_spec i (Z.of_nat (S s + n)));
          destruct (Z.leb_spec (Z.of_nat s) i); destruct (Z.ltb_spec i (Z.of_nat (s + S n)));
          cbn [andb]; try reflexivity; lia. }
  exact (H 0%nat).
Qed.

Lemma add_bond_inv d bond d' :
  add_bond d bond = Ret d' ->
  exists a b, bond_ends bond = Ret (a, b)
              /\ bd_get (PInt a) d <> None /\ bd_get (PInt b) d <> None
              /\ grown [(a, b)] d d'.
Proof.
  unfold add_bond, bond_ends. intros H.
  destruct (py_index bond 1) as [t1|]; try discriminate. cbn [or_raise bind] in *.
  destruct (to_int t1) as [i1| |]; try discriminate. cbn [bind] in *.
  destruct (bd_get (PInt i1) d) as [l1|] eqn:E1; try discriminate. cbn [or_raise bind] in *.
  destruct (py_index bond 2) as [t2|]; try discriminate. cbn [or_raise bind] in *.
  destruct (to_int t2) as [i2| |]; try discriminate. cbn [bind] in *.
  destruct (bd_get (PInt i2) (bd_set (PInt i1) (l1 ++ [i2])%list d)) as [l2|] eqn:E2;
    try discriminate.
  cbn [or_raise bind] in H. inversion H; subst d'; clear H.
  rewrite bd_get_set, pyobj_eqb_int in E2.
  exists i1, i2. split; [reflexivity|]. split; [congruence|]. split.
  { destruct (Z.eqb_spec i2 i1); [subst; congruence | congruence]. }
  intros k. rewrite !bd_get_set. unfold neighbours_of.
  destruct k as [i|s]; cbn [pyobj_eqb].
  - cbn [flat_map]. rewrite app_nil_r. unfold partners. cbn [fst snd].
    rewrite (Z.eqb_sym i i2), (Z.eqb_sym i i1).
    destruct (Z.eqb_spec i2 i) as [Ei2|Hn2]; destruct (Z.eqb_spec i1 i) as [Ei1|Hn1].
    + subst i1 i2. rewrite Z.eqb_refl in E2. inversion E2; subst l2.
      rewrite E1. now rewrite <- app_assoc.
    + subst i2. destruct (Z.eqb_spec i i1); [congruence|]. rewrite E2. reflexivity.
    + subst i1. rewrite E1. reflexivity.
    + destruct (bd_get (PInt i) d); [now rewrite app_nil_r | reflexivity].
  - destruct (bd_get (PStr s) d); reflexivity.
Qed.

Lemma grown_nil d : grown [] d d.
Proof.
  intros k. destruct (bd_get k d) as [l|]; [|reflexivity].
  destruct k; [|reflexivity]. cbn. now rewrite app_nil_r.
Qed.

Lemma grown_trans e1 e2 d1 d2 d3 :
  grown e1 d1 d2 -> grown e2 d2 d3 -> grown (e1 ++ e2) d1 d3.
Proof.
  intros H1 H2 k. rewrite H2, H1.
  destruct (bd_get k d1) as [l|]; [|reflexivity].
  destruct k as [i|]; [|reflexivity].
  unfold neighbours_of. now rewrite flat_map_app, app_assoc.
Qed.

Lemma grown_keeps_keys e d d' k : grown e d d' -> (bd_get k d' <> None <-> bd_get k d <> None).
Proof.
  intros H. rewrite H. destruct (bd_get k d); [|tauto].
  destruct k; split; congruence.
Qed.

Lemma add_bonds_inv bonds : forall d d',
  add_bonds d bonds = Ret d' ->
  exists ends, mapM bond_ends bonds = Ret ends
               /\ Forall (fun ab => bd_get (PInt (fst ab)) d <> None
                                    /\ bd_get (PInt (snd ab)) d <> None) ends
               /\ grown ends d d'.
Proof.
  induction bonds as [|bond bonds IH]; intros d d' H; cbn [add_bonds] in H.
  - inversion H; subst. exists []. repeat split; [constructor | apply grown_nil].
  - destruct (add_bond d bond) as [d1| |] eqn:E; try discriminate. cbn [bind] in H.
    apply add_bond_inv in E as (a & b & Hab & Ha & Hb & Hg).
    destruct (IH _ _ H) as (ends & Hends & Hall & Hg').
    exists ((a, b) :: ends). cbn [mapM]. rewrite Hab. cbn [bind]. rewrite Hends.
    cbn [bind]. split; [reflexivity|]. split.
    + constructor; [cbn [fst snd]; tauto|].
      eapply Forall_impl; [|exact Hall]. cbv beta. intros ab.
      now rewrite !(grown_keeps_keys _ _ _ _ Hg).
    + exact (grown_trans [(a, b)] ends _ _ _ Hg Hg').
Qed.

Lemma initial_has n i :
  bd_get (PInt i) (map (fun i => (PInt (Z.of_nat i), @nil Z)) (seq 0 n)) <> None
  <-> 0 <= i < Z.of_nat n.
Proof.
  rewrite bd_get_initial.
  destruct (Z.leb_spec 0 i); destruct (Z.ltb_spec i (Z.of_nat n)); cbn [andb];
    split; intros; try congruence; lia.
Qed.

Lemma get_bond_dict_inv m bd :
  get_bond_dict m = Ret bd ->
  exists types bonds ends,
    get_rows "type_text" m = Ret types
    /\ get_rows "bond_text" m = Ret bonds
    /\ mapM bond_ends bonds = Ret ends
    /\ Forall (ends_known (length types)) ends
    /\ forall k, bd_get k bd
                 = match k with
                   | PInt i => if (0 <=? i) && (i <? Z.of_nat (length types))
                               then Some (neighbours_of i ends) else None
                   | PStr _ => None
                   end.
Proof.
  unfold get_bond_dict. intros H.
  destruct (get_rows "type_text" m) as [types| |]; try discriminate. cbn [bind] in H.
  destruct (get_rows "bond_text" m) as [bonds| |]; try discriminate. cbn [bind] in H.
  apply add_bonds_inv in H as (ends & Hends & Hall & Hg).
  exists types, bonds, ends. repeat split; try assumption.
  - eapply Forall_impl; [|exact Hall]. cbv beta. intros ab.
    rewrite !initial_has. unfold ends_known. tauto.
  - intros k. rewrite Hg, bd_get_initial. destruct k as [i|]; [|reflexivity].
    destruct ((0 <=? i) && (i <? Z.of_nat (length types))); reflexivity.
Qed.

Lemma count_partners i j ab :
  count_occ Z.eq_dec (partners i ab) j = count_occ Z.eq_dec (partners j ab) i.
Proof.
  destruct ab as [a b]. unfold partners. cbn [fst snd].
  destruct (Z.eq_dec i j) as [->|Hij]; [reflexivity|].
  rewrite !count_occ_app.
  destruct (Z.eqb_spec a i), (Z.eqb_spec b i), (Z.eqb_spec a j), (Z.eqb_spec b j);
    subst; cbn [count_occ];
    repeat match goal with
           | |- context [Z.eq_dec ?x ?y] => destruct (Z.eq_dec x y)
           end; try reflexivity; congruence.
Qed.

Lemma count_neighbours i j ends :
  count_occ Z.eq_dec (neighbours_of i ends) j = count_occ Z.eq_dec (neighbours_of j ends) i.
Proof.
  unfold neighbours_of. induction ends as [|ab ends IH]; [reflexivity|].
  cbn [flat_map]. rewrite !count_occ_app, IH. f_equal. apply count_partners.
Qed.

Lemma add_bond_known d bond a b :
  bond_ends bond = Ret (a, b) ->
  bd_get (PInt a) d <> None -> bd_get (PInt b) d <> None ->
  exists d', add_bond d bond = Ret d'.
Proof.
  unfold add_bond, bond_ends. intros H Ha Hb.
  destruct (py_index bond 1) as [t1|]; try discriminate. cbn [or_raise bind] in *.
  destruct (to_int t1) as [i1| |]; try discriminate. cbn [bind] in *.
  destruct (py_index bond 2) as [t2|]; try discriminate. cbn [or_raise bind] in *.
  destruct (to_int t2) as [i2| |]; try discriminate. cbn [bind] in *.
  inversion H; subst i1 i2; clear H.
  destruct (bd_get (PInt a) d) as [l1|]; [|congruence]. cbn [or_raise bind].
  rewrite bd_get_set, pyobj_eqb_int.
  destruct (b =? a); [cbn [or_raise bind]; eauto|].
  destruct (bd_get (PInt b) d) as [l2|]; [|congruence]. cbn [or_raise bind]. eauto.
Qed.

Lemma add_bond_unknown d bond a b :
  bond_ends bond = Ret (a, b) ->
  bd_get (PInt a) d = None \/ bd_get (PInt b) d = None ->
  add_bond d bond = Raise KeyError.
Proof.
  unfold add_bond, bond_ends. intros H Hab.
  destruct (py_index bond 1) as [t1|]; try discriminate. cbn [or_raise bind] in *.
  destruct (to_int t1) as [i1| |]; try discriminate. cbn [bind] in *.
  destruct (py_index bond 2) as [t2|]; try discriminate. cbn [or_raise bind] in *.
  destruct (to_int t2) as [i2| |]; try discriminate. cbn [bind] in *.
  inversion H; subst i1 i2; clear H.
  destruct (bd_get (PInt a) d) as [l1|] eqn:Ea; [|reflexivity]. cbn [or_raise bind].
  destruct Hab as [Hab|Hab]; [discriminate|].
  rewrite bd_get_set, pyobj_eqb_int.
  destruct (Z.eqb_spec b a); [congruence|]. now rewrite Hab.
Qed.

Lemma add_bonds_known bonds : forall ends d,
  mapM bond_ends bonds = Ret ends ->
  Forall (fun ab => bd_get (PInt (fst ab)) d <> None
                    /\ bd_get (PInt (snd ab)) d <> None) ends ->
  exists d', add_bonds d bonds = Ret d'.
Proof.
  induction bonds as [|bond bonds IH]; intros ends d Hends Hall; cbn [add_bonds].
  - eauto.
  - cbn [mapM] in Hends.
    destruct (bond_ends bond) as [[a b]| |] eqn:Eb; try discriminate. cbn [bind] in Hends.
    destruct (mapM bond_ends bonds) as [ends'| |] eqn:Em; try discriminate.
    cbn [bind] in Hends. inversion Hends; subst ends; clear Hends.
    inversion Hall as [|? ? [Ha Hb] Hall']; subst. cbn [fst snd] in Ha, Hb.
    destruct (add_bond_known d bond a b Eb Ha Hb) as [d1 Hd1].
    rewrite Hd1. cbn [bind].
    apply add_bond_inv in Hd1 as (a1 & b1 & _ & _ & _ & Hg).
    apply (IH ends' d1 eq_refl).
    eapply Forall_impl; [|exact Hall']. cbv beta. intros ab.
    now rewrite !(grown_keeps_keys _ _ _ _ Hg).
Qed.

Lemma add_bonds_unknown bonds : forall ends d,
  mapM bond_ends bonds = Ret ends ->
  Exists (fun ab => bd_get (PInt (fst ab)) d = None
                    \/ bd_get (PInt (snd ab)) d = None) ends ->
  add_bonds d bonds = Raise KeyError.
Proof.
  induction bonds as [|bond bonds IH]; intros ends d Hends Hex; cbn [add_bonds].
  - inversion Hends; subst. inversion Hex.
  - cbn [mapM] in Hends.
    destruct (bond_ends bond) as [[a b]| |] eqn:Eb; try discriminate. cbn [bind] in Hends.
    destruct (mapM bond_ends bonds) as [ends'| |] eqn:Em; try discriminate.
    cbn [bind] in Hends. inversion Hends; subst ends; clear Hends.
    destruct (bd_get (PInt a) d) as [la|] eqn:Ea;
      [|rewrite (add_bond_unknown d bond a b Eb) by auto; reflexivity].
    destruct (bd_get (PInt b) d) as [lb|] eqn:Ebd;
      [|rewrite (add_bond_unknown d bond a b Eb) by auto; reflexivity].
    destruct (add_bond_known d bond a b Eb) as [d1 Hd1]; [congruence | congruence |].
    rewrite Hd1. cbn [bind].
    apply add_bond_inv in Hd1 as (a1 & b1 & _ & _ & _ & Hg).
    apply (IH ends' d1 eq_refl).
    inversion Hex as [? ? [H|H]|? ? Hex']; subst; cbn [fst snd] in *; try congruence.
    eapply Exists_impl; [|exact Hex']. cbv beta. intros ab [H|H]; [left|right].
    + destruct (bd_get (PInt (fst ab)) d1) eqn:E; [exfalso|reflexivity].
      eapply (proj1 (grown_keeps_keys _ _ _ _ Hg)); [rewrite E; discriminate | exact H].
    + destruct (bd_get (PInt (snd ab)) d1) eqn:E; [exfalso|reflexivity].
      eapply (proj1 (grown_keeps_keys _ _ _ _ Hg)); [rewrite E; discriminate | exact H].
Qed.

(** Each bond between known particles puts two entries into the lists. *)
Lemma count_hits (n : nat) a :
  list_sum (map (fun i => if a =? Z.of_nat i then 1%nat else 0%nat) (seq 0 n))
  = if (0 <=? a) && (a <? Z.of_nat n) then 1%nat else 0%nat.
Proof.
  induction n as [|n IH].
  - cbn. destruct (Z.leb_spec 0 a); destruct (Z.ltb_spec a 0); try reflexivity; lia.
  - rewrite seq_S, map_app, list_sum_app, IH. cbn [map list_sum Nat.add].
    destruct (Z.eqb_spec a (Z.of_nat n));
      destruct (Z.leb_spec 0 a); destruct (Z.ltb_spec a (Z.of_nat n));
      destruct (Z.ltb_spec a (Z.of_nat (S n))); cbn [andb];
      unfold list_sum; cbn [fold_right Nat.add]; lia.
Qed.

Lemma length_partners i ab :
  length (partners i ab)
  = ((if (fst ab =? i)%Z then 1 else 0) + (if (snd ab =? i)%Z then 1 else 0))%nat.
Proof.
  unfold partners. rewrite length_app.
  destruct (fst ab =? i), (snd ab =? i); reflexivity.
Qed.

Lemma list_sum_add {A} (f g : A -> nat) l :
  list_sum (map (fun x => (f x + g x)%nat) l)
  = (list_sum (map f l) + list_sum (map g l))%nat.
Proof. induction l as [|x l IH]; simpl; lia. Qed.

Lemma degree_sum (n : nat) ends :
  Forall (ends_known n) ends ->
  list_sum (map (fun i => length (neighbours_of (Z.of_nat i) ends)) (seq 0 n))
  = (2 * length ends)%nat.
Proof.
  induction ends as [|ab ends IH]; intros Hall.
  - cbn [neighbours_of flat_map length]. clear. generalize (seq 0 n) as l.
    induction l; cbn; auto.
  - inversion Hall as [|? ? [Ha Hb] Hall']; subst.
    unfold neighbours_of in *. cbn [flat_map length].
    rewrite (map_ext _ (fun i => (length (partners (Z.of_nat i) ab)
                                  + length (flat_map (partners (Z.of_nat i)) ends))%nat))
      by (intros i; apply length_app).
    rewrite list_sum_add, (IH Hall').
    rewrite (map_ext _ (fun i => ((if (fst ab =? Z.of_nat i)%Z then 1 else 0)
                                  + (if (snd ab =? Z.of_nat i)%Z then 1 else 0))%nat))
      by (intros i; apply length_partners).
    rewrite list_sum_add, !count_hits.
    destruct (Z.leb_spec 0 (fst ab)); destruct (Z.ltb_spec (fst ab) (Z.of_nat n));
      destruct (Z.leb_spec 0 (snd ab)); destruct (Z.ltb_spec (snd ab) (Z.of_nat n));
      cbn [andb]; lia.
Qed.

End BondGraphFacts.

Section BondGraphProperties.
Import DictFacts ListFacts WrapDocFacts RelocFacts BondGraphFacts.
Local Open Scope Z_scope.

(** X1.  When [get_bond_dict] returns, the dictionary has one key per
    row of the type section, the integers from 0 on, and nothing else;
    the list under particle [i] holds the other end of every bond that
    names [i], once per bond and in the order of the bond rows. *)
Theorem bond_graph_lists_partners_in_bond_order m bd :
  get_bond_dict m = Ret bd ->
  exists types bonds ends,
    get_rows "type_text" m = Ret types
    /\ get_rows "bond_text" m = Ret bonds
    /\ mapM bond_ends bonds = Ret ends
    /\ (forall i, 0 <= i < Z.of_nat (length types) ->
          bd_get (PInt i) bd = Some (neighbours_of i ends))
    /\ (forall k, (forall i, 0 <= i < Z.of_nat (length types) -> k <> PInt i) ->
          bd_get k bd = None).
Proof.
  intros H. apply get_bond_dict_inv in H as (types & bonds & ends & Ht & Hb & He & _ & Hg).
  exists types, bonds, ends. repeat split; try assumption.
  - intros i Hi. rewrite Hg.
    destruct (Z.leb_spec 0 i); destruct (Z.ltb_spec i (Z.of_nat (length types)));
      try reflexivity; lia.
  - intros k Hk. rewrite Hg. destruct k as [i|]; [|reflexivity].
    destruct (Z.leb_spec 0 i); destruct (Z.ltb_spec i (Z.of_nat (length types)));
      try reflexivity. cbn [andb]. exfalso. apply (Hk i); [lia | reflexivity].
Qed.

(** X2.  The bond graph is symmetric: particle [j] stands in the list
    of [i] as many times as [i] stands in the list of [j], so each is
    a neighbour of the other or neither is. *)
Theorem bond_graph_symmetric m bd i j li lj :
  get_bond_dict m = Ret bd ->
  bd_get (PInt i) bd = Some li -> bd_get (PInt j) bd = Some lj ->
  count_occ Z.eq_dec li j = count_occ Z.eq_dec lj i /\ (In j li <-> In i lj).
Proof.
  intros H Hi Hj.
  apply get_bond_dict_inv in H as (types & bonds & ends & _ & _ & _ & _ & Hg).
  rewrite Hg in Hi, Hj.
  destruct ((0 <=? i) && (i <? Z.of_nat (length types))); [|discriminate].
  destruct ((0 <=? j) && (j <? Z.of_nat (length types))); [|discriminate].
  inversion Hi; inversion Hj; subst.
  pose proof (count_neighbours i j ends) as Hc. split; [exact Hc|].
  rewrite !(count_occ_In Z.eq_dec), Hc. tauto.
Qed.

(** X3.  Every bond row is entered twice: the lengths of the
    neighbour lists of all particles add up to twice the number of
    bond rows. *)
Theorem bond_graph_degree_sum m bd :
  get_bond_dict m = Ret bd ->
  exists types bonds,
    get_rows "type_text" m = Ret types
    /\ get_rows "bond_text" m = Ret bonds
    /\ list_sum (map (fun i => match bd_get (PInt (Z.of_nat i)) bd with
                               | Some l => length l
                               | None => 0%nat
                               end) (seq 0 (length types)))
       = (2 * length bonds)%nat.
Proof.
  intros H. apply get_bond_dict_inv in H as (types & bonds & ends & Ht & Hb & He & Hk & Hg).
  exists types, bonds. repeat split; try assumption.
  rewrite <- (mapM_length _ _ _ He), <- (degree_sum _ _ Hk).
  f_equal. apply map_ext_in. intros i Hi. apply in_seq in Hi. rewrite Hg.
  destruct (Z.leb_spec 0 (Z.of_nat i));
    destruct (Z.ltb_spec (Z.of_nat i) (Z.of_nat (length types))); try reflexivity; lia.
Qed.

(** X4.  [get_bond_dict] has no guard on the indices of a bond.  On a
    document whose bond rows name integers, it returns when both ends
    of every bond are particle indices ([0 <= i <] number of type
    rows), and it raises [KeyError] as soon as one end is not: a
    negative index is not counted from the end. *)
Theorem bond_graph_needs_known_particles m types bonds ends :
  get_rows "type_text" m = Ret types ->
  get_rows "bond_text" m = Ret bonds ->
  mapM bond_ends bonds = Ret ends ->
  (Forall (ends_known (length types)) ends -> exists bd, get_bond_dict m = Ret bd)
  /\ (Exists (fun ab => ~ ends_known (length types) ab) ends ->
      get_bond_dict m = Raise KeyError).
Proof.
  intros Ht Hb He. unfold get_bond_dict. rewrite Ht, Hb. cbn [bind]. split.
  - intros Hall. apply (add_bonds_known bonds ends _ He).
    eapply Forall_impl; [|exact Hall]. cbv beta. intros ab [Ha Hb'].
    now rewrite !initial_has.
  - intros Hex. apply (add_bonds_unknown bonds ends _ He).
    eapply Exists_impl; [|exact Hex]. cbv beta. intros ab Hn.
    destruct (bd_get (PInt (fst ab)) _) eqn:Ea; [|now left].
    destruct (bd_get (PInt (snd ab)) _) eqn:Eb; [|now right].
    exfalso. apply Hn. split; apply initial_has; congruence.
Qed.

End BondGraphProperties.

(** The properties above at work on example inputs. *)

Section BondGraphExamples.

Lemma bond_graph_lists_partners_in_bond_order_witness :
  exists types bonds ends,
    get_rows "type_text" star_doc = Ret types
    /\ get_rows "bond_text" star_doc = Ret bonds
    /\ mapM bond_ends bonds = Ret ends
    /\ (forall i, 0 <= i < Z.of_nat (length types) ->
          bd_get (PInt i) [(PInt 0, [1; 2]); (PInt 1, [0]); (PInt 2, [0])]
          = Some (neighbours_of i ends))
    /\ (forall k, (forall i, 0 <= i < Z.of_nat (length types) -> k <> PInt i) ->
          bd_get k [(PInt 0, [1; 2]); (PInt 1, [0]); (PInt 2, [0])] = None).
Proof.
  apply (bond_graph_lists_partners_in_bond_order star_doc
           [(PInt 0, [1; 2]); (PInt 1, [0]); (PInt 2, [0])]).
  reflexivity.
Defined.

Lemma bond_graph_symmetric_witness :
  count_occ Z.eq_dec [1; 2] 1 = count_occ Z.eq_dec [0] 0 /\ (In 1 [1; 2] <-> In 0 [0]).
Proof.
  apply (bond_graph_symmetric star_doc
           [(PInt 0, [1; 2]); (PInt 1, [0]); (PInt 2, [0])] 0 1 [1; 2] [0]);
    reflexivity.
Defined.

Lemma bond_graph_degree_sum_witness :
  exists types bonds,
    get_rows "type_text" star_doc = Ret types
    /\ get_rows "bond_text" star_doc = Ret bonds
    /\ list_sum (map (fun i =>
                        match bd_get (PInt (Z.of_nat i))
                                [(PInt 0, [1; 2]); (PInt 1, [0]); (PInt 2, [0])] with
                        | Some l => length l
                        | None => 0%nat
                        end) (seq 0 (length types)))
       = (2 * length bonds)%nat.
Proof.
  apply (bond_graph_degree_sum star_doc [(PInt 0, [1; 2]); (PInt 1, [0]); (PInt 2, [0])]).
  reflexivity.
Defined.

Lemma bond_graph_needs_known_particles_witness :
  (Forall (ends_known 3) [(0, 1); (0, 2)] -> exists bd, get_bond_dict star_doc = Ret bd)
  /\ (Exists (fun ab => ~ ends_known 3 ab) [(0, 1); (0, 2)] ->
      get_bond_dict star_doc = Raise KeyError).
Proof.
  apply (bond_graph_needs_known_particles star_doc [["C"]; ["C"]; ["C"]]
           [["polymer"; "0"; "1"]; ["polymer"; "0"; "2"]] [(0, 1); (0, 2)]);
    reflexivity.
Defined.

End BondGraphExamples.

(** ** The rule of the scan in [check_bonds] *)

Module ScanFacts.
Import PyNumFacts DictFacts ListFacts WrapDocFacts RelocFacts.
Local Open Scope Z_scope.

Lemma mapM_ext {A B} (f g : A -> result B) xs :
  (forall x, In x xs -> f x = g x) -> mapM f xs = mapM g xs.
Proof.
  induction xs as [|x xs IH]; intros H; cbn [mapM]; [reflexivity|].
  rewrite (H x) by (now left). rewrite IH by (intros y Hy; apply H; now right).
  reflexivity.
Qed.

Lemma negated_map2 : forall a b,
  negated (map (fun p => fsub (fst p) (snd p)) (combine a b))
          (map (fun p => fsub (fst p) (snd p)) (combine b a)).
Proof.
  induction a as [|x a IH]; intros [|y b]; cbn [combine map]; try constructor.
  - cbn [fst snd]. rewrite !Qof_fsub. ring.
  - apply IH.
Qed.

Lemma np_map2_fsub_swap a b d :
  np_map2 fsub a b = Ret d -> exists d', np_map2 fsub b a = Ret d' /\ negated d d'.
Proof.
  unfold np_map2. rewrite (Nat.eqb_sym (length b) (length a)).
  destruct (Nat.eqb (length a) (length b)) eqn:E.
  - intros [= <-]. eexists. split; [reflexivity | apply negated_map2].
  - assert (Hmap : forall x l, negated (map (fsub x) l) (map (fun y => fsub y x) l)).
    { intros x l. induction l as [|y l IH]; constructor; [|exact IH].
      rewrite !Qof_fsub. ring. }
    assert (Hmap' : forall x l, negated (map (fun y => fsub y x) l) (map (fsub x) l)).
    { intros x l. induction l as [|y l IH]; constructor; [|exact IH].
      rewrite !Qof_fsub. ring. }
    destruct a as [|x [|x' a]]; destruct b as [|y [|y' b]]; cbn in E; try discriminate;
      intros [= <-]; eexists; (split; [reflexivity|]);
      unfold negated;
      repeat (constructor; [rewrite !Qof_fsub; ring|]);
      first [exact (Hmap _ _) | exact (Hmap' _ _) | constructor].
Qed.

Lemma negated_nth d d' n :
  negated d d' ->
  match nth_error d n with
  | Some x => exists x', nth_error d' n = Some x' /\ (Qof x' == - Qof x)%Q
  | None => nth_error d' n = None
  end.
Proof.
  intros H. revert n. induction H as [|x x' d d' Hx H IH]; intros [|n]; cbn [nth_error];
    [reflexivity | reflexivity | eauto | apply IH].
Qed.

Lemma fgtb_ext x x' h : (Qof x' == Qof x)%Q -> fgtb x' h = fgtb x h.
Proof.
  intros Hq. destruct (fgtb x h) eqn:E.
  - apply fgtb_spec. apply fgtb_spec in E. now rewrite Hq.
  - apply fgtb_false. apply fgtb_false in E. now rewrite Hq.
Qed.

Lemma fgtb_fabs_neg x x' h : (Qof x' == - Qof x)%Q -> fgtb (fabs x') h = fgtb (fabs x) h.
Proof.
  intros Hq. apply fgtb_ext. rewrite !Qof_fabs, Hq. apply Qabs_opp.
Qed.

Lemma axis_flags_negated d d' box : negated d d' -> axis_flags d' box = axis_flags d box.
Proof.
  intros H. unfold axis_flags. apply mapM_ext. intros axis _.
  pose proof (negated_nth d d' axis H) as Hn.
  destruct (nth_error d axis) as [x|].
  - destruct Hn as (x' & -> & Hq). cbn [or_raise bind].
    destruct (nth_error box axis); cbn [or_raise bind]; [|reflexivity].
    now rewrite (fgtb_fabs_neg x x').
  - now rewrite Hn.
Qed.

Lemma bond_out_of_range_inv m bond box flag :
  bond_out_of_range m bond box = Ret flag ->
  exists posn1 posn2 delta flags,
    bond_endpoint m box (py_index bond 1) = Ret posn1
    /\ bond_endpoint m box (py_index bond 2) = Ret posn2
    /\ np_map2 fsub posn1 posn2 = Ret delta
    /\ axis_flags delta box = Ret flags
    /\ flag = existsb (fun b => b) flags.
Proof.
  unfold bond_out_of_range. intros H.
  destruct (bond_endpoint m box (py_index bond 1)) as [posn1| |] eqn:E1; try discriminate.
  cbn [bind] in H.
  destruct (bond_endpoint m box (py_index bond 2)) as [posn2| |] eqn:E2; try discriminate.
  cbn [bind] in H.
  destruct (np_map2 fsub posn1 posn2) as [delta| |] eqn:Ed; try discriminate.
  cbn [bind] in H.
  fold (axis_flags delta box) in H.
  destruct (axis_flags delta box) as [flags| |] eqn:Ef; try discriminate. cbn [bind] in H.
  inversion H. exists posn1, posn2, delta, flags. repeat split; assumption.
Qed.

Lemma bond_out_of_range_intro m bond box posn1 posn2 delta flags :
  bond_endpoint m box (py_index bond 1) = Ret posn1 ->
  bond_endpoint m box (py_index bond 2) = Ret posn2 ->
  np_map2 fsub posn1 posn2 = Ret delta ->
  axis_flags delta box = Ret flags ->
  bond_out_of_range m bond box = Ret (existsb (fun b => b) flags).
Proof.
  intros H1 H2 Hd Hf. unfold bond_out_of_range. rewrite H1, H2. cbn [bind].
  rewrite Hd. cbn [bind]. fold (axis_flags delta box). now rewrite Hf.
Qed.






End ScanFacts.

Section ScanProperties.
Import PyNumFacts DictFacts ListFacts WrapDocFacts RelocFacts ScanFacts.
Local Open Scope Z_scope.

(** X5.  The flag of a bond does not depend on the order of its two
    particles: a bond row with the indices exchanged gets the same
    outcome of the scan. *)
Theorem scan_flag_is_symmetric m bond bond' box flag :
  py_index bond' 1 = py_index bond 2 ->
  py_index bond' 2 = py_index bond 1 ->
  bond_out_of_range m bond box = Ret flag ->
  bond_out_of_range m bond' box = Ret flag.
Proof.
  intros H1 H2 H.
  apply bond_out_of_range_inv in H as (posn1 & posn2 & delta & flags & E1 & E2 & Ed & Ef & ->).
  destruct (np_map2_fsub_swap _ _ _ Ed) as (delta' & Ed' & Hneg).
  apply (bond_out_of_range_intro m bond' box posn2 posn1 delta' flags);
    try congruence.
  now rewrite (axis_flags_negated _ _ _ Hneg).
Qed.



End ScanProperties.

(** The properties above at work on example inputs. *)

Section ScanExamples.

Lemma scan_flag_is_symmetric_witness :
  bond_out_of_range star_doc ["polymer"; "1"; "0"] [ten; ten; ten] = Ret true.
Proof.
  apply (scan_flag_is_symmetric star_doc ["polymer"; "0"; "1"] ["polymer"; "1"; "0"]
           [ten; ten; ten] true); reflexivity.
Defined.



End ScanExamples.

(** ** When the wrapper returns, and what it keeps *)

Module WrapEdgeFacts.
Import PyNumFacts PyPrintFacts DictFacts ListFacts WrapFacts WrapDocFacts.
Local Open Scope Q_scope.

Lemma while_above_diverges L hi : Qof L <= 0 ->
  forall fuel p i, fgtb p hi = true -> while_above fuel L hi p (Some i) = OutOfFuel.
Proof.
  intros HL. induction fuel as [|fuel IH]; intros p i Hp; cbn [while_above]; rewrite Hp.
  - reflexivity.
  - apply IH. apply fgtb_spec. apply fgtb_spec in Hp. rewrite Qof_fsub. lra.
Qed.

Lemma while_below_diverges L lo : Qof L <= 0 ->
  forall fuel p i, fltb p lo = true -> while_below fuel L lo p (Some i) = OutOfFuel.
Proof.
  intros HL. induction fuel as [|fuel IH]; intros p i Hp; cbn [while_below]; rewrite Hp.
  - reflexivity.
  - apply IH. apply fltb_spec. apply fltb_spec in Hp. rewrite Qof_fadd. lra.
Qed.

Lemma while_above_stops fuel L hi p i :
  fgtb p hi = false -> while_above fuel L hi p i = Ret (p, i).
Proof. intros H. destruct fuel; cbn [while_above]; now rewrite H. Qed.


Lemma wrap_axis_diverges fuel L p i :
  Qof L <= 0 -> ~ in_box L p -> wrap_axis fuel L p (Some i) = OutOfFuel.
Proof.
  intros HL Hout. unfold wrap_axis.
  destruct (fgtb p (fhalf L)) eqn:Ehi.
  - now rewrite (while_above_diverges L (fhalf L) HL fuel p i Ehi).
  - rewrite (while_above_stops _ _ _ _ _ Ehi). cbn [bind].
    apply while_below_diverges; [assumption|].
    destruct (fltb p (fhalf (fneg L))) eqn:Elo; [reflexivity|].
    exfalso. apply Hout. apply settled_in_box. now split.
Qed.



Lemma same_shape_refl {A} (rows : list (list A)) : same_shape rows rows.
Proof. induction rows; constructor; auto. Qed.

Lemma same_shape_trans {A B C} (r1 : list (list A)) (r2 : list (list B))
      (r3 : list (list C)) :
  same_shape r1 r2 -> same_shape r2 r3 -> same_shape r1 r3.
Proof.
  intros H. revert r3. induction H as [|x y r1 r2 Hxy H IH]; intros r3 H3;
    inversion H3; subst; constructor; [congruence | now apply IH].
Qed.

Lemma same_shape_map {A B} (f : A -> B) rows : same_shape rows (map (map f) rows).
Proof. induction rows; constructor; [apply length_map | assumption]. Qed.

Lemma same_shape_mapM {A B} (f : A -> result B) rows : forall rows',
  mapM (mapM f) rows = Ret rows' -> same_shape rows rows'.
Proof.
  induction rows as [|r rows IH]; intros rows' H; cbn [mapM] in H.
  - inversion H. constructor.
  - destruct (mapM f r) as [r'| |] eqn:Er; try discriminate. cbn [bind] in H.
    destruct (mapM (mapM f) rows) as [rs| |] eqn:Ers; try discriminate. cbn [bind] in H.
    inversion H; subst. constructor; [eapply mapM_length; eauto | now apply IH].
Qed.

Lemma same_shape_wrap_atoms fuel box : forall P I P' I',
  wrap_atoms fuel box P I = Ret (P', I') -> same_shape P P' /\ same_shape I I'.
Proof.
  induction P as [|prow P IH]; intros I P' I' H; cbn [wrap_atoms] in H.
  - inversion H; subst. split; [constructor | apply same_shape_refl].
  - destruct I as [|irow I].
    + destruct (wrap_atom fuel [0; 1; 2]%nat box prow []) as [[pr ir]| |] eqn:E0;
        try discriminate.
      cbn [bind] in H.
      destruct (wrap_atoms fuel box P []) as [[ps imgs]| |] eqn:Es; try discriminate.
      cbn [bind] in H. inversion H; subst.
      apply (wrap_atom_spec _ _ _ _ _ _ _ NoDup_axes) in E0 as (Hl & _).
      destruct (IH _ _ _ Es) as [HP _]. split; constructor; assumption.
    + destruct (wrap_atom fuel [0; 1; 2]%nat box prow irow) as [[pr ir]| |] eqn:E0;
        try discriminate.
      cbn [bind] in H.
      destruct (wrap_atoms fuel box P I) as [[ps imgs]| |] eqn:Es; try discriminate.
      cbn [bind] in H. inversion H; subst.
      apply (wrap_atom_spec _ _ _ _ _ _ _ NoDup_axes) in E0 as (Hl & Hli & _).
      destruct (IH _ _ _ Es) as [HP HI]. split; constructor; assumption.
Qed.

End WrapEdgeFacts.

Section WrapperEdgeProperties.
Import PyNumFacts PyPrintFacts DictFacts ListFacts WrapFacts WrapDocFacts WrapTotalFacts
       ShapeFacts WrapEdgeFacts.
Local Open Scope Q_scope.


(** X9.  The loops of the wrapper have no guard on the box length:
    on a document whose rows read as numbers, when [lx] is zero or
    negative and the first particle does not already sit inside that
    box on the x axis, the call does not return, whatever number of
    turns it is given. *)
Theorem wrap_never_returns_without_extent fuel m L box ptext p prow P itext i irow I :
  read_box_dims m = Ret (L :: box) ->
  get_rows "position_text" m = Ret ptext ->
  mapM row_floats ptext = Ret ((p :: prow) :: P) ->
  get_rows "image_text" m = Ret itext ->
  mapM row_ints itext = Ret ((i :: irow) :: I) ->
  Qof L <= 0 -> ~ in_box L p ->
  check_wrapped_positions fuel m = OutOfFuel.
Proof.
  intros Hbox Hpt HP Hit HI HL Hout. unfold check_wrapped_positions.
  rewrite Hbox, Hpt. cbn [bind]. rewrite HP. cbn [bind]. rewrite Hit. cbn [bind].
  rewrite HI. cbn [bind wrap_atoms wrap_atom nth_error or_raise].
  now rewrite (wrap_axis_diverges fuel L p i HL Hout).
Qed.


(** X11.  The wrapper rewrites the position and image rows and
    nothing else: the dictionary keeps its keys, every other entry is
    what it was, and the two sections keep their number of rows and
    the number of cells of every row. *)
Theorem wrap_keeps_every_row_and_section fuel m m' :
  check_wrapped_positions fuel m = Ret m' ->
  Dict.keys m' = Dict.keys m
  /\ (forall k, k <> "position_text"%string -> k <> "image_text"%string ->
        Dict.get k m' = Dict.get k m)
  /\ exists ptext itext ptext' itext',
       get_rows "position_text" m = Ret ptext
       /\ get_rows "image_text" m = Ret itext
       /\ get_rows "position_text" m' = Ret ptext'
       /\ get_rows "image_text" m' = Ret itext'
       /\ same_shape ptext ptext' /\ same_shape itext itext'.
Proof.
  intros H. destruct (wrapped_frame _ _ _ H) as [Hkeys Hframe].
  split; [assumption|]. split; [assumption|].
  apply check_wrapped_positions_inv in H
    as (box & ptext & P & itext & I & P' & I' & _ & Hpt & HP & Hit & HI & Hw & ->).
  exists ptext, itext, (map (map str_of_float) P'), (map (map str_of_int) I').
  destruct (same_shape_wrap_atoms _ _ _ _ _ _ Hw) as [HsP HsI].
  repeat split; try assumption.
  - apply get_rows_ret. rewrite get_set_neq by discriminate. apply get_set_eq.
  - apply get_rows_ret. apply get_set_eq.
  - eapply same_shape_trans; [eapply same_shape_mapM; eassumption|].
    eapply same_shape_trans; [eassumption | apply same_shape_map].
  - eapply same_shape_trans; [eapply same_shape_mapM; eassumption|].
    eapply same_shape_trans; [eassumption | apply same_shape_map].
Qed.

End WrapperEdgeProperties.

(** The properties above at work on example inputs. *)

Section WrapperEdgeExamples.


Lemma wrap_never_returns_without_extent_witness :
  check_wrapped_positions 7
    [("box_attrib", VDict [("lx", "0.0"); ("ly", "10.0"); ("lz", "10.0")]);
     ("position_text", VRows [["16"; "0"; "0"]]);
     ("image_text", VRows [["0"; "0"; "0"]])]
  = OutOfFuel.
Proof.
  apply (wrap_never_returns_without_extent 7
           [("box_attrib", VDict [("lx", "0.0"); ("ly", "10.0"); ("lz", "10.0")]);
            ("position_text", VRows [["16"; "0"; "0"]]);
            ("image_text", VRows [["0"; "0"; "0"]])]
           (PyFloat 0 1) [ten; ten]
           [["16"; "0"; "0"]] (PyFloat 16 0) [PyFloat 0 0; PyFloat 0 0] []
           [["0"; "0"; "0"]] 0 [0; 0] []); try reflexivity.
  - discriminate.
  - intros [_ H]. apply H. reflexivity.
Defined.


Lemma wrap_keeps_every_row_and_section_witness :
  Dict.keys wrap_example_out = Dict.keys wrap_example
  /\ (forall k, k <> "position_text" -> k <> "image_text" ->
        Dict.get k wrap_example_out = Dict.get k wrap_example)
  /\ exists ptext itext ptext' itext',
       get_rows "position_text" wrap_example = Ret ptext
       /\ get_rows "image_text" wrap_example = Ret itext
       /\ get_rows "position_text" wrap_example_out = Ret ptext'
       /\ get_rows "image_text" wrap_example_out = Ret itext'
       /\ same_shape ptext ptext' /\ same_shape itext itext'.
Proof.
  apply (wrap_keeps_every_row_and_section 5 wrap_example wrap_example_out).
  reflexivity.
Defined.

End WrapperEdgeExamples.

(** ** One relocation step on a bonded pair *)

Module PairFacts.
Import PyNumFacts PyPrintFacts DictFacts ListFacts WrapDocFacts RelocFacts ShiftFacts RingFacts.
Local Open Scope Z_scope.



















End PairFacts.

Section PairProperties.
Import PyNumFacts PyPrintFacts DictFacts ListFacts WrapDocFacts RelocFacts ShiftFacts
       RingFacts PairFacts.
Local Open Scope Z_scope.


End PairProperties.

(** The properties above at work on example inputs. *)

Section PairExamples.


End PairExamples.

(** ** What [load_morphology_xml] keeps of a file *)

Module LoadFacts.
Import PyStr PyStrFacts DictFacts ListFacts WrapDocFacts RowFacts ShapeFacts RoundTripFacts.
Local Open Scope string_scope.

Lemma fold_left_snoc {A B} (f : A -> B -> A) l x acc :
  fold_left f (l ++ [x]) acc = f (fold_left f l acc) x.
Proof. now rewrite fold_left_app. Qed.

Lemma last_section_snoc tag children c :
  last_section tag (children ++ [c])
  = if String.eqb (el_tag c) tag then Some c else last_section tag children.
Proof. unfold last_section. rewrite rev_app_distr. reflexivity. Qed.

Lemma last_section_app tag l1 l2 :
  last_section tag (l1 ++ l2)
  = match last_section tag l2 with
    | Some c => Some c
    | None => last_section tag l1
    end.
Proof.
  unfold last_section. rewrite rev_app_distr.
  induction (rev l2) as [|c l IH]; cbn [app find]; [reflexivity|].
  destruct (String.eqb (el_tag c) tag); [reflexivity | exact IH].
Qed.

Lemma last_section_in tag children c :
  last_section tag children = Some c -> In c children /\ el_tag c = tag.
Proof.
  unfold last_section. intros H. apply find_some in H as [Hin Heq].
  split; [now apply in_rev | now apply String.eqb_eq].
Qed.

Lemma last_attribute_snoc k a kv :
  last_attribute k (a ++ [kv])
  = if String.eqb (lower (fst kv)) k then Some (snd kv) else last_attribute k a.
Proof.
  unfold last_attribute. rewrite rev_app_distr. cbn [rev app find].
  now destruct (String.eqb (lower (fst kv)) k).
Qed.

Lemma get_lower_keys k : forall a, Dict.get k (lower_keys a) = last_attribute k a.
Proof.
  induction a as [|kv a IH] using rev_ind; [reflexivity|].
  unfold lower_keys in *. rewrite fold_left_snoc, last_attribute_snoc.
  destruct (String.eqb_spec (lower (fst kv)) k) as [<-|Hne].
  - apply get_set_eq.
  - rewrite get_set_neq by congruence. exact IH.
Qed.

Lemma get_load_child_text t m c :
  Dict.get (t ++ "_text") (load_child m c)
  = if String.eqb (el_tag c) t then Some (VRows (rows_of_text (el_text c)))
    else Dict.get (t ++ "_text") m.
Proof.
  destruct c as [tag a text cs]. cbn [load_child el_tag el_text].
  destruct (String.eqb_spec tag t) as [->|Hne].
  - apply get_set_eq.
  - rewrite get_set_neq by (intros E; apply key_text_inj in E; congruence).
    apply get_set_neq. apply not_eq_sym, key_attrib_text.
Qed.

Lemma get_load_child_attrib t m c :
  Dict.get (t ++ "_attrib") (load_child m c)
  = if String.eqb (el_tag c) t then Some (VDict (lower_keys (el_attrib c)))
    else Dict.get (t ++ "_attrib") m.
Proof.
  destruct c as [tag a text cs]. cbn [load_child el_tag el_attrib].
  rewrite get_set_neq by apply key_attrib_text.
  destruct (String.eqb_spec tag t) as [->|Hne].
  - apply get_set_eq.
  - apply get_set_neq. intros E; apply key_attrib_inj in E; congruence.
Qed.

Lemma get_fold_children t : forall children m,
  Dict.get (t ++ "_text") (fold_left load_child children m)
  = match last_section t children with
    | Some c => Some (VRows (rows_of_text (el_text c)))
    | None => Dict.get (t ++ "_text") m
    end
  /\ Dict.get (t ++ "_attrib") (fold_left load_child children m)
     = match last_section t children with
       | Some c => Some (VDict (lower_keys (el_attrib c)))
       | None => Dict.get (t ++ "_attrib") m
       end.
Proof.
  induction children as [|c children IH] using rev_ind; intros m; [split; reflexivity|].
  rewrite fold_left_snoc, last_section_snoc, get_load_child_text, get_load_child_attrib.
  destruct (String.eqb (el_tag c) t); [split; reflexivity | apply IH].
Qed.

Lemma get_load_config k m config :
  ~ In k base_keys ->
  Dict.get k (Dict.set "config_text" (text_value (el_text config))
                (Dict.set "config_attrib" (VDict (el_attrib config))
                   (Dict.set "config_tag" (VStr (el_tag config)) m)))
  = Dict.get k m.
Proof.
  intros H. cbn [base_keys In] in H.
  rewrite !get_set_neq; [reflexivity | | |]; intros E; apply H; subst k; tauto.
Qed.

Lemma load_config_eq m config :
  load_config m config
  = fold_left load_child (el_children config)
      (Dict.set "config_text" (text_value (el_text config))
         (Dict.set "config_attrib" (VDict (el_attrib config))
            (Dict.set "config_tag" (VStr (el_tag config)) m))).
Proof. now destruct config. Qed.

Lemma get_fold_configs t : good_tag t -> forall configs m,
  Dict.get (t ++ "_text") (fold_left load_config configs m)
  = match last_section t (flat_map el_children configs) with
    | Some c => Some (VRows (rows_of_text (el_text c)))
    | None => Dict.get (t ++ "_text") m
    end
  /\ Dict.get (t ++ "_attrib") (fold_left load_config configs m)
     = match last_section t (flat_map el_children configs) with
       | Some c => Some (VDict (lower_keys (el_attrib c)))
       | None => Dict.get (t ++ "_attrib") m
       end.
Proof.
  intros Hgood.
  induction configs as [|c configs IH] using rev_ind; intros m; [split; reflexivity|].
  rewrite fold_left_snoc, flat_map_app, last_section_app. cbn [flat_map].
  rewrite List.app_nil_r, load_config_eq.
  destruct (get_fold_children t (el_children c)
              (Dict.set "config_text" (text_value (el_text c))
                 (Dict.set "config_attrib" (VDict (el_attrib c))
                    (Dict.set "config_tag" (VStr (el_tag c))
                       (fold_left load_config configs m))))) as [-> ->].
  destruct (last_section t (el_children c)); [split; reflexivity|].
  rewrite !get_load_config
    by (apply key_text_not_base || apply key_attrib_not_base; assumption).
  apply IH.
Qed.

(** What the reader keeps of a section tag: the last element that
    carries it. *)
Lemma get_loaded t file : good_tag t ->
  Dict.get (t ++ "_text") (load_morphology_xml file)
  = option_map (fun c => VRows (rows_of_text (el_text c))) (last_section t (sections file))
  /\ Dict.get (t ++ "_attrib") (load_morphology_xml file)
     = option_map (fun c => VDict (lower_keys (el_attrib c)))
                  (last_section t (sections file)).
Proof.
  intros Hgood. destruct file as [tag attrib text configs].
  unfold sections. cbn [load_morphology_xml el_children].
  destruct (get_fold_configs t Hgood configs
              [("root_tag", VStr tag); ("root_attrib", VDict attrib);
               ("root_text", text_value text)]) as [-> ->].
  destruct (last_section t (flat_map el_children configs)); [split; reflexivity|].
  cbn [option_map]. split; apply get_none_not_in; intros Hin.
  - apply (key_text_not_base t Hgood). cbn [base_keys In].
    cbn [Dict.keys map fst In] in Hin. tauto.
  - apply (key_attrib_not_base t Hgood). cbn [base_keys In].
    cbn [Dict.keys map fst In] in Hin. tauto.
Qed.

End LoadFacts.

Section LoaderProperties.
Import PyStr PyStrFacts DictFacts ListFacts WrapDocFacts RowFacts ShapeFacts RoundTripFacts
       LoadFacts.
Local Open Scope string_scope.

(** X13.  [load_morphology_xml] keys a section by its tag alone.  Of
    the sections of a file that carry the same tag (other than [root]
    and [config]), under whichever child of the root they stand, the
    dictionary holds the rows and the attributes of the last one
    only; a tag no section carries has no entry. *)
Theorem load_keeps_the_last_section_of_a_tag tag file :
  good_tag tag ->
  Dict.get (tag ++ "_text") (load_morphology_xml file)
  = option_map (fun c => VRows (rows_of_text (el_text c)))
               (last_section tag (sections file))
  /\ Dict.get (tag ++ "_attrib") (load_morphology_xml file)
     = option_map (fun c => VDict (lower_keys (el_attrib c)))
                  (last_section tag (sections file)).
Proof. apply get_loaded. Qed.

(** X14.  The attributes of a section are stored under their names in
    lower case: a name in lower case finds the value of the last
    attribute spelt like it in any case, and a name with a capital
    letter finds nothing. *)
Theorem load_reads_attributes_by_lower_case_name k a :
  Dict.get k (lower_keys a) = last_attribute k a
  /\ (lower k <> k -> Dict.get k (lower_keys a) = None).
Proof.
  split; [apply get_lower_keys|].
  intros Hk. destruct (Dict.get k (lower_keys a)) as [v|] eqn:E; [|reflexivity].
  exfalso. apply get_in_keys in E.
  destruct (lowered_lower_keys a) as [_ Hlow].
  rewrite Forall_forall in Hlow. now apply Hk, Hlow.
Qed.

End LoaderProperties.

(** The properties above at work on example inputs. *)

Section LoaderExamples.

Lemma load_keeps_the_last_section_of_a_tag_witness :
  Dict.get ("position" ++ "_text") (load_morphology_xml straddling_file)
  = option_map (fun c => VRows (rows_of_text (el_text c)))
               (last_section "position" (sections straddling_file))
  /\ Dict.get ("position" ++ "_attrib") (load_morphology_xml straddling_file)
     = option_map (fun c => VDict (lower_keys (el_attrib c)))
                  (last_section "position" (sections straddling_file)).
Proof.
  apply (load_keeps_the_last_section_of_a_tag "position" straddling_file).
  repeat split; discriminate.
Defined.

End LoaderExamples.

(** ** What the writer and the pipeline need *)

Module PipelineFacts.
Import PyNumFacts PyPrintFacts PyStr PyStrFacts DictFacts ListFacts WrapFacts WrapDocFacts
       RelocFacts RowFacts ShapeFacts RoundTripFacts WriteFacts WrapEdgeFacts LoadFacts.
Local Open Scope string_scope.

Lemma get_some_in_keys {V} k (d : list (string * V)) :
  Dict.get k d <> None -> In k (Dict.keys d).
Proof.
  intros H. destruct (Dict.get k d) eqn:E; [|congruence]. eapply get_in_keys; eauto.
Qed.

Lemma or_raise_ret {A} e (o : option A) a : or_raise e o = Ret a -> o = Some a.
Proof. destruct o; simpl; intros H; inversion H; reflexivity. Qed.

(** What a successful write has read. *)
Lemma write_morphology_xml_reads fuel m out :
  write_morphology_xml fuel m = Ret out ->
  exists wrapped,
    check_wrapped_positions fuel m = Ret wrapped
    /\ (forall k, In k base_keys -> Dict.get k wrapped <> None)
    /\ Forall (fun t => exists child, write_child wrapped t = Ret child)
              (child_tags_of wrapped).
Proof.
  unfold write_morphology_xml. intros H.
  destruct (check_wrapped_positions fuel m) as [wrapped| |]; try discriminate.
  cbn [bind] in H. exists wrapped. split; [reflexivity|].
  destruct (Dict.get "root_tag" wrapped) eqn:E1; try discriminate. cbn [or_raise bind] in H.
  destruct (Dict.get "root_attrib" wrapped) eqn:E2; try discriminate.
  cbn [or_raise bind] in H.
  destruct (element_attrib v0); try discriminate. cbn [bind] in H.
  destruct (Dict.get "root_text" wrapped) eqn:E3; try discriminate.
  cbn [or_raise bind] in H.
  destruct (Dict.get "config_tag" wrapped) eqn:E4; try discriminate.
  cbn [or_raise bind] in H.
  destruct (Dict.get "config_attrib" wrapped) eqn:E5; try discriminate.
  cbn [or_raise bind] in H.
  destruct (element_attrib v3); try discriminate. cbn [bind] in H.
  destruct (Dict.get "config_text" wrapped) eqn:E6; try discriminate.
  cbn [or_raise bind] in H.
  destruct (mapM (write_child wrapped) (child_tags_of wrapped)) as [children| |] eqn:Ec;
    try discriminate.
  split.
  - intros k Hk. cbn [base_keys In] in Hk.
    repeat (destruct Hk as [<-|Hk]; [congruence|]). contradiction.
  - apply Forall_forall. intros t Ht. apply In_nth_error in Ht as [n Hn].
    pose proof (mapM_nth _ _ _ n Ec) as Hm. rewrite Hn in Hm.
    destruct Hm as (child & _ & Hchild). eauto.
Qed.

Lemma write_child_keys m t child :
  write_child m t = Ret child ->
  In (t ++ "_attrib") (Dict.keys m) /\ In (t ++ "_text") (Dict.keys m).
Proof.
  intros H. apply write_child_inv in H as (a & rows & Ha & Hr & _).
  split; eapply get_in_keys; eauto.
Qed.

Lemma tag_in_child_tags m k t :
  In k (Dict.keys m) -> tag_of_key k = t -> good_tag t -> In t (child_tags_of m).
Proof. apply child_tags_of_key. Qed.




Lemma zero_out_images_inv m m' :
  zero_out_images m = Ret m' ->
  exists positions num,
    get_rows "position_text" m = Ret positions
    /\ m' = Dict.set "image_attrib" (VDict [("num", num)])
              (Dict.set "image_text"
                 (VRows (repeat ["0"; "0"; "0"] (length positions))) m).
Proof.
  unfold zero_out_images. intros H.
  destruct (get_rows "position_text" m) as [positions| |] eqn:Ep; try discriminate.
  cbn [bind] in H.
  destruct (get_dict "position_attrib" _) as [pa| |]; try discriminate. cbn [bind] in H.
  destruct (Dict.get "num" pa) as [num|]; try discriminate. cbn [or_raise bind] in H.
  inversion H. eauto.
Qed.

Lemma get_zeroed k m m' :
  zero_out_images m = Ret m' -> k <> "image_text" -> k <> "image_attrib" ->
  Dict.get k m' = Dict.get k m.
Proof.
  intros H H1 H2. apply zero_out_images_inv in H as (positions & num & _ & ->).
  now rewrite !get_set_neq by assumption.
Qed.



(** What a successful run of the pipeline consists of. *)
Lemma fix_images_inv fuel file out :
  fix_images fuel file = Ret out ->
  exists m bd box,
    zero_out_images (load_morphology_xml file) = Ret m
    /\ get_bond_dict m = Ret bd
    /\ read_box_dims m = Ret box
    /\ write_morphology_xml fuel m = Ret out.
Proof.
  unfold fix_images. intros H.
  destruct (fix_images_scan_input file) as [[[m bd] box]| |] eqn:Escan; try discriminate.
  cbn [bind] in H.
  destruct (fix_images_scan_input_inv _ _ _ _ Escan) as (Hzero & Hbd & Hbox).
  pose proof (get_bond_dict_int_keyed _ _ Hbd) as Hint.
  destruct (check_bonds_int_keyed fuel m bd box Hint) as (Hfst & _ & _).
  destruct (check_bonds fuel m bd box) as [m' [u|e|]] eqn:Ec; try discriminate.
  cbn [fst] in Hfst. subst m'. exists m, bd, box. auto.
Qed.

End PipelineFacts.

Section WriterAndPipelineProperties.
Import PyNumFacts PyPrintFacts PyStr PyStrFacts DictFacts ListFacts WrapFacts WrapDocFacts
       RelocFacts RowFacts ShapeFacts RoundTripFacts WriteFacts WrapEdgeFacts LoadFacts
       PipelineFacts.
Local Open Scope string_scope.

(** X15.  [write_morphology_xml] reads without a default.  When it
    returns, the dictionary held the entries of the root and of the
    configuration, the box, the position and the image sections, and
    every section had both its attributes and its rows. *)
Theorem write_needs_complete_sections fuel m out :
  write_morphology_xml fuel m = Ret out ->
  (forall k, In k written_keys -> In k (Dict.keys m))
  /\ (forall k, In k (Dict.keys m) -> good_tag (tag_of_key k) ->
        In (tag_of_key k ++ "_attrib") (Dict.keys m)
        /\ In (tag_of_key k ++ "_text") (Dict.keys m)).
Proof.
  intros H. apply write_morphology_xml_reads in H as (wrapped & Hwrap & Hbase & Hch).
  destruct (wrapped_frame _ _ _ Hwrap) as [Hkeys _].
  rewrite <- Hkeys.
  assert (Hsec : forall k, In k (Dict.keys wrapped) -> good_tag (tag_of_key k) ->
            In (tag_of_key k ++ "_attrib") (Dict.keys wrapped)
            /\ In (tag_of_key k ++ "_text") (Dict.keys wrapped)).
  { intros k Hk Hgood.
    pose proof (tag_in_child_tags wrapped k _ Hk eq_refl Hgood) as Hin.
    rewrite Forall_forall in Hch. destruct (Hch _ Hin) as [child Hchild].
    now apply write_child_keys in Hchild. }
  split; [|exact Hsec].
  apply check_wrapped_positions_inv in Hwrap
    as (box & ptext & P & itext & I & P' & I' & Hbox & Hpt & _ & Hit & _ & _ & Hm').
  assert (Hget : forall k v, Dict.get k m = Some v -> In k (Dict.keys wrapped)).
  { intros k v Hk. rewrite Hkeys. eapply get_in_keys; eauto. }
  assert (Hb : In "box_attrib" (Dict.keys wrapped)).
  { unfold read_box_dims, get_dict in Hbox.
    destruct (Dict.get "box_attrib" m) eqn:E; [|discriminate]. eapply Hget; eauto. }
  assert (Hp : In "position_text" (Dict.keys wrapped)).
  { apply get_rows_ret in Hpt. eapply Hget; eauto. }
  assert (Hi : In "image_text" (Dict.keys wrapped)).
  { apply get_rows_ret in Hit. eapply Hget; eauto. }
  destruct (Hsec _ Hb) as [_ Hb']; [repeat split; discriminate|].
  destruct (Hsec _ Hp) as [Hp' _]; [repeat split; discriminate|].
  destruct (Hsec _ Hi) as [Hi' _]; [repeat split; discriminate|].
  intros k Hk. unfold written_keys in Hk. apply in_app_or in Hk as [Hk|Hk].
  - apply get_some_in_keys. now apply Hbase.
  - cbn [In] in Hk.
    repeat (destruct Hk as [<-|Hk]; [assumption|]). contradiction.
Qed.


(** X17.  What a file needs for [fix_images] to return: a [box]
    section with the attributes [lx], [ly] and [lz] (in any case), a
    [position] section with a [num] attribute, a [type] section and
    a [bond] section. *)
Theorem fix_images_needs_its_sections fuel file out :
  fix_images fuel file = Ret out ->
  (exists box_el,
     last_section "box" (sections file) = Some box_el
     /\ forall axis, In axis ["lx"; "ly"; "lz"] ->
          last_attribute axis (el_attrib box_el) <> None)
  /\ (exists position_el,
        last_section "position" (sections file) = Some position_el
        /\ last_attribute "num" (el_attrib position_el) <> None)
  /\ last_section "type" (sections file) <> None
  /\ last_section "bond" (sections file) <> None.
Proof.
  intros H. apply fix_images_inv in H as (m & bd & box & Hzero & Hbd & Hbox & _).
  assert (Hgood : forall t, In t ["box"; "position"; "type"; "bond"] -> good_tag t).
  { intros t Ht. cbn [In] in Ht.
    repeat (destruct Ht as [<-|Ht]; [repeat split; discriminate|]). contradiction. }
  set (loaded := load_morphology_xml file) in *.
  split; [|split; [|split]].
  - unfold read_box_dims, get_dict in Hbox.
    rewrite (get_zeroed "box_attrib" _ _ Hzero) in Hbox by discriminate.
    destruct (get_loaded "box" file) as [_ Ha]; [apply Hgood; simpl; tauto|].
    cbn [append] in Ha. fold loaded in Ha. rewrite Ha in Hbox.
    destruct (last_section "box" (sections file)) as [box_el|]; [|discriminate].
    exists box_el. split; [reflexivity|].
    cbn [option_map or_raise bind mapM] in Hbox.
    rewrite !get_lower_keys in Hbox.
    destruct (last_attribute "lx" (el_attrib box_el)) eqn:Ex; [|discriminate].
    cbn [or_raise bind] in Hbox.
    destruct (to_float s); try discriminate. cbn [bind] in Hbox.
    destruct (last_attribute "ly" (el_attrib box_el)) eqn:Ey; [|discriminate].
    cbn [or_raise bind] in Hbox.
    destruct (to_float s0); try discriminate. cbn [bind] in Hbox.
    destruct (last_attribute "lz" (el_attrib box_el)) eqn:Ez; [|discriminate].
    intros axis Hax. cbn [In] in Hax.
    repeat (destruct Hax as [<-|Hax]; [congruence|]). contradiction.
  - unfold zero_out_images in Hzero.
    destruct (get_rows "position_text" loaded) as [positions| |]; try discriminate.
    cbn [bind] in Hzero. unfold get_dict in Hzero.
    rewrite get_set_neq in Hzero by discriminate.
    destruct (get_loaded "position" file) as [_ Ha]; [apply Hgood; simpl; tauto|].
    cbn [append] in Ha. fold loaded in Ha. rewrite Ha in Hzero.
    destruct (last_section "position" (sections file)) as [position_el|]; [|discriminate].
    exists position_el. split; [reflexivity|].
    cbn [option_map or_raise bind] in Hzero. rewrite get_lower_keys in Hzero.
    destruct (last_attribute "num" (el_attrib position_el)); [discriminate | discriminate].
  - unfold get_bond_dict, get_rows in Hbd.
    rewrite (get_zeroed "type_text" _ _ Hzero) in Hbd by discriminate.
    destruct (get_loaded "type" file) as [Ht _]; [apply Hgood; simpl; tauto|].
    cbn [append] in Ht. fold loaded in Ht. rewrite Ht in Hbd.
    destruct (last_section "type" (sections file)); [discriminate | discriminate].
  - unfold get_bond_dict in Hbd.
    destruct (get_rows "type_text" m); try discriminate. cbn [bind] in Hbd.
    unfold get_rows in Hbd.
    rewrite (get_zeroed "bond_text" _ _ Hzero) in Hbd by discriminate.
    destruct (get_loaded "bond" file) as [Ht _]; [apply Hgood; simpl; tauto|].
    cbn [append] in Ht. fold loaded in Ht. rewrite Ht in Hbd.
    destruct (last_section "bond" (sections file)); [discriminate | discriminate].
Qed.

End WriterAndPipelineProperties.

(** The properties above at work on example inputs. *)

Section WriterAndPipelineExamples.

Lemma write_needs_complete_sections_witness :
  (forall k, In k written_keys -> In k (Dict.keys two_particle_doc))
  /\ (forall k, In k (Dict.keys two_particle_doc) -> good_tag (tag_of_key k) ->
        In (tag_of_key k ++ "_attrib") (Dict.keys two_particle_doc)
        /\ In (tag_of_key k ++ "_text") (Dict.keys two_particle_doc)).
Proof.
  apply (write_needs_complete_sections 5 two_particle_doc two_particle_out).
  reflexivity.
Defined.


Lemma fix_images_needs_its_sections_witness :
  (exists box_el,
     last_section "box" (sections straddling_file) = Some box_el
     /\ forall axis, In axis ["lx"; "ly"; "lz"] ->
          last_attribute axis (el_attrib box_el) <> None)
  /\ (exists position_el,
        last_section "position" (sections straddling_file) = Some position_el
        /\ last_attribute "num" (el_attrib position_el) <> None)
  /\ last_section "type" (sections straddling_file) <> None
  /\ last_section "bond" (sections straddling_file) <> None.
Proof.
  apply (fix_images_needs_its_sections 5 straddling_file straddling_out).
  reflexivity.
Defined.

End WriterAndPipelineExamples.

(** ** The argument types of the command line *)

Module ArgTypeFacts.
Import PyStr PyStrFacts PyPrintFacts DictFacts ListFacts WrapDocFacts RowFacts ShapeFacts.
Local Open Scope string_scope.

Lemma drop_last_snoc s c : drop_last (s ++ String c "") = s.
Proof.
  induction s as [|a s IH]; [reflexivity|].
  cbn [append drop_last]. rewrite IH.
  destruct s; reflexivity.
Qed.

Lemma slice_inner_wrapped a s c : slice_inner (String a (s ++ String c "")) = s.
Proof. cbn [slice_inner]. apply drop_last_snoc. Qed.

Lemma lstrip_clean s :
  all_chars (fun c => negb (is_space c)) s = true -> lstrip s = s.
Proof.
  destruct s as [|c s]; [reflexivity|]. cbn [all_chars lstrip].
  intros H. apply andb_true_iff in H as [Hc _]. apply negb_true_iff in Hc. now rewrite Hc.
Qed.

Lemma rstrip_clean s :
  all_chars (fun c => negb (is_space c)) s = true -> rstrip s = s.
Proof.
  induction s as [|c s IH]; [reflexivity|]. cbn [all_chars rstrip].
  intros H. apply andb_true_iff in H as [Hc Hs]. apply negb_true_iff in Hc.
  rewrite Hc, IH by assumption. reflexivity.
Qed.

Lemma strip_clean s : all_chars (fun c => negb (is_space c)) s = true -> strip s = s.
Proof. intros H. unfold strip. rewrite lstrip_clean by assumption. now apply rstrip_clean. Qed.

Lemma lstrip_space s : lstrip (" " ++ s) = lstrip s.
Proof. reflexivity. Qed.

Lemma strip_pad s :
  all_chars (fun c => negb (is_space c)) s = true -> strip (" " ++ s) = s.
Proof. intros H. unfold strip. rewrite lstrip_space. fold (strip s). now apply strip_clean. Qed.

(** Splitting what was joined. *)
Lemma split_on_joined sep : forall parts,
  parts <> [] ->
  Forall (fun l => all_chars (fun c => negb (Ascii.eqb c sep)) l = true) parts ->
  split_on sep (join (String sep "") parts) = parts.
Proof.
  unfold split_on.
  induction parts as [|l rest IH]; intros Hne H; [congruence|].
  inversion H as [|? ? Hl Hrest]; subst.
  destruct rest as [|l2 rest].
  - cbn [join String.concat]. rewrite split_on_aux_nosep by assumption. reflexivity.
  - rewrite join_cons. cbn [append].
    rewrite split_on_aux_app by assumption. cbn [append].
    f_equal. apply IH; [discriminate | assumption].
Qed.

Lemma filter_true {A} (f : A -> bool) l : Forall (fun x => f x = true) l -> filter f l = l.
Proof.
  induction 1 as [|x l Hx _ IH]; cbn [filter]; [reflexivity|]. now rewrite Hx, IH.
Qed.

Lemma digit_not_char c x :
  is_digit x = false -> is_digit c = true -> negb (Ascii.eqb c x) = true.
Proof.
  intros Hx Hc. apply negb_true_iff. destruct (Ascii.eqb_spec c x); [congruence | reflexivity].
Qed.

Lemma str_of_int_without x z :
  is_digit x = false -> x <> "-"%char ->
  all_chars (fun c => negb (Ascii.eqb c x)) (str_of_int z) = true.
Proof.
  intros Hx Hm. unfold str_of_int. rewrite all_chars_app. apply andb_true_iff. split.
  - destruct (z <? 0)%Z; [|reflexivity]. cbn [all_chars]. rewrite andb_true_r.
    apply negb_true_iff. destruct (Ascii.eqb_spec "-"%char x); [congruence | reflexivity].
  - eapply all_chars_impl; [|apply all_digits_int].
    intros c Hc. now apply digit_not_char.
Qed.

Lemma py_int_str_of_int z : py_int (str_of_int z) = Ret z.
Proof.
  unfold py_int. rewrite strip_clean by apply clean_str_of_int.
  now rewrite int_of_str_of_int.
Qed.

Lemma nonempty_str_of_int z : nonempty (str_of_int z) = true.
Proof.
  unfold nonempty. destruct (clean_str_of_int z) as [H _]. now rewrite H.
Qed.

Lemma split_cell item :
  good_item item -> split_on ":" (cell_text item) = [fst (fst item); snd (fst item)].
Proof.
  intros ([_ Hk] & [_ Hv] & _). unfold split_on, cell_text. cbn [append].
  rewrite split_on_aux_app by assumption. cbn [append].
  now rewrite split_on_aux_nosep by assumption.
Qed.

Lemma cell_without_comma item :
  good_item item ->
  all_chars (fun c => negb (Ascii.eqb c ",")) (cell_text item) = true.
Proof.
  intros ([Hk _] & [Hv _] & _). unfold cell_text.
  rewrite !all_chars_app, Hk, Hv. reflexivity.
Qed.

Lemma nonempty_cell item : nonempty (cell_text item) = true.
Proof.
  unfold nonempty, cell_text. rewrite !is_empty_app. cbn. now rewrite andb_false_r.
Qed.

Lemma fold_items items : forall d,
  Forall good_item items ->
  fold_left (fun acc splitChar => d <- acc ;; stoichiometry_item d splitChar)
            (map (fun item => [fst (fst item); snd (fst item)]) items) (Ret d)
  = Ret (fold_left (fun d kv => Dict.set (fst kv) (snd kv) d)
                   (map (fun item => (slice_inner (fst (fst item)), snd item)) items) d).
Proof.
  induction items as [|item items IH]; intros d H; [reflexivity|].
  inversion H as [|? ? (_ & _ & Hv) H']; subst.
  cbn [map fold_left bind stoichiometry_item]. rewrite Hv. cbn [bind fst snd].
  now apply IH.
Qed.

(** The text between the braces is cut at the commas, each cell at its
    colon; the key is the key text without its first and last
    character. *)
Lemma stoichiometry_of_cells items :
  Forall good_item items ->
  stoichiometry_type ("{" ++ join "," (map cell_text items) ++ "}")
  = Ret (dict_of (map (fun item => (slice_inner (fst (fst item)), snd item)) items)).
Proof.
  intros H. unfold stoichiometry_type. cbn [append].
  rewrite slice_inner_wrapped.
  destruct items as [|item0 items0] eqn:Eitems; [reflexivity|]. rewrite <- Eitems in *.
  rewrite split_on_joined.
  - rewrite (filter_true nonempty)
      by (apply Forall_forall; intros c Hc; apply in_map_iff in Hc as (i & <- & _);
          apply nonempty_cell).
    rewrite map_map.
    rewrite (map_ext_in _ (fun item => [fst (fst item); snd (fst item)]))
      by (intros i Hi; apply split_cell; rewrite Forall_forall in H; auto).
    rewrite filter_true by (apply Forall_forall; intros c Hc;
                            apply in_map_iff in Hc as (i & <- & _); reflexivity).
    now apply fold_items.
  - subst items. discriminate.
  - apply Forall_forall. intros c Hc. apply in_map_iff in Hc as (i & <- & Hi).
    apply cell_without_comma. rewrite Forall_forall in H. auto.
Qed.

Lemma plain_app s t : plain s -> plain t -> plain (s ++ t).
Proof. intros [H1 H2] [H3 H4]. split; rewrite all_chars_app; apply andb_true_iff; auto. Qed.

Lemma plain_quote : plain "'".
Proof. split; reflexivity. Qed.

Lemma plain_blank : plain " ".
Proof. split; reflexivity. Qed.

Lemma py_float_pad tok : py_float (" " ++ tok) = py_float tok.
Proof. reflexivity. Qed.

Lemma join_head sep a y zs : join sep ((a ++ y) :: zs) = a ++ join sep (y :: zs).
Proof.
  destruct zs as [|z zs]; [reflexivity|]. rewrite !join_cons. apply PyStrFacts.app_assoc.
Qed.

Lemma join_blank_comma x xs :
  join ", " (x :: xs) = join "," (x :: map (fun c => " " ++ c) xs).
Proof.
  revert x. induction xs as [|y xs IH]; intros x; [reflexivity|].
  cbn [map]. rewrite !join_cons, IH, join_head. reflexivity.
Qed.

(** *** The force field *)

Lemma prefix_xml_cons c s :
  String.prefix ".xml" (String c s) = true -> c = "."%char.
Proof.
  cbn [String.prefix]. destruct (ascii_dec "." c) as [<-|]; [reflexivity | discriminate].
Qed.

(** A name without a dot: no occurrence of [.xml] begins inside it. *)
Lemma before_first_name name rest :
  all_chars (fun c => negb (Ascii.eqb c ".")) name = true ->
  before_first ".xml" (name ++ ".xml" ++ rest) = name
  /\ before_first ".xml" name = name.
Proof.
  induction name as [|c name IH]; intros H.
  - split; [|reflexivity]. cbn. now destruct rest.
  - cbn [all_chars] in H. apply andb_true_iff in H as [Hc Hn].
    apply negb_true_iff in Hc.
    assert (Hp : forall s, String.prefix ".xml" (String c s) = false).
    { intros s. destruct (String.prefix ".xml" (String c s)) eqn:E; [|reflexivity].
      apply prefix_xml_cons in E. subst c. discriminate. }
    destruct (IH Hn) as [IH1 IH2]. split.
    + cbn [append before_first]. cbn [append] in Hp. rewrite Hp. f_equal. exact IH1.
    + cbn [before_first]. rewrite Hp. f_equal. exact IH2.
Qed.

(** *** The dimensions *)

Lemma dimensions_type_joined dims :
  dimensions_type (join "x" (map str_of_int dims)) = Ret dims.
Proof.
  unfold dimensions_type. destruct dims as [|d0 dims0] eqn:E; [reflexivity|].
  rewrite <- E. rewrite split_on_joined.
  - rewrite filter_true
      by (apply Forall_forall; intros c Hc; apply in_map_iff in Hc as (z & <- & _);
          apply nonempty_str_of_int).
    rewrite <- (map_id dims) at 2. apply mapM_map. intros z _. apply py_int_str_of_int.
  - subst dims. discriminate.
  - apply Forall_forall. intros c Hc. apply in_map_iff in Hc as (z & <- & _).
    apply str_of_int_without; [reflexivity | discriminate].
Qed.

End ArgTypeFacts.

Section ArgumentTypeProperties.
Import PyStr PyStrFacts PyPrintFacts DictFacts ListFacts WrapDocFacts RowFacts ShapeFacts
       ArgTypeFacts.
Local Open Scope string_scope.

(** X18.  The [type] of [--stoichiometry] reads a dictionary written
    without blanks, [{'Mo':1,'V':0.3}], whose keys and values hold no
    comma and no colon: every key without its quotes, every value as
    a float, a key that comes twice keeping its last value. *)
Theorem compact_stoichiometry_is_read_back entries values :
  Forall2 (fun kv v => plain (fst kv) /\ plain (snd kv) /\ py_float (snd kv) = Ret v)
          entries values ->
  stoichiometry_type (written_compact entries)
  = Ret (dict_of (combine (map fst entries) values)).
Proof.
  intros H. unfold written_compact.
  set (items := map (fun p => ("'" ++ fst (fst p) ++ "'", snd (fst p), snd p))
                    (combine entries values)).
  assert (Hcells : map compact_cell entries = map cell_text items).
  { unfold items. clear items. induction H as [|kv v es vs _ _ IH]; [reflexivity|].
    cbn [map combine]. rewrite IH. f_equal.
    unfold compact_cell, cell_text. cbn [fst snd append].
    rewrite ?PyStrFacts.app_assoc. reflexivity. }
  assert (Hdict : map (fun item : string * string * pyfloat =>
                         (slice_inner (fst (fst item)), snd item)) items
                  = combine (map fst entries) values).
  { unfold items. clear items Hcells. induction H as [|kv v es vs _ _ IH]; [reflexivity|].
    cbn [map combine fst snd]. rewrite IH. f_equal. f_equal.
    cbn [append]. apply slice_inner_wrapped. }
  rewrite Hcells, stoichiometry_of_cells; [now rewrite Hdict|].
  unfold items. clear items Hcells Hdict.
  induction H as [|kv v es vs (Hk & Hv & Hf) _ IH]; constructor; [|exact IH].
  unfold good_item. cbn [fst snd]. split; [|split; assumption].
  apply plain_app; [apply plain_quote | apply plain_app; [assumption | apply plain_quote]].
Qed.

(** X19.  Written with a blank after each comma, as the help text of
    [--stoichiometry] gives it, the dictionary is read with the
    opening quote left on every key but the first: [key[1:-1]] cuts
    the blank, not the quote. *)
Theorem spaced_stoichiometry_keeps_the_quote entries values :
  Forall2 (fun kv v => plain (fst kv) /\ plain (snd kv) /\ py_float (snd kv) = Ret v)
          entries values ->
  stoichiometry_type (written_spaced entries)
  = Ret (dict_of (combine (spaced_keys (map fst entries)) values)).
Proof.
  intros H. unfold written_spaced.
  destruct H as [|kv0 v0 es vs (Hk0 & Hv0 & Hf0) H]; [reflexivity|].
  set (first := ("'" ++ fst kv0 ++ "'", " " ++ snd kv0, v0)).
  set (others := map (fun p => (" '" ++ fst (fst p) ++ "'", " " ++ snd (fst p), snd p))
                     (combine es vs)).
  cbn [map]. rewrite join_blank_comma.
  assert (Hcells : spaced_cell kv0 :: map (fun c => " " ++ c) (map spaced_cell es)
                   = map cell_text (first :: others)).
  { cbn [map]. f_equal.
    - unfold spaced_cell, cell_text, first. cbn [fst snd append].
      rewrite ?PyStrFacts.app_assoc. reflexivity.
    - unfold others. clear - H. induction H as [|kv v es vs _ _ IH]; [reflexivity|].
      cbn [map combine]. rewrite IH. f_equal.
      unfold spaced_cell, cell_text. cbn [fst snd append].
      rewrite ?PyStrFacts.app_assoc. reflexivity. }
  assert (Hdict : map (fun item : string * string * pyfloat =>
                         (slice_inner (fst (fst item)), snd item)) (first :: others)
                  = combine (spaced_keys (map fst (kv0 :: es))) (v0 :: vs)).
  { cbn [map spaced_keys combine]. f_equal.
    - unfold first. cbn [fst snd append]. f_equal. apply slice_inner_wrapped.
    - unfold others. clear - H. induction H as [|kv v es vs _ _ IH]; [reflexivity|].
      cbn [map combine fst snd]. rewrite IH. f_equal. f_equal.
      cbn [append slice_inner]. apply (drop_last_snoc (String "'" (fst kv))). }
  rewrite Hcells, stoichiometry_of_cells; [now rewrite Hdict|].
  constructor.
  - unfold good_item, first. cbn [fst snd]. split; [|split].
    + apply plain_app; [apply plain_quote | apply plain_app; [assumption | apply plain_quote]].
    + apply plain_app; [apply plain_blank | assumption].
    + now rewrite py_float_pad.
  - unfold others. clear - H.
    induction H as [|kv v es vs (Hk & Hv & Hf) _ IH]; constructor; [|exact IH].
    unfold good_item. cbn [fst snd]. split; [|split].
    + apply (plain_app " " ("'" ++ fst kv ++ "'")); [apply plain_blank|].
      apply plain_app; [apply plain_quote | apply plain_app; [assumption | apply plain_quote]].
    + apply plain_app; [apply plain_blank | assumption].
    + now rewrite py_float_pad.
Qed.

(** X20.  The [type] of [--forcefield] cuts the name at its first
    [.xml]: a name without a dot is read the same with and without
    the extension, and whatever follows the extension is dropped. *)
Theorem forcefield_extension_is_optional name rest :
  all_chars (fun c => negb (Ascii.eqb c ".")) name = true ->
  forcefield_type (name ++ ".xml" ++ rest) = name /\ forcefield_type name = name.
Proof. apply before_first_name. Qed.

End ArgumentTypeProperties.

(** The properties above at work on example inputs. *)

Section ArgumentTypeExamples.

Lemma compact_stoichiometry_is_read_back_witness :
  stoichiometry_type "{'Mo':1,'V':0.3}"
  = Ret [("Mo", PyFloat 1 0); ("V", PyFloat 3 1)].
Proof.
  apply (compact_stoichiometry_is_read_back [("Mo", "1"); ("V", "0.3")]
           [PyFloat 1 0; PyFloat 3 1]).
  repeat constructor.
Defined.

Lemma spaced_stoichiometry_keeps_the_quote_witness :
  stoichiometry_type "{'Mo': 1, 'V': 0.3}"
  = Ret [("Mo", PyFloat 1 0); ("'V", PyFloat 3 1)].
Proof.
  apply (spaced_stoichiometry_keeps_the_quote [("Mo", "1"); ("V", "0.3")]
           [PyFloat 1 0; PyFloat 3 1]).
  repeat constructor.
Defined.

Lemma forcefield_extension_is_optional_witness :
  forcefield_type "FF_opls_uff.xml" = "FF_opls_uff"
  /\ forcefield_type "FF_opls_uff" = "FF_opls_uff".
Proof.
  apply (forcefield_extension_is_optional "FF_opls_uff" "").
  reflexivity.
Defined.

End ArgumentTypeExamples.

(** ** The name of the output file *)

Module FileNameFacts.
Import PyStr PyStrFacts PyPrintFacts DictFacts ListFacts WrapDocFacts RowFacts ShapeFacts
       ArgTypeFacts.
Local Open Scope string_scope.

Lemma Forall_insert_arg (P : string * argval -> Prop) a l :
  P a -> Forall P l -> Forall P (insert_arg a l).
Proof.
  intros Ha. induction 1 as [|b l Hb Hl IH]; cbn [insert_arg]; [repeat constructor; auto|].
  destruct (String.leb (fst a) (fst b)); repeat constructor; auto.
Qed.

Lemma Forall_sorted_args (P : string * argval -> Prop) l :
  Forall P l -> Forall P (sorted_args l).
Proof.
  induction 1 as [|a l Ha Hl IH]; [constructor|].
  cbn [sorted_args fold_right]. now apply Forall_insert_arg.
Qed.

Lemma In_insert_arg a b l : In a (insert_arg b l) <-> a = b \/ In a l.
Proof.
  induction l as [|c l IH]; cbn [insert_arg In]; [intuition congruence|].
  destruct (String.leb (fst b) (fst c)); cbn [In]; [intuition congruence|].
  rewrite IH. intuition congruence.
Qed.

Lemma In_sorted_args a l : In a (sorted_args l) <-> In a l.
Proof.
  induction l as [|b l IH]; [reflexivity|].
  cbn [sorted_args fold_right In]. fold (sorted_args l).
  rewrite In_insert_arg, IH. intuition congruence.
Qed.

Lemma add_arguments_defaults args : forall output_file,
  Forall is_default args -> add_arguments output_file args = Done output_file.
Proof.
  induction args as [|[name val] args IH]; intros output_file H; [reflexivity|].
  inversion H as [|? ? (default & Hd & He) H']; subst. cbn [fst snd] in *.
  cbn [add_arguments add_argument]. rewrite Hd, He. now apply IH.
Qed.

Lemma add_arguments_unknown args : forall output_file name val,
  In (name, val) args -> Dict.get name defaults_dict = None ->
  exists e, add_arguments output_file args = Fails e.
Proof.
  induction args as [|arg args IH]; intros output_file name val Hin Hd; [contradiction|].
  cbn [add_arguments].
  destruct (add_argument output_file arg) as [o|e] eqn:E; [|eauto].
  destruct Hin as [->|Hin]; [|eapply IH; eauto].
  cbn [add_argument] in E. rewrite Hd in E. discriminate.
Qed.

(** Sorting looks at the names only. *)
Lemma insert_arg_map (f : string * argval -> string * argval) a l :
  (forall x, fst (f x) = fst x) ->
  insert_arg (f a) (map f l) = map f (insert_arg a l).
Proof.
  intros Hf. induction l as [|b l IH]; [reflexivity|].
  cbn [map insert_arg]. rewrite !Hf.
  destruct (String.leb (fst a) (fst b)); cbn [map]; [reflexivity | now rewrite IH].
Qed.

Lemma sorted_args_map (f : string * argval -> string * argval) l :
  (forall x, fst (f x) = fst x) -> sorted_args (map f l) = map f (sorted_args l).
Proof.
  intros Hf. induction l as [|a l IH]; [reflexivity|].
  cbn [map sorted_args fold_right]. fold (sorted_args (map f l)) (sorted_args l).
  now rewrite IH, insert_arg_map.
Qed.

Lemma add_arguments_ext (f g : string * argval -> string * argval) args :
  (forall output_file x, add_argument output_file (f x) = add_argument output_file (g x)) ->
  forall output_file,
    add_arguments output_file (map f args) = add_arguments output_file (map g args).
Proof.
  intros H. induction args as [|a args IH]; intros output_file; [reflexivity|].
  cbn [map add_arguments]. rewrite H.
  destruct (add_argument output_file (g a)); [apply IH | reflexivity].
Qed.

(** The last piece of a path and the first piece of a file name. *)
Lemma last_split_on sep b : without sep b ->
  forall a cur, last (split_on_aux sep cur (a ++ String sep b)) "" = b.
Proof.
  intros Hb. induction a as [|c a IH]; intros cur.
  - cbn [append split_on_aux]. rewrite Ascii.eqb_refl.
    now rewrite (split_on_aux_nosep sep "" b Hb).
  - cbn [append split_on_aux]. destruct (Ascii.eqb c sep); [|apply IH].
    specialize (IH "").
    destruct (split_on_aux sep "" (a ++ String sep b)) eqn:E;
      [now apply split_on_aux_nonnil in E | exact IH].
Qed.

Lemma template_stem_path dir stem ext :
  without "/" stem -> without "." stem -> without "/" ext ->
  template_stem (dir ++ "/" ++ stem ++ "." ++ ext) = stem.
Proof.
  intros Hs Hd He. unfold template_stem, split_on. cbn [append].
  rewrite last_split_on.
  - rewrite (split_on_aux_app "." "" stem ext Hd). reflexivity.
  - unfold without in *. rewrite all_chars_app, Hs. cbn [all_chars andb].
    rewrite He. reflexivity.
Qed.

Lemma has_slash_not_default dir rest :
  String.eqb (dir ++ "/" ++ rest) "templateM1.pdb" = false.
Proof.
  apply String.eqb_neq. intros E.
  apply (f_equal (all_chars (fun x => negb (Ascii.eqb x "/")))) in E.
  rewrite all_chars_app in E. cbn [append all_chars] in E.
  cbn in E. rewrite andb_false_r in E. discriminate.
Qed.

Lemma ints_eqb_eq a : forall b, ints_eqb a b = true -> a = b.
Proof.
  induction a as [|x a IH]; intros [|y b] H; try discriminate; [reflexivity|].
  cbn [ints_eqb] in H. apply andb_true_iff in H as [Hx Hr].
  apply Z.eqb_eq in Hx. subst. f_equal. now apply IH.
Qed.

End FileNameFacts.

Section FileNameProperties.
Import PyStr PyStrFacts PyPrintFacts DictFacts ListFacts WrapDocFacts RowFacts ShapeFacts
       ArgTypeFacts FileNameFacts.
Local Open Scope string_scope.

(** X21.  Arguments that are equal to their entry of [defaults_dict]
    do not enter the name: when every argument is, the name is
    [out.] followed by the file type, whatever the arguments and
    their number. *)
Theorem default_arguments_leave_no_trace args file_type :
  Forall is_default args ->
  create_output_file_name args file_type = Done ("out." ++ file_type).
Proof.
  intros H. unfold create_output_file_name.
  now rewrite add_arguments_defaults by (now apply Forall_sorted_args).
Qed.

(** X22.  [create_output_file_name] looks every argument up in
    [defaults_dict] without a guard: one argument whose name is not a
    key of it makes the call fail, whatever the other arguments. *)
Theorem argument_without_default_fails args file_type name val :
  In (name, val) args -> Dict.get name defaults_dict = None ->
  exists e, create_output_file_name args file_type = Fails e.
Proof.
  intros Hin Hd. unfold create_output_file_name.
  destruct (add_arguments_unknown (sorted_args args) "out" name val) as [e ->];
    [now apply In_sorted_args | assumption | eauto].
Qed.

(** X23.  Of a template given by its path, only the stem enters the
    name: two paths with the same stem, in whichever directory and
    with whichever extension, give the same name, and the template
    alone gives [out_T] followed by the stem. *)
Theorem template_enters_by_its_stem args dir1 dir2 stem ext1 ext2 file_type :
  without "/" stem -> without "." stem -> without "/" ext1 -> without "/" ext2 ->
  create_output_file_name (with_template (dir1 ++ "/" ++ stem ++ "." ++ ext1) args) file_type
  = create_output_file_name (with_template (dir2 ++ "/" ++ stem ++ "." ++ ext2) args)
                            file_type
  /\ create_output_file_name [("template", AStr (dir1 ++ "/" ++ stem ++ "." ++ ext1))]
                             file_type
     = Done ("out_T" ++ stem ++ "." ++ file_type).
Proof.
  intros Hs Hd He1 He2. split.
  - unfold create_output_file_name, with_template.
    rewrite !sorted_args_map by (intros x; destruct (String.eqb (fst x) "template");
                                 reflexivity).
    rewrite (add_arguments_ext _
               (fun arg => if String.eqb (fst arg) "template"
                           then (fst arg, AStr (dir2 ++ "/" ++ stem ++ "." ++ ext2))
                           else arg)); [reflexivity|].
    intros output_file [name val]. cbn [fst].
    destruct (String.eqb_spec name "template") as [->|Hne]; [|reflexivity].
    cbn [add_argument Dict.get defaults_dict String.eqb Ascii.eqb Bool.eqb py_eq as_number].
    rewrite !has_slash_not_default.
    now rewrite !template_stem_path by assumption.
  - unfold create_output_file_name.
    cbn [sorted_args fold_right insert_arg add_arguments add_argument Dict.get
         defaults_dict String.eqb Ascii.eqb Bool.eqb py_eq as_number].
    rewrite has_slash_not_default, template_stem_path by assumption.
    cbn [append]. reflexivity.
Qed.

(** X24.  Dimensions other than the default enter the name as [D]
    followed by the numbers joined by [x], and that text is what the
    [type] of [--dimensions] reads the same dimensions from. *)
Theorem dimensions_are_read_back_from_the_name dims file_type :
  dims <> [1; 1; 1]%Z ->
  create_output_file_name [("dimensions", AInts dims)] file_type
  = Done ("out_D" ++ join "x" (map str_of_int dims) ++ "." ++ file_type)
  /\ dimensions_type (join "x" (map str_of_int dims)) = Ret dims.
Proof.
  intros Hne. split.
  - assert (E : ints_eqb dims [1; 1; 1]%Z = false).
    { destruct (ints_eqb dims [1; 1; 1]%Z) eqn:E; [|reflexivity].
      now apply ints_eqb_eq in E. }
    unfold create_output_file_name.
    cbn [sorted_args fold_right insert_arg add_arguments add_argument Dict.get
         defaults_dict String.eqb Ascii.eqb Bool.eqb py_eq as_number].
    rewrite E. cbn [append]. reflexivity.
  - apply dimensions_type_joined.
Qed.

(** X25.  A run without options is not named [out]: the parser's
    default template, [M1UnitCell.pdb], is not the one of
    [defaults_dict], so the arguments of a default run are not all
    defaults and the name carries the stem of the template. *)
Theorem default_run_is_named_after_its_template file_type :
  create_output_file_name parser_defaults file_type
  = Done ("out_TM1UnitCell." ++ file_type)
  /\ ~ Forall is_default parser_defaults.
Proof.
  split.
  - unfold create_output_file_name.
    assert (E : add_arguments "out" (sorted_args parser_defaults) = Done "out_TM1UnitCell")
      by reflexivity.
    rewrite E. reflexivity.
  - intros H. rewrite Forall_forall in H.
    destruct (H ("template", AStr "M1UnitCell.pdb")) as (default & Hd & He).
    + cbn [parser_defaults In]. tauto.
    + cbn in Hd. injection Hd as <-. discriminate.
Qed.

End FileNameProperties.

(** The properties above at work on example inputs. *)

Section FileNameExamples.

Lemma default_arguments_leave_no_trace_witness :
  create_output_file_name
    [("organic", AStr "ethane.pdb"); ("bonds_periodic", ABool true);
     ("z_box_size", ANum (NInt 20))] "hoomdxml"
  = Done "out.hoomdxml".
Proof.
  apply (default_arguments_leave_no_trace
           [("organic", AStr "ethane.pdb"); ("bonds_periodic", ABool true);
            ("z_box_size", ANum (NInt 20))] "hoomdxml").
  repeat constructor; eexists; split; reflexivity.
Defined.

Lemma argument_without_default_fails_witness :
  exists e,
    create_output_file_name [("dimensions", AInts [2; 2; 1]); ("verbose", ABool true)]
                            "hoomdxml"
    = Fails e.
Proof.
  apply (argument_without_default_fails
           [("dimensions", AInts [2; 2; 1]); ("verbose", ABool true)] "hoomdxml"
           "verbose" (ABool true)).
  - right. left. reflexivity.
  - reflexivity.
Defined.

Lemma template_enters_by_its_stem_witness :
  create_output_file_name
    (with_template ("compounds" ++ "/" ++ "M1UnitCell" ++ "." ++ "pdb")
                   [("template", AStr "x"); ("dimensions", AInts [2; 2; 1])]) "hoomdxml"
  = create_output_file_name
      (with_template ("old" ++ "/" ++ "M1UnitCell" ++ "." ++ "mol2")
                     [("template", AStr "x"); ("dimensions", AInts [2; 2; 1])]) "hoomdxml"
  /\ create_output_file_name
       [("template", AStr ("compounds" ++ "/" ++ "M1UnitCell" ++ "." ++ "pdb"))] "hoomdxml"
     = Done ("out_T" ++ "M1UnitCell" ++ "." ++ "hoomdxml").
Proof.
  apply (template_enters_by_its_stem
           [("template", AStr "x"); ("dimensions", AInts [2; 2; 1])]
           "compounds" "old" "M1UnitCell" "pdb" "mol2" "hoomdxml"); reflexivity.
Defined.

Lemma dimensions_are_read_back_from_the_name_witness :
  create_output_file_name [("dimensions", AInts [2; 2; 1])] "hoomdxml"
  = Done ("out_D" ++ PyStr.join "x" (map str_of_int [2; 2; 1]) ++ "." ++ "hoomdxml")
  /\ dimensions_type (PyStr.join "x" (map str_of_int [2; 2; 1])) = Ret [2; 2; 1].
Proof.
  apply (dimensions_are_read_back_from_the_name [2; 2; 1] "hoomdxml").
  discriminate.
Defined.

End FileNameExamples.

(** ** The surface of unit cells *)

Module SurfaceFacts.
Import ListFacts.
Local Open Scope Z_scope.

Lemma snd_and_then {A B} (c : built A) (k : A -> built B) :
  snd (and_then c k) = bind (snd c) (fun a => snd (k a)).
Proof.
  destruct c as [calls [a|e|]]; cbn [and_then snd bind]; [|reflexivity|reflexivity].
  now destruct (k a).
Qed.

Lemma snd_for_each_cons {S A} (body : S -> A -> built S) s a l :
  snd (for_each body s (a :: l))
  = bind (snd (body s a)) (fun s' => snd (for_each body s' l)).
Proof. cbn [for_each]. apply snd_and_then. Qed.

Lemma Forall_and_then {A B} (P : call -> Prop) (c : built A) (k : A -> built B) :
  Forall P (fst c) -> (forall a, snd c = Ret a -> Forall P (fst (k a))) ->
  Forall P (fst (and_then c k)).
Proof.
  destruct c as [calls [a|e|]]; cbn [and_then fst snd]; intros Hc Hk; try assumption.
  specialize (Hk a eq_refl). destruct (k a) as [calls' r]. cbn [fst] in *.
  apply Forall_app. auto.
Qed.

(** A loop keeps what each turn keeps. *)
Lemma for_each_inv {S A} (body : S -> A -> built S) (Inv : S -> Prop)
      (P : call -> Prop) l :
  (forall s a, In a l -> Inv s ->
     Forall P (fst (body s a)) /\ (forall s', snd (body s a) = Ret s' -> Inv s')) ->
  forall s, Inv s ->
    Forall P (fst (for_each body s l))
    /\ (forall s', snd (for_each body s l) = Ret s' -> Inv s').
Proof.
  induction l as [|a l IH]; intros Hbody s Hs.
  - cbn [for_each fst snd]. split; [constructor | intros s' [= <-]; assumption].
  - destruct (Hbody s a (or_introl eq_refl) Hs) as [Hcalls Hnext].
    assert (IH' : forall s1, Inv s1 ->
              Forall P (fst (for_each body s1 l))
              /\ (forall s', snd (for_each body s1 l) = Ret s' -> Inv s')).
    { apply IH. intros s1 a1 Hin. apply Hbody. now right. }
    split.
    + cbn [for_each]. apply Forall_and_then; [assumption|].
      intros s1 Hs1. apply IH'. now apply Hnext.
    + intros s'. rewrite snd_for_each_cons.
      destruct (snd (body s a)) as [s1| |] eqn:E; cbn [bind]; try discriminate.
      apply IH'. now apply Hnext.
Qed.

(** A loop over turns that all return. *)
Lemma for_each_returns {A} (body : unit -> A -> built unit) l :
  (forall a, In a l -> snd (body tt a) = Ret tt) -> snd (for_each body tt l) = Ret tt.
Proof.
  induction l as [|a l IH]; intros H; [reflexivity|].
  rewrite snd_for_each_cons, (H a) by (now left). cbn [bind].
  apply IH. intros a' Ha'. apply H. now right.
Qed.

(** A loop one of whose turns raises [IndexError], no turn ending in
    another way. *)
Lemma for_each_raises {A} (body : unit -> A -> built unit) l :
  (forall a, In a l -> snd (body tt a) = Ret tt \/ snd (body tt a) = Raise IndexError) ->
  (exists a, In a l /\ snd (body tt a) = Raise IndexError) ->
  snd (for_each body tt l) = Raise IndexError.
Proof.
  induction l as [|a l IH]; intros Hall (b & Hin & Hb); [contradiction|].
  rewrite snd_for_each_cons.
  destruct (Hall a (or_introl eq_refl)) as [E|E]; rewrite E; cbn [bind]; [|reflexivity].
  apply IH; [intros a' Ha'; apply Hall; now right|].
  destruct Hin as [->|Hin]; [congruence | eauto].
Qed.

(** *** Ranges and subscripts *)

Lemma in_py_range n a : In a (py_range n) <-> 0 <= a < n.
Proof.
  unfold py_range. rewrite in_map_iff. split.
  - intros (k & <- & Hk). apply in_seq in Hk. lia.
  - intros H. exists (Z.to_nat a). split; [lia|]. apply in_seq. lia.
Qed.

Lemma length_py_range n : length (py_range n) = Z.to_nat n.
Proof. unfold py_range. now rewrite length_map, length_seq. Qed.

Lemma py_range_first n : 1 <= n -> exists rest, py_range n = 0 :: rest.
Proof.
  intros H. unfold py_range. destruct (Z.to_nat n) as [|k] eqn:E; [lia|].
  cbn [seq map]. eauto.
Qed.

Lemma py_index_some {A} (l : list A) i :
  0 <= i < Z.of_nat (length l) -> exists x, py_index l i = Some x.
Proof.
  intros H. unfold py_index, py_norm_index.
  destruct (Z.ltb_spec i 0); [lia|].
  destruct (Z.ltb_spec i (Z.of_nat (length l))); [|lia].
  destruct (nth_error l (Z.to_nat i)) as [x|] eqn:E; [eauto|].
  apply nth_error_None in E. lia.
Qed.

Lemma py_index_none {A} (l : list A) i :
  Z.of_nat (length l) <= i -> py_index l i = None.
Proof.
  intros H. unfold py_index, py_norm_index.
  destruct (Z.ltb_spec i 0); [lia|].
  destruct (Z.ltb_spec i (Z.of_nat (length l))); [lia | reflexivity].
Qed.

Lemma py_index_in {A} (l : list A) i x : py_index l i = Some x -> In x l.
Proof.
  unfold py_index. destruct (py_norm_index (length l) i); [|discriminate].
  apply nth_error_In.
Qed.

Lemma length_row_of dim0 y z : length (row_of dim0 y z) = Z.to_nat dim0.
Proof. unfold row_of. now rewrite length_map, length_py_range. Qed.

Lemma length_matrix_of dim0 dim1 z : length (matrix_of dim0 dim1 z) = Z.to_nat dim1.
Proof. unfold matrix_of. now rewrite length_map, length_py_range. Qed.

Lemma in_matrix_of dim0 dim1 z row :
  In row (matrix_of dim0 dim1 z) -> length row = Z.to_nat dim0.
Proof.
  unfold matrix_of. intros H. apply in_map_iff in H as (y & <- & _). apply length_row_of.
Qed.

(** *** The loops that build the matrix *)

Lemma cells_of_row y z : forall xs current_row previous_cell,
  exists last_cell,
    snd (for_each (add_cell y z) (current_row, previous_cell) xs)
    = Ret ((current_row ++ map (fun x => (x, y, z)) xs)%list, last_cell).
Proof.
  induction xs as [|x xs IH]; intros current_row previous_cell.
  - cbn [for_each snd map]. rewrite app_nil_r. eauto.
  - rewrite snd_for_each_cons. cbn [add_cell snd bind].
    match goal with
    | |- context [for_each _ (?r, ?p) xs] => destruct (IH r p) as [last_cell ->]
    end.
    cbn [map]. rewrite <- app_assoc. eauto.
Qed.

Lemma join_rows_returns previous_row current_row :
  length previous_row = length current_row ->
  snd (for_each (join_to_previous_row previous_row) tt (enumerate current_row)) = Ret tt.
Proof.
  intros Hlen. apply for_each_returns. intros [cell_ID c] Hin.
  unfold enumerate in Hin. apply in_combine_l in Hin.
  apply in_map_iff in Hin as (k & <- & Hk). apply in_seq in Hk.
  cbn [join_to_previous_row].
  destruct (py_index_some previous_row (Z.of_nat k)) as [p ->]; [lia | reflexivity].
Qed.

Lemma dimension_some dims k d (B : Type) (f : Z -> built B) :
  py_index dims k = Some d -> and_then (dimension dims k) f = f d.
Proof.
  intros H. unfold dimension. rewrite H. cbn [or_raise and_then].
  destruct (f d). reflexivity.
Qed.

Lemma rows_of_layer dims dim0 z :
  py_index dims 0 = Some dim0 ->
  forall ys matrix previous_row,
    (forall r, previous_row = Some r -> length r = Z.to_nat dim0) ->
    exists last_row,
      snd (for_each (add_row dims z) (matrix, previous_row) ys)
      = Ret ((matrix ++ map (fun y => row_of dim0 y z) ys)%list, last_row).
Proof.
  intros Hd0. induction ys as [|y ys IH]; intros matrix previous_row Hprev.
  - cbn [for_each snd map]. rewrite app_nil_r. eauto.
  - rewrite snd_for_each_cons. unfold add_row at 1.
    rewrite (dimension_some _ _ _ _ _ Hd0), snd_and_then.
    destruct (cells_of_row y z (py_range dim0) [] None) as [last_cell ->].
    cbn [bind app fst]. fold (row_of dim0 y z).
    rewrite snd_and_then.
    match goal with
    | |- context [bind (snd ?c) (fun _ => snd ([], Ret (_, _)))] =>
        assert (Hjoin : snd c = Ret tt)
    end.
    { destruct previous_row as [previous|]; [|reflexivity].
      apply join_rows_returns. rewrite length_row_of. now apply Hprev. }
    rewrite Hjoin. cbn [bind snd].
    match goal with
    | |- context [for_each _ (?m, ?p) ys] => destruct (IH m p) as [last_row ->]
    end.
    { intros r [= <-]. apply length_row_of. }
    cbn [map]. rewrite <- app_assoc. eauto.
Qed.

(** *** The diagonal bonds *)

Lemma add_diagonal_cases dims matrix y x :
  snd (add_diagonal dims matrix y tt x) = Ret tt
  \/ snd (add_diagonal dims matrix y tt x) = Raise IndexError.
Proof.
  unfold add_diagonal, dimension.
  destruct (py_index dims 0) as [dim0|]; cbn [or_raise and_then]; [|now right].
  destruct (x + 1 <? dim0); cbn [negb snd]; [|now left].
  destruct (py_index dims 1) as [dim1|]; cbn [or_raise and_then]; [|now right].
  destruct (y + 1 <? dim1); cbn [negb snd]; [|now left].
  destruct (py_index matrix x) as [row1|]; cbn [or_raise bind snd]; [|now right].
  destruct (py_index row1 y) as [c1|]; cbn [or_raise bind snd]; [|now right].
  destruct (py_index matrix (x + 1)) as [row2|]; cbn [or_raise bind snd]; [|now right].
  destruct (py_index row2 (y + 1)) as [c2|]; cbn [or_raise bind snd]; now (left + right).
Qed.

Lemma add_diagonals_cases dims matrix y :
  snd (add_diagonals dims matrix tt y) = Ret tt
  \/ snd (add_diagonals dims matrix tt y) = Raise IndexError.
Proof.
  unfold add_diagonals, dimension.
  destruct (py_index dims 0) as [dim0|]; cbn [or_raise and_then]; [|now right].
  match goal with
  | |- context [for_each ?b tt ?l] =>
      assert (H : snd (for_each b tt l) = Ret tt \/ snd (for_each b tt l) = Raise IndexError)
  end.
  { induction (py_range dim0) as [|x xs IH]; [now left|].
    rewrite snd_for_each_cons.
    destruct (add_diagonal_cases dims matrix y x) as [-> | ->]; cbn [bind]; [exact IH|].
    now right. }
  destruct (for_each _ tt (py_range dim0)) as [calls r]. exact H.
Qed.

(** One turn of the diagonal loop on the matrix of a layer. *)
Lemma add_diagonal_on_matrix dim0 dim1 dim2 z y x :
  0 <= x -> 0 <= y -> x + 1 < dim0 -> y + 1 < dim1 ->
  snd (add_diagonal [dim0; dim1; dim2] (matrix_of dim0 dim1 z) y tt x)
  = if (x + 1 <? dim1) && (y + 1 <? dim0) then Ret tt else Raise IndexError.
Proof.
  intros Hx Hy Hx1 Hy1. unfold add_diagonal, dimension.
  change (py_index [dim0; dim1; dim2] 0) with (Some dim0).
  change (py_index [dim0; dim1; dim2] 1) with (Some dim1).
  cbn [or_raise and_then].
  destruct (Z.ltb_spec (x + 1) dim0); [|lia]. cbn [negb].
  destruct (Z.ltb_spec (y + 1) dim1); [|lia]. cbn [negb].
  assert (Hrow : forall i row, py_index (matrix_of dim0 dim1 z) i = Some row ->
            length row = Z.to_nat dim0).
  { intros i row H'. apply py_index_in in H'. now apply in_matrix_of in H'. }
  destruct (Z.ltb_spec (x + 1) dim1) as [Hxd|Hxd]; cbn [andb].
  - destruct (py_index_some (matrix_of dim0 dim1 z) x) as [row1 E1];
      [rewrite length_matrix_of; lia|].
    destruct (py_index_some (matrix_of dim0 dim1 z) (x + 1)) as [row2 E2];
      [rewrite length_matrix_of; lia|].
    rewrite E1, E2. cbn [or_raise bind].
    pose proof (Hrow _ _ E1) as Hl1. pose proof (Hrow _ _ E2) as Hl2.
    destruct (Z.ltb_spec (y + 1) dim0) as [Hyd|Hyd].
    + destruct (py_index_some row1 y) as [c1 ->]; [lia|].
      destruct (py_index_some row2 (y + 1)) as [c2 ->]; [lia|].
      reflexivity.
    + destruct (py_index row1 y) as [c1|]; cbn [or_raise bind snd]; [|reflexivity].
      rewrite (py_index_none row2 (y + 1)) by lia. reflexivity.
  - destruct (py_index (matrix_of dim0 dim1 z) x) as [row1|]; cbn [or_raise bind snd];
      [|reflexivity].
    destruct (py_index row1 y) as [c1|]; cbn [or_raise bind snd]; [|reflexivity].
    rewrite (py_index_none (matrix_of dim0 dim1 z) (x + 1))
      by (rewrite length_matrix_of; lia).
    reflexivity.
Qed.

Lemma add_diagonal_skipped dim0 dim1 dim2 matrix y x :
  x + 1 >= dim0 \/ y + 1 >= dim1 ->
  snd (add_diagonal [dim0; dim1; dim2] matrix y tt x) = Ret tt.
Proof.
  intros H. unfold add_diagonal, dimension.
  change (py_index [dim0; dim1; dim2] 0) with (Some dim0).
  change (py_index [dim0; dim1; dim2] 1) with (Some dim1).
  cbn [or_raise and_then].
  destruct (Z.ltb_spec (x + 1) dim0); cbn [negb snd]; [|reflexivity].
  destruct (Z.ltb_spec (y + 1) dim1); cbn [negb snd]; [lia | reflexivity].
Qed.

(** The result of one layer is the result of its diagonal loops. *)
Lemma layer_result dim0 dim1 dim2 z :
  snd (add_layer [dim0; dim1; dim2] tt z)
  = snd (for_each (add_diagonals [dim0; dim1; dim2] (matrix_of dim0 dim1 z)) tt
                  (py_range dim1)).
Proof.
  unfold add_layer.
  rewrite (dimension_some [dim0; dim1; dim2] 1 dim1) by reflexivity.
  rewrite snd_and_then.
  destruct (rows_of_layer [dim0; dim1; dim2] dim0 z eq_refl (py_range dim1) [] None)
    as [last_row ->]; [discriminate|].
  cbn [bind app fst]. fold (matrix_of dim0 dim1 z).
  now rewrite (dimension_some [dim0; dim1; dim2] 1 dim1) by reflexivity.
Qed.

Lemma diagonals_result dim0 dim1 dim2 matrix y :
  snd (add_diagonals [dim0; dim1; dim2] matrix tt y)
  = snd (for_each (add_diagonal [dim0; dim1; dim2] matrix y) tt (py_range dim0)).
Proof.
  unfold add_diagonals. now rewrite (dimension_some [dim0; dim1; dim2] 0 dim0) by reflexivity.
Qed.

Lemma surface_result dim0 dim1 dim2 :
  snd (m1_surface [dim0; dim1; dim2])
  = snd (for_each (add_layer [dim0; dim1; dim2]) tt (py_range dim2)).
Proof.
  unfold m1_surface. now rewrite (dimension_some [dim0; dim1; dim2] 2 dim2) by reflexivity.
Qed.

Lemma bonds_within (bonds : unit_cell -> unit_cell -> list call) c1 c2 :
  (forall a b, Forall (fun c => exists i j, c = AddBond a i b j) (bonds a b)) ->
  layer c1 = layer c2 -> Forall within_a_layer (bonds c1 c2).
Proof.
  intros Hb Hl. eapply Forall_impl; [|apply Hb].
  intros c (i & j & ->). exact Hl.
Qed.

Lemma x_bonds_shape a b :
  Forall (fun c => exists i j, c = AddBond a i b j) (add_x_connecting_bonds a b).
Proof. repeat constructor; eauto. Qed.

Lemma y_bonds_shape a b :
  Forall (fun c => exists i j, c = AddBond a i b j) (add_y_connecting_bonds a b).
Proof. repeat constructor; eauto. Qed.

Lemma diagonal_bonds_shape a b :
  Forall (fun c => exists i j, c = AddBond a i b j) (add_diagonal_connecting_bonds a b).
Proof. repeat constructor; eauto. Qed.

Lemma add_cell_layer y z state x :
  in_layer z (fst state) /\ (forall p, snd state = Some p -> layer p = z) ->
  Forall within_a_layer (fst (add_cell y z state x))
  /\ (forall state', snd (add_cell y z state x) = Ret state' ->
        in_layer z (fst state') /\ (forall p, snd state' = Some p -> layer p = z)).
Proof.
  destruct state as [current_row previous_cell]. cbn [fst snd add_cell].
  intros [Hrow Hprev]. split.
  - repeat (constructor; [exact I|]).
    destruct previous_cell as [p|]; [|constructor].
    apply (bonds_within add_x_connecting_bonds); [apply x_bonds_shape|].
    now rewrite (Hprev p eq_refl).
  - intros state' [= <-]. cbn [fst snd]. split.
    + apply Forall_app. split; [assumption | repeat constructor].
    + now intros p [= <-].
Qed.

Lemma join_rows_layer z previous_row current_row :
  in_layer z previous_row -> in_layer z current_row ->
  Forall within_a_layer
         (fst (for_each (join_to_previous_row previous_row) tt (enumerate current_row))).
Proof.
  intros Hp Hc.
  apply (for_each_inv (join_to_previous_row previous_row) (fun _ => True)); [|exact I].
  intros [] [cell_ID c] Hin _. split; [|auto].
  cbn [join_to_previous_row].
  destruct (py_index previous_row cell_ID) as [p|] eqn:E; cbn [fst]; [|constructor].
  apply (bonds_within add_y_connecting_bonds); [apply y_bonds_shape|].
  apply py_index_in in E. unfold enumerate in Hin. apply in_combine_r in Hin.
  unfold in_layer in *. rewrite Forall_forall in Hp, Hc.
  now rewrite (Hp p E), (Hc c Hin).
Qed.

Lemma and_then_inv {A B} (P : call -> Prop) (Q : B -> Prop) (c : built A)
      (k : A -> built B) :
  Forall P (fst c) ->
  (forall a, snd c = Ret a ->
     Forall P (fst (k a)) /\ (forall b, snd (k a) = Ret b -> Q b)) ->
  Forall P (fst (and_then c k)) /\ (forall b, snd (and_then c k) = Ret b -> Q b).
Proof.
  intros Hc Hk. split.
  - apply Forall_and_then; [assumption|]. intros a Ha. now apply Hk.
  - intros b. rewrite snd_and_then.
    destruct (snd c) as [a| |] eqn:E; cbn [bind]; try discriminate.
    now apply Hk.
Qed.

Lemma add_row_layer dims z state y :
  Forall (in_layer z) (fst state) /\ (forall r, snd state = Some r -> in_layer z r) ->
  Forall within_a_layer (fst (add_row dims z state y))
  /\ (forall state', snd (add_row dims z state y) = Ret state' ->
        Forall (in_layer z) (fst state')
        /\ (forall r, snd state' = Some r -> in_layer z r)).
Proof.
  destruct state as [matrix previous_row]. cbn [fst snd]. intros [Hm Hprev].
  unfold add_row.
  apply and_then_inv; [constructor|]. intros dim0 _.
  destruct (for_each_inv (add_cell y z)
              (fun st => in_layer z (fst st) /\ (forall p, snd st = Some p -> layer p = z))
              within_a_layer (py_range dim0)
              (fun st x _ => add_cell_layer y z st x) ([], None))
    as [Hcalls Hstate]; [split; [constructor | discriminate]|].
  apply and_then_inv; [assumption|]. intros row_state Hret.
  destruct (Hstate _ Hret) as [Hrow _].
  apply and_then_inv.
  - destruct previous_row as [previous|]; [|constructor].
    apply (join_rows_layer z); [now apply Hprev | assumption].
  - intros _ _. cbn [fst snd]. split; [constructor|].
    intros state' [= <-]. cbn [fst snd]. split.
    + apply Forall_app. split; [assumption | now constructor].
    + now intros r [= <-].
Qed.

Lemma add_diagonal_layer dims matrix z y x :
  Forall (in_layer z) matrix ->
  Forall within_a_layer (fst (add_diagonal dims matrix y tt x)).
Proof.
  intros Hm. unfold add_diagonal, dimension.
  destruct (py_index dims 0) as [dim0|]; cbn [or_raise and_then]; [|constructor].
  destruct (x + 1 <? dim0); cbn [negb fst]; [|constructor].
  destruct (py_index dims 1) as [dim1|]; cbn [or_raise and_then]; [|constructor].
  destruct (y + 1 <? dim1); cbn [negb fst]; [|constructor].
  destruct (py_index matrix x) as [row1|] eqn:E1; cbn [or_raise bind fst]; [|constructor].
  destruct (py_index row1 y) as [c1|] eqn:E2; cbn [or_raise bind fst]; [|constructor].
  destruct (py_index matrix (x + 1)) as [row2|] eqn:E3; cbn [or_raise bind fst];
    [|constructor].
  destruct (py_index row2 (y + 1)) as [c2|] eqn:E4; cbn [or_raise bind fst];
    [|constructor].
  apply (bonds_within add_diagonal_connecting_bonds); [apply diagonal_bonds_shape|].
  apply py_index_in in E1, E2, E3, E4.
  rewrite Forall_forall in Hm.
  pose proof (Hm _ E1) as H1. pose proof (Hm _ E3) as H3.
  unfold in_layer in H1, H3. rewrite Forall_forall in H1, H3.
  now rewrite (H1 _ E2), (H3 _ E4).
Qed.

Lemma add_layer_layer dims z : Forall within_a_layer (fst (add_layer dims tt z)).
Proof.
  unfold add_layer.
  apply Forall_and_then; [constructor|]. intros dim1 _.
  destruct (for_each_inv (add_row dims z)
              (fun st => Forall (in_layer z) (fst st)
                         /\ (forall r, snd st = Some r -> in_layer z r))
              within_a_layer (py_range dim1)
              (fun st y _ => add_row_layer dims z st y) ([], None))
    as [Hcalls Hstate]; [split; [constructor | discriminate]|].
  apply Forall_and_then; [assumption|]. intros [matrix last_row] Hret.
  destruct (Hstate _ Hret) as [Hm _]. cbn [fst] in *.
  apply Forall_and_then; [constructor|]. intros dim1' _.
  apply (for_each_inv (add_diagonals dims matrix) (fun _ => True)); [|exact I].
  intros [] y _ _. split; [|auto].
  unfold add_diagonals. apply Forall_and_then; [constructor|]. intros dim0 _.
  apply (for_each_inv (add_diagonal dims matrix y) (fun _ => True)); [|exact I].
  intros [] x _ _. split; [|auto]. now apply (add_diagonal_layer dims matrix z).
Qed.

End SurfaceFacts.

Section SurfaceProperties.
Import ListFacts SurfaceFacts.
Local Open Scope Z_scope.

(** X26.  The matrix of cells is filled row by row ([y] first) and
    read as [[x][y]] by the loop of the diagonal bonds: a surface of
    at least two cells along both x and y, of different numbers along
    the two, and of at least one layer, raises [IndexError]. *)
Theorem surface_that_is_not_square_raises dim0 dim1 dim2 :
  2 <= dim0 -> 2 <= dim1 -> dim0 <> dim1 -> 1 <= dim2 ->
  snd (m1_surface [dim0; dim1; dim2]) = Raise IndexError.
Proof.
  intros H0 H1 Hne H2. rewrite surface_result.
  destruct (py_range_first dim2 H2) as [rest ->].
  rewrite snd_for_each_cons, layer_result.
  assert (Hlayer : snd (for_each (add_diagonals [dim0; dim1; dim2] (matrix_of dim0 dim1 0))
                                 tt (py_range dim1)) = Raise IndexError).
  { apply for_each_raises; [intros y _; apply add_diagonals_cases|].
    assert (Hcase : exists x y, 0 <= x /\ 0 <= y /\ x + 1 < dim0 /\ y + 1 < dim1
                                /\ (dim1 <= x + 1 \/ dim0 <= y + 1)).
    { destruct (Z.lt_ge_cases dim1 dim0).
      - exists (dim1 - 1), 0. lia.
      - exists 0, (dim0 - 1). lia. }
    destruct Hcase as (x & y & Hx & Hy & Hx1 & Hy1 & Hout).
    exists y. split; [apply in_py_range; lia|].
    rewrite diagonals_result.
    apply for_each_raises; [intros x' _; apply add_diagonal_cases|].
    exists x. split; [apply in_py_range; lia|].
    rewrite add_diagonal_on_matrix by assumption.
    destruct (Z.ltb_spec (x + 1) dim1); destruct (Z.ltb_spec (y + 1) dim0);
      cbn [andb]; try reflexivity. lia. }
  now rewrite Hlayer.
Qed.

(** X27.  The constructor of the surface returns when the numbers of
    cells along x and y are equal, or one of them is at most 1 (no
    diagonal bond is then looked for). *)
Theorem surface_that_is_square_or_thin_is_built dim0 dim1 dim2 :
  dim0 = dim1 \/ dim0 <= 1 \/ dim1 <= 1 ->
  snd (m1_surface [dim0; dim1; dim2]) = Ret tt.
Proof.
  intros H. rewrite surface_result. apply for_each_returns. intros z _.
  rewrite layer_result. apply for_each_returns. intros y Hy. apply in_py_range in Hy.
  rewrite diagonals_result. apply for_each_returns. intros x Hx. apply in_py_range in Hx.
  destruct (Z.lt_ge_cases (x + 1) dim0) as [Hx1|Hx1];
    [|apply add_diagonal_skipped; lia].
  destruct (Z.lt_ge_cases (y + 1) dim1) as [Hy1|Hy1];
    [|apply add_diagonal_skipped; lia].
  rewrite add_diagonal_on_matrix by lia.
  destruct (Z.ltb_spec (x + 1) dim1); destruct (Z.ltb_spec (y + 1) dim0);
    cbn [andb]; try reflexivity; lia.
Qed.

(** X28.  Whatever the dimensions and however the constructor ends,
    every bond it adds joins two cells of the same layer: the layers
    of a surface are not bonded to each other. *)
Theorem surface_layers_are_not_bonded surface_dimensions :
  Forall within_a_layer (fst (m1_surface surface_dimensions)).
Proof.
  unfold m1_surface. apply Forall_and_then; [constructor|]. intros dim2 _.
  apply (for_each_inv (add_layer surface_dimensions) (fun _ => True)); [|exact I].
  intros [] z _ _. split; [apply add_layer_layer | auto].
Qed.

End SurfaceProperties.

(** The properties above at work on example inputs. *)

Section SurfaceExamples.

Lemma surface_that_is_not_square_raises_witness :
  snd (m1_surface [3; 2; 1]) = Raise IndexError.
Proof.
  apply (surface_that_is_not_square_raises 3 2 1); lia.
Defined.

Lemma surface_that_is_square_or_thin_is_built_witness :
  snd (m1_surface [2; 2; 2]) = Ret tt.
Proof.
  apply (surface_that_is_square_or_thin_is_built 2 2 2). left. reflexivity.
Defined.

End SurfaceExamples.
